(** * Bulk catalogue import of graba2z: a shallow embedding and its properties

    The development follows [server/routes/productRoutes.js]: the column
    normaliser [remapRow], the three bulk routes ([bulk-preview],
    [bulk-preview-csv], [bulk-save]) and the routes that create, read,
    update and delete one product.
    JavaScript values are an inductive type, JavaScript objects are
    insertion-ordered association lists, [Map]s are [gmap]s, and the
    document store is threaded explicitly through a small state-and-error
    monad. *)

From Stdlib Require Import ZArith Ascii String List Bool Lia DecimalString.
From stdpp Require Import gmap strings list.

Set Warnings "-register-all".
Local Open Scope string_scope.

(** ** JavaScript values *)

(** A number is an integer that a 64-bit float holds ([VNum], with [-0]
    read as [0]), [NaN], or any other number ([VFloat]), which is kept
    as the text JavaScript prints it with. [VId] is a store identifier
    (an [ObjectId]), also when a client sends it back. *)
Inductive jsval : Type :=
| VUndef
| VNull
| VBool (b : bool)
| VNum (n : Z)
| VFloat (text : string)
| VNaN
| VStr (s : string)
| VId (n : nat)
| VArr (l : list jsval)
| VObj (o : list (string * jsval)).

(** A JavaScript object: keys in insertion order, each key once. *)
Abbreviation obj := (list (string * jsval)).

(** [Boolean(v)], the truthiness test behind [if (v)], [!v] and [||]. *)
Definition truthy (v : jsval) : bool :=
  match v with
  | VUndef | VNull | VNaN => false
  | VBool b => b
  | VNum n => negb (n =? 0)%Z
  | VStr s => negb (String.eqb s "")
  | VFloat _ | VId _ | VArr _ | VObj _ => true
  end.

(** [a || b] *)
Definition js_or (a b : jsval) : jsval := if truthy a then a else b.

(** [o[k]]: the value stored under [k], [undefined] when absent. *)
Fixpoint obj_get (k : string) (o : obj) : jsval :=
  match o with
  | [] => VUndef
  | (k', v) :: r => if String.eqb k k' then v else obj_get k r
  end.

(** [o[k] = v]: overwrite in place, or append a new key. *)
Fixpoint obj_set (k : string) (v : jsval) (o : obj) : obj :=
  match o with
  | [] => [(k, v)]
  | (k', v') :: r => if String.eqb k k' then (k, v) :: r else (k', v') :: obj_set k v r
  end.

(** [Object.values(o)] *)
Definition obj_values (o : obj) : list jsval := map snd o.

(** [{ ...a, ...b }] : the keys of [b] are written over a copy of [a]. *)
Definition obj_spread (a b : obj) : obj :=
  fold_left (fun acc kv => obj_set (fst kv) (snd kv) acc) b a.

(** [Object.values(o).every((v) => !v)] *)
Definition all_falsy (o : obj) : bool := forallb (fun v => negb (truthy v)) (obj_values o).

(** Strict equality with a string literal, [v === "lit"]. *)
Definition is_str (lit : string) (v : jsval) : bool :=
  match v with VStr s => String.eqb s lit | _ => false end.

(** SameValueZero, the comparison of [Set.prototype.has] and
    [Array.prototype.includes]; two distinct arrays or objects are never
    the same value. *)
Definition same_value_zero (a b : jsval) : bool :=
  match a, b with
  | VUndef, VUndef | VNull, VNull | VNaN, VNaN => true
  | VBool x, VBool y => Bool.eqb x y
  | VNum x, VNum y => (x =? y)%Z
  | VFloat x, VFloat y => String.eqb x y
  | VStr x, VStr y => String.eqb x y
  | VId x, VId y => Nat.eqb x y
  | _, _ => false
  end.

(** [xs.includes(v)] / [new Set(xs).has(v)] *)
Definition js_has (xs : list jsval) (v : jsval) : bool := existsb (same_value_zero v) xs.

(** ** Strings

    A string is written as the bytes of its UTF-8 form, a lone surrogate
    like a three-byte character, so that two strings are equal exactly
    when their bytes are. *)

(** White space as [trim] and [\s] see it: TAB, LF, VT, FF, CR and the
    space, which take one byte; U+00A0, which takes two; and U+1680,
    U+2000 to U+200A, U+2028, U+2029, U+202F, U+205F, U+3000 and U+FEFF,
    which take three. *)
Definition space1 (c : ascii) : bool :=
  let n := N_of_ascii c in ((9 <=? n) && (n <=? 13) || (n =? 32))%N.

Definition space2 (c d : ascii) : bool :=
  ((N_of_ascii c =? 194) && (N_of_ascii d =? 160))%N.

Definition space3 (c d f : ascii) : bool :=
  let n := N_of_ascii c in
  let x := N_of_ascii d in
  let y := N_of_ascii f in
  ((n =? 225) && (x =? 154) && (y =? 128)
   || (n =? 226) && (x =? 128)
      && ((128 <=? y) && (y <=? 138) || (y =? 168) || (y =? 169) || (y =? 175))
   || (n =? 226) && (x =? 129) && (y =? 159)
   || (n =? 227) && (x =? 128) && (y =? 128)
   || (n =? 239) && (x =? 187) && (y =? 191))%N.

(** The number of bytes of the white-space character [s] starts with, 0
    when it starts with none. *)
Definition space_len (s : string) : nat :=
  match s with
  | String c r =>
      if space1 c then 1
      else match r with
           | String d r' =>
               if space2 c d then 2
               else match r' with
                    | String f _ => if space3 c d f then 3 else 0
                    | EmptyString => 0
                    end
           | EmptyString => 0
           end
  | EmptyString => 0
  end.

(** What is left of [s] after [skip] bytes and the white space that
    follows them. *)
Fixpoint skip_spaces (skip : nat) (s : string) : string :=
  match s with
  | String c r =>
      match skip with
      | S k => skip_spaces k r
      | O => match space_len s with
             | S k => skip_spaces k r
             | O => s
             end
      end
  | EmptyString => EmptyString
  end.

Definition trim_start (s : string) : string := skip_spaces 0 s.

(** The string is cut where nothing but white space follows. *)
Fixpoint trim_end (s : string) : string :=
  match s with
  | String c r =>
      match trim_start s with
      | EmptyString => EmptyString
      | _ => String c (trim_end r)
      end
  | EmptyString => EmptyString
  end.

(** [s.trim()] *)
Definition trim (s : string) : string := trim_end (trim_start s).

(** [s.replace(/\s+/g, "-")]: every maximal run of white space becomes
    one hyphen. [skip] counts the bytes still to pass of the white-space
    character being read, [in_run] tells that the run has its hyphen. *)
Fixpoint replace_spaces (skip : nat) (in_run : bool) (s : string) : string :=
  match s with
  | String c r =>
      match skip with
      | S k => replace_spaces k in_run r
      | O => match space_len s with
             | S k => if in_run then replace_spaces k true r
                      else String "-" (replace_spaces k true r)
             | O => String c (replace_spaces 0 false r)
             end
      end
  | EmptyString => EmptyString
  end.

Definition hyphenate (s : string) : string := replace_spaces 0 false s.

(** [s.length]: the number of UTF-16 code units, one for a character of
    up to three bytes and two for one of four. *)
Fixpoint utf16_length (s : string) : nat :=
  match s with
  | String c r =>
      let n := N_of_ascii c in
      ((if ((n <? 128) || (192 <=? n) && (n <? 240))%N then 1
        else if (240 <=? n)%N then 2 else 0) + utf16_length r)%nat
  | EmptyString => 0%nat
  end.

(** [s.charAt(0)]: the first code unit, which is the first character,
    or the high surrogate of a first character of four bytes. *)
Definition first_unit (s : string) : string :=
  match s with
  | String c r =>
      let n := N_of_ascii c in
      if (n <? 192)%N then String c ""
      else if (n <? 224)%N then
        match r with
        | String d _ => String c (String d "")
        | _ => String c ""
        end
      else if (n <? 240)%N then
        match r with
        | String d (String f _) => String c (String d (String f ""))
        | _ => String c ""
        end
      else
        match r with
        | String d (String f (String g _)) =>
            let point := ((n mod 8) * 262144 + (N_of_ascii d mod 64) * 4096
                          + (N_of_ascii f mod 64) * 64 + N_of_ascii g mod 64)%N in
            let high := (55296 + (point - 65536) / 1024)%N in
            String (ascii_of_N 237)
              (String (ascii_of_N (128 + (high / 64) mod 64))
                 (String (ascii_of_N (128 + high mod 64)) ""))
        | _ => String c ""
        end
  | EmptyString => EmptyString
  end.

(** [s.split(",")] *)
Fixpoint split_comma (s : string) : list string :=
  match s with
  | String c r =>
      if Ascii.eqb c "," then EmptyString :: split_comma r
      else match split_comma r with
           | x :: xs => String c x :: xs
           | [] => [String c EmptyString]
           end
  | EmptyString => [EmptyString]
  end.

(** The decimal numeral of an integer. *)
Definition decimal (n : Z) : string := NilZero.string_of_int (Z.to_int n).

(** The decimal value [c] is read as the number [n]: it lies between the
    midpoints to the two neighbours of [n] among the 64-bit floating
    point numbers, a midpoint counting when the mantissa of [n] is even.
    Twice the values are compared, so that all are integers. Here [n] is
    above [2^53]. *)
Definition reads_as (n c : Z) : bool :=
  let e := (Z.log2 n - 52)%Z in
  let m := Z.shiftr n e in
  let above := (2 * n + 2 ^ e)%Z in
  let below := (2 * n - (if (m =? 2 ^ 52)%Z then 2 ^ (e - 1) else 2 ^ e))%Z in
  if Z.even m then ((below <=? 2 * c) && (2 * c <=? above))%Z
  else ((below <? 2 * c) && (2 * c <? above))%Z.

(** The decimal value with the fewest significant digits that is read
    as [n], the one nearest to [n] if there are two, and of these the
    one with the even last digit if they are equally near. [p] is the
    weight of the last digit tried; it starts at the weight of the first
    digit of [n]. *)
Fixpoint shortest (fuel : nat) (n p : Z) : Z :=
  match fuel with
  | O => n
  | S fuel' =>
      let c1 := (n / p * p)%Z in
      let c2 := (c1 + p)%Z in
      if reads_as n c1 && reads_as n c2 then
        if (n - c1 <? c2 - n)%Z then c1
        else if (c2 - n <? n - c1)%Z then c2
        else if Z.even (n / p) then c1 else c2
      else if reads_as n c1 then c1
      else if reads_as n c2 then c2
      else shortest fuel' n (p / 10)
  end.

(** A numeral without its final zeros. *)
Fixpoint strip_zeros (s : string) : string :=
  match s with
  | String c r =>
      match strip_zeros r with
      | EmptyString => if Ascii.eqb c "0" then EmptyString else String c EmptyString
      | r' => String c r'
      end
  | EmptyString => EmptyString
  end.

(** [String(n)] for a positive integer [n]: an integer up to [2^53]
    prints as it is; a larger one prints its shortest digits, followed
    by zeros up to 21 digits and with an exponent beyond. *)
Definition positive_text (n : Z) : string :=
  if (n <=? 2 ^ 53)%Z then decimal n
  else
    let digits := String.length (decimal n) in
    let text := decimal (shortest digits n (10 ^ (Z.of_nat digits - 1))) in
    let n10 := String.length text in
    if (n10 <=? 21)%nat then text
    else
      match strip_zeros text with
      | String d EmptyString => String d ("e+" ++ decimal (Z.of_nat n10 - 1))
      | String d rest => String d ("." ++ rest ++ "e+" ++ decimal (Z.of_nat n10 - 1))
      | EmptyString => text
      end.

(** [String(n)] for an integer number [n]. *)
Definition number_text (n : Z) : string :=
  if (n <? 0)%Z then "-" ++ positive_text (- n) else positive_text n.

(** [String(v)]. An array prints its elements separated by commas, an
    object of data prints as ["[object Object]"]; an object that carries
    a [toString] of its own, on which [String] throws, is not among the
    cells considered. *)
Fixpoint js_String (v : jsval) : string :=
  match v with
  | VUndef => "undefined"
  | VNull => "null"
  | VBool true => "true"
  | VBool false => "false"
  | VNum n => number_text n
  | VFloat text => text
  | VNaN => "NaN"
  | VStr s => s
  | VId n => NilZero.string_of_uint (Nat.to_uint n)
  | VArr l =>
      (fix join (l : list jsval) : string :=
         match l with
         | [] => ""
         | x :: r =>
             let hd := match x with VUndef | VNull => "" | _ => js_String x end in
             match r with [] => hd | _ => hd ++ "," ++ join r end
         end) l
  | VObj _ => "[object Object]"
  end.

(** ** The column normaliser *)

(** The members every object literal inherits from [Object.prototype]:
    a lookup [table[k]] on the literal [excelToBackendKey] finds them
    too. Used as a property key, the value found is turned into a
    string: a built-in function into its source text, the prototype
    object that [__proto__] gives into ["[object Object]"]. *)
Definition inherited_member (k : string) : option string :=
  if String.eqb k "constructor" then Some "function Object() { [native code] }"
  else if String.eqb k "__defineGetter__" then Some "function __defineGetter__() { [native code] }"
  else if String.eqb k "__defineSetter__" then Some "function __defineSetter__() { [native code] }"
  else if String.eqb k "hasOwnProperty" then Some "function hasOwnProperty() { [native code] }"
  else if String.eqb k "__lookupGetter__" then Some "function __lookupGetter__() { [native code] }"
  else if String.eqb k "__lookupSetter__" then Some "function __lookupSetter__() { [native code] }"
  else if String.eqb k "isPrototypeOf" then Some "function isPrototypeOf() { [native code] }"
  else if String.eqb k "propertyIsEnumerable"
       then Some "function propertyIsEnumerable() { [native code] }"
  else if String.eqb k "toString" then Some "function toString() { [native code] }"
  else if String.eqb k "valueOf" then Some "function valueOf() { [native code] }"
  else if String.eqb k "__proto__" then Some "[object Object]"
  else if String.eqb k "toLocaleString" then Some "function toLocaleString() { [native code] }"
  else None.

(** [excelToBackendKey[k]], as the property key [mapped[backendKey]]
    uses it: the backend field the table lists for the header [k], or
    the text of the inherited member that [k] spells; [None] when the
    lookup gives [undefined]. *)
Definition excelToBackendKey (k : string) : option string :=
  if String.eqb k "name" then Some "name"
  else if String.eqb k "slug" then Some "slug"
  else if String.eqb k "SKU" then Some "sku"
  else if String.eqb k "sku" then Some "sku"
  else if String.eqb k "category" then Some "category"
  else if String.eqb k "parent_category" then Some "parent_category"
  else if String.eqb k "barcode" then Some "barcode"
  else if String.eqb k "buying_price" then Some "buyingPrice"
  else if String.eqb k "selling_price" then Some "price"
  else if String.eqb k "offer_price" then Some "offerPrice"
  else if String.eqb k "tax" then Some "tax"
  else if String.eqb k "brand" then Some "brand"
  else if String.eqb k "status" then Some "stockStatus"
  else if String.eqb k "show_stock_out" then Some "showStockOut"
  else if String.eqb k "can_purchasable" then Some "canPurchase"
  else if String.eqb k "refundable" then Some "refundable"
  else if String.eqb k "max_purchase_quantity" then Some "maxPurchaseQty"
  else if String.eqb k "low_stock_warning" then Some "lowStockWarning"
  else if String.eqb k "unit" then Some "unit"
  else if String.eqb k "weight" then Some "weight"
  else if String.eqb k "tags" then Some "tags"
  else if String.eqb k "description" then Some "description"
  else if String.eqb k "discount" then Some "discount"
  else if String.eqb k "specifications" then Some "specifications"
  else if String.eqb k "details" then Some "details"
  else if String.eqb k "short_description" then Some "shortDescription"
  else if String.eqb k "subCategory" then Some "subCategory"
  else if String.eqb k "warranty" then Some "warranty"
  else if String.eqb k "size" then Some "size"
  else if String.eqb k "volume" then Some "volume"
  else inherited_member k.

(** [row[key] !== undefined && row[key] !== ""] *)
Definition spec_worthy (v : jsval) : bool :=
  match v with
  | VUndef => false
  | VStr s => negb (String.eqb s "")
  | _ => true
  end.

(** One turn of the [for (const key in row)] loop of [remapRow]; the
    state is the pair of [mapped] and [specifications]. *)
Definition remap_step (acc : obj * list jsval) (kv : string * jsval) : obj * list jsval :=
  let '(mapped, specifications) := acc in
  let '(key, v) := kv in
  match excelToBackendKey (trim key) with
  | Some backendKey => (obj_set backendKey v mapped, specifications)
  | None =>
      if spec_worthy v
      then (mapped, (specifications ++ [VObj [("key", VStr (trim key)); ("value", VStr (js_String v))]])%list)
      else (mapped, specifications)
  end.

Definition remap_loop (row : obj) : obj * list jsval := fold_left remap_step row ([], []).

Definition remapRow (row : obj) : obj :=
  let '(mapped, specifications) := remap_loop row in
  match specifications with
  | [] => mapped
  | _ :: _ => obj_set "specifications" (VArr specifications) mapped
  end.

(** ** The document store *)

Inductive kind : Type :=
| Category | SubCategory | Brand | Tax | Unit | Color | Warranty | Size | Volume.

#[global] Instance kind_eq_dec : EqDecision kind.
Proof. solve_decision. Defined.

(** A stored dimension document: its [_id] and the fields it was created
    with. *)
Record entity : Type := mkEntity { ent_id : nat; ent_doc : obj }.

(** [doc.name]; the models declare it as a string. *)
Definition ent_name (e : entity) : string := js_String (obj_get "name" (ent_doc e)).

Record store : Type := mkStore {
  entities : kind -> list entity;
  products : list obj;
  next_id : nat
}.

(** What the repository does not show: the numeric parsers and the case
    mapping of the language, and the schema validation run by
    [Model.create] and [doc.save()], which throws with a message when it
    rejects a document. *)
Class Externals : Type := {
  parseFloat : jsval -> jsval;
  parseInt : jsval -> jsval;
  toLowerCase : string -> string;
  entity_rejects : kind -> list entity -> obj -> option string;
  product_rejects : list obj -> obj -> option string
}.

(** A handler either completes with a value or throws; writes made
    before the throw stay in the store. *)
Inductive result (A : Type) : Type :=
| Ok (a : A)
| Thrown (msg : string).
Arguments Ok {A} a.
Arguments Thrown {A} msg.

Definition M (A : Type) : Type := store -> store * result A.

Definition ret {A} (a : A) : M A := fun st => (st, Ok a).

Definition bind {A B} (c : M A) (k : A -> M B) : M B :=
  fun st =>
    match c st with
    | (st', Ok a) => k a st'
    | (st', Thrown msg) => (st', Thrown msg)
    end.

Notation "'let!' x ':=' c 'in' k" := (bind c (fun x => k))
  (at level 10, x name, c at level 200, k at level 200).

(** [try { c } catch (error) { h(error.message) }] *)
Definition try_catch {A} (c : M A) (h : string -> M A) : M A :=
  fun st =>
    match c st with
    | (st', Ok a) => (st', Ok a)
    | (st', Thrown msg) => h msg st'
    end.

Section Routes.
Context {ext : Externals}.

(** [generateSlug] of the source. *)
Definition generateSlug (name : string) : string := hyphenate (toLowerCase (trim name)).

(** The key under which a dimension name is stored and looked up:
    [String(v).trim().toLowerCase()]. *)
Definition norm_key (v : jsval) : string := toLowerCase (trim (js_String v)).

(** *** Store operations *)

(** [Model.create(doc)]: validation may throw; otherwise the document is
    stored under a fresh identifier, which is returned. *)
Definition create (k : kind) (doc : obj) : M nat :=
  fun st =>
    match entity_rejects k (entities st k) doc with
    | Some msg => (st, Thrown msg)
    | None =>
        let id := next_id st in
        let added := fun k' =>
          if decide (k' = k) then (entities st k' ++ [mkEntity id doc])%list
          else entities st k' in
        (mkStore added (products st) (S id), Ok id)
    end.

(** [Model.find({ name: { $in: names } })] *)
Definition find (k : kind) (names : list string) : M (list entity) :=
  fun st => (st, Ok (List.filter (fun e => bool_decide (ent_name e ∈ names)) (entities st k))).

(** [Model.findById(id)]; a value that is no identifier finds nothing. *)
Definition findById (k : kind) (v : jsval) : M (option entity) :=
  fun st =>
    (st, Ok match v with
            | VId n => List.find (fun e => Nat.eqb (ent_id e) n) (entities st k)
            | _ => None
            end).

(** Equality of a query value with a stored field; an [undefined] or
    [null] query value matches a null or missing field. *)
Definition mongo_eq (q d : jsval) : bool :=
  match q with
  | VUndef | VNull => match d with VUndef | VNull => true | _ => false end
  | _ => same_value_zero q d
  end.

(** [Product.find({ $or: [{ name: { $in: names } }, { slug: { $in: slugs } }] })] *)
Definition find_products (names slugs : list jsval) : M (list obj) :=
  fun st =>
    (st, Ok (List.filter (fun p => existsb (fun q => mongo_eq q (obj_get "name" p)) names
                              || existsb (fun q => mongo_eq q (obj_get "slug" p)) slugs)
                    (products st))).

(** [Product.findOne({ $or: [{ name }, { slug }] })] *)
Definition findOne_product (name slug : jsval) : M (option obj) :=
  fun st =>
    (st, Ok (List.find (fun p => mongo_eq name (obj_get "name" p) || mongo_eq slug (obj_get "slug" p))
                       (products st))).

(** [new Product(fields)] followed by [product.save()]: the document gets
    its identifier, validation may throw, otherwise it is stored. *)
Definition save_product (fields : obj) : M obj :=
  fun st =>
    match product_rejects (products st) fields with
    | Some msg => (st, Thrown msg)
    | None =>
        let doc := ("_id", VId (next_id st)) :: fields in
        (mkStore (entities st) (products st ++ [doc])%list (S (next_id st)), Ok doc)
    end.

(** *** Dimension resolution *)

(** [set.add(x)] on an insertion-ordered [Set]. *)
Definition set_add (x : string) (s : list string) : list string :=
  if bool_decide (x ∈ s) then s else (s ++ [x])%list.

(** [if (row.f) unique.add(String(row.f).trim())], over all rows. *)
Definition unique_names (field : string) (rows : list obj) : list string :=
  fold_left (fun s row =>
               let v := obj_get field row in
               if truthy v then set_add (trim (js_String v)) s else s)
            rows [].

(** [all.forEach((d) => map.set(d.name.trim().toLowerCase(), d._id))] *)
Definition index_by_name (all : list entity) : gmap string nat :=
  fold_left (fun m e => <[toLowerCase (trim (ent_name e)) := ent_id e]> m) all ∅.

(** [map.get(k)] *)
Definition map_get (m : gmap string nat) (k : string) : jsval :=
  match m !! k with
  | Some id => VId id
  | None => VUndef
  end.

(** The loop [for (const name of unique) if (!map.has(key)) { create; map.set }];
    [mk] builds the document handed to [create]. *)
Fixpoint create_missing (k : kind) (mk : string -> obj) (names : list string)
    (m : gmap string nat) : M (gmap string nat) :=
  match names with
  | [] => ret m
  | name :: rest =>
      let key := toLowerCase (trim name) in
      match m !! key with
      | Some _ => create_missing k mk rest m
      | None =>
          let! id := create k (mk name) in
          create_missing k mk rest (<[key := id]> m)
      end
  end.

(** The parent of a subcategory about to be created: the first row that
    pairs the subcategory name with a parent name decides. [sub] is the
    row field holding the subcategory, [par] the one holding its parent. *)
Definition parent_of (sub par : string) (rows : list obj) (parents : gmap string nat)
    (name : string) : jsval :=
  match List.find (fun r => truthy (obj_get sub r)
                            && String.eqb (norm_key (obj_get sub r)) (toLowerCase (trim name))
                            && truthy (obj_get par r)) rows with
  | Some rowWithParent => map_get parents (norm_key (obj_get par rowWithParent))
  | None => VUndef
  end.

Definition named_doc (user : jsval) (name : string) : obj :=
  [("name", VStr (trim name)); ("createdBy", user)].

Definition slugged_doc (user : jsval) (name : string) : obj :=
  [("name", VStr (trim name)); ("slug", VStr (generateSlug name)); ("createdBy", user)].

Definition sub_doc (user parent : jsval) (name : string) : obj :=
  [("name", VStr (trim name)); ("slug", VStr (generateSlug name));
   ("category", parent); ("createdBy", user)].

Definition tax_doc (user : jsval) (name : string) : obj :=
  [("name", VStr (trim name)); ("rate", VNum 5); ("createdBy", user)].

(** [name.trim().length <= 3 ? name.trim() : name.trim().charAt(0)] *)
Definition unit_symbol (name : string) : string :=
  if (utf16_length (trim name) <=? 3)%nat then trim name else first_unit (trim name).

Definition unit_doc (user : jsval) (name : string) : obj :=
  [("name", VStr (trim name)); ("symbol", VStr (unit_symbol name));
   ("type", VStr "piece"); ("createdBy", user)].

(** *** The spreadsheet preview, [POST /bulk-preview] *)

Record excel_maps : Type := mkExcelMaps {
  x_categoryMap : gmap string nat;
  x_brandMap : gmap string nat;
  x_subCategoryMap : gmap string nat;
  x_taxMap : gmap string nat;
  x_unitMap : gmap string nat;
  x_colorMap : gmap string nat;
  x_warrantyMap : gmap string nat;
  x_sizeMap : gmap string nat;
  x_volumeMap : gmap string nat
}.

(** Lookup of the existing documents of every kind, then creation of the
    missing ones, kind after kind. *)
Definition resolve_excel (user : jsval) (mappedRows : list obj) : M excel_maps :=
  let uniqueCategoryNames := unique_names "category" mappedRows in
  let uniqueBrandNames := unique_names "brand" mappedRows in
  let uniqueSubCategoryNames := unique_names "subCategory" mappedRows in
  let uniqueTaxNames := unique_names "tax" mappedRows in
  let uniqueUnitNames := unique_names "unit" mappedRows in
  let uniqueColorNames := unique_names "color" mappedRows in
  let uniqueWarrantyNames := unique_names "warranty" mappedRows in
  let uniqueSizeNames := unique_names "size" mappedRows in
  let uniqueVolumeNames := unique_names "volume" mappedRows in
  let! allCategories := find Category uniqueCategoryNames in
  let! allBrands := find Brand uniqueBrandNames in
  let! allSubCategories := find SubCategory uniqueSubCategoryNames in
  let! allTaxes := find Tax uniqueTaxNames in
  let! allUnits := find Unit uniqueUnitNames in
  let! allColors := find Color uniqueColorNames in
  let! allWarranties := find Warranty uniqueWarrantyNames in
  let! allSizes := find Size uniqueSizeNames in
  let! allVolumes := find Volume uniqueVolumeNames in
  let! categoryMap :=
    create_missing Category (slugged_doc user) uniqueCategoryNames (index_by_name allCategories) in
  let! brandMap :=
    create_missing Brand (slugged_doc user) uniqueBrandNames (index_by_name allBrands) in
  let! subCategoryMap :=
    create_missing SubCategory
      (fun name => sub_doc user (parent_of "subCategory" "category" mappedRows categoryMap name) name)
      uniqueSubCategoryNames (index_by_name allSubCategories) in
  let! taxMap :=
    create_missing Tax (named_doc user) uniqueTaxNames (index_by_name allTaxes) in
  let! unitMap :=
    create_missing Unit (unit_doc user) uniqueUnitNames (index_by_name allUnits) in
  let! colorMap :=
    create_missing Color (named_doc user) uniqueColorNames (index_by_name allColors) in
  let! warrantyMap :=
    create_missing Warranty (named_doc user) uniqueWarrantyNames (index_by_name allWarranties) in
  let! sizeMap :=
    create_missing Size (named_doc user) uniqueSizeNames (index_by_name allSizes) in
  let! volumeMap :=
    create_missing Volume (named_doc user) uniqueVolumeNames (index_by_name allVolumes) in
  ret (mkExcelMaps categoryMap brandMap subCategoryMap taxMap unitMap
                   colorMap warrantyMap sizeMap volumeMap).

(** An entry of [invalidRows]: [{ row, reason, data }]. *)
Record invalid_row : Type := mkInvalid { ir_row : nat; ir_reason : string; ir_data : obj }.

Definition allowedStockStatus : list jsval :=
  [VStr "Available Product"; VStr "Out of Stock"; VStr "PreOrder"].

(** [let stockStatus = v || "Available Product";
     if (!allowedStockStatus.includes(stockStatus)) stockStatus = "Available Product"] *)
Definition canon_stock (v : jsval) : jsval :=
  let stockStatus := js_or v (VStr "Available Product") in
  if js_has allowedStockStatus stockStatus then stockStatus else VStr "Available Product".

(** [v !== undefined ? Boolean(v) : d] *)
Definition bool_default (d : bool) (v : jsval) : jsval :=
  match v with
  | VUndef => VBool d
  | _ => VBool (truthy v)
  end.

(** [v ? String(v).split(",") : []] *)
Definition comma_list (v : jsval) : jsval :=
  if truthy v then VArr (map VStr (split_comma (js_String v))) else VArr [].

(** [v ? map.get(String(v).trim().toLowerCase()) : undefined] *)
Definition dim_get (m : gmap string nat) (v : jsval) : jsval :=
  if truthy v then map_get m (norm_key v) else VUndef.

(** [(row.name && existingNames.has(row.name)) || (row.slug && existingSlugs.has(row.slug))] *)
Definition is_duplicate (existingNames existingSlugs : list jsval) (row : obj) : bool :=
  truthy (obj_get "name" row) && js_has existingNames (obj_get "name" row)
  || truthy (obj_get "slug" row) && js_has existingSlugs (obj_get "slug" row).

(** The object pushed to [previewProducts] by the spreadsheet route. *)
Definition excel_candidate (maps : excel_maps) (row : obj) : obj :=
  let categoryId := dim_get (x_categoryMap maps) (obj_get "category" row) in
  let brandId := dim_get (x_brandMap maps) (obj_get "brand" row) in
  let stockStatus := canon_stock (obj_get "stockStatus" row) in
  [ ("name", js_or (obj_get "name" row) (VStr ""));
    ("price", js_or (obj_get "price" row) (VNum 0));
    ("offerPrice", js_or (obj_get "offerPrice" row) (VNum 0));
    ("discount", js_or (obj_get "discount" row) (VNum 0));
    ("oldPrice", js_or (obj_get "oldPrice" row) (VNum 0));
    ("image", js_or (obj_get "image" row) (VStr ""));
    ("galleryImages", comma_list (obj_get "galleryImages" row));
    ("countInStock", js_or (obj_get "countInStock" row) (VNum 0));
    ("description", js_or (obj_get "description" row) (VStr ""));
    ("shortDescription", js_or (obj_get "shortDescription" row) (VStr ""));
    ("category", categoryId);
    ("brand", brandId);
    ("sku", js_or (obj_get "sku" row) (VStr ""));
    ("slug", js_or (obj_get "slug" row) (VStr ""));
    ("barcode", js_or (obj_get "barcode" row) (VStr ""));
    ("stockStatus", stockStatus);
    ("buyingPrice", js_or (obj_get "buyingPrice" row) (VNum 0));
    ("lowStockWarning", js_or (obj_get "lowStockWarning" row) (VNum 5));
    ("maxPurchaseQty", js_or (obj_get "maxPurchaseQty" row) (VNum 10));
    ("weight", js_or (obj_get "weight" row) (VNum 0));
    ("unit", dim_get (x_unitMap maps) (obj_get "unit" row));
    ("color", dim_get (x_colorMap maps) (obj_get "color" row));
    ("tax", dim_get (x_taxMap maps) (obj_get "tax" row));
    ("tags", comma_list (obj_get "tags" row));
    ("isActive", bool_default true (obj_get "isActive" row));
    ("canPurchase", bool_default true (obj_get "canPurchase" row));
    ("showStockOut", bool_default true (obj_get "showStockOut" row));
    ("refundable", bool_default true (obj_get "refundable" row));
    ("featured", bool_default false (obj_get "featured" row));
    ("subCategory", dim_get (x_subCategoryMap maps) (obj_get "subCategory" row));
    ("warranty", dim_get (x_warrantyMap maps) (obj_get "warranty" row));
    ("size", dim_get (x_sizeMap maps) (obj_get "size" row));
    ("volume", dim_get (x_volumeMap maps) (obj_get "volume" row)) ].

(** What one turn of a preview row loop does with its row: it pushes a
    candidate to [previewProducts], or pushes a reason to [invalidRows]
    and continues. *)
Inductive verdict : Type :=
| Accepted (candidate : obj)
| Rejected (reason : string).

(** [previewProducts.push(c)] and
    [invalidRows.push({ row: i + 2, reason, data: row })] *)
Definition push_verdict (i : nat) (row : obj) (v : verdict)
    (lists : list obj * list invalid_row) : list obj * list invalid_row :=
  match v with
  | Accepted c => ((lists.1 ++ [c])%list, lists.2)
  | Rejected reason => (lists.1, (lists.2 ++ [mkInvalid (i + 2) reason row])%list)
  end.

(** [for (const [i, row] of rows.entries()) { body }]; the two arrays are
    the accumulator, a throw in the body ends the loop. *)
Fixpoint row_loop (body : obj -> result verdict) (i : nat) (rows : list obj)
    (lists : list obj * list invalid_row) : result (list obj * list invalid_row) :=
  match rows with
  | [] => Ok lists
  | row :: rest =>
      match body row with
      | Ok v => row_loop body (S i) rest (push_verdict i row v lists)
      | Thrown msg => Thrown msg
      end
  end.

(** The body of the spreadsheet row loop. *)
Definition excel_row (maps : excel_maps) (existingNames existingSlugs : list jsval)
    (row : obj) : result verdict :=
  if all_falsy row then Ok (Rejected "Empty row")
  else if is_duplicate existingNames existingSlugs row
  then Ok (Rejected "Duplicate product name or slug")
  else Ok (Accepted (excel_candidate maps row)).

Definition lift {A} (r : result A) : M A := fun st => (st, r).

(** [{ _id: d._id, name: d.name, slug: d.slug }] *)
Definition display (e : entity) : jsval :=
  VObj [("_id", VId (ent_id e)); ("name", VStr (ent_name e)); ("slug", obj_get "slug" (ent_doc e))].

(** [if (prod.f) { const d = await Model.findById(prod.f); if (d) populated.f = {...} }] *)
Definition populate_field (k : kind) (field : string) (prod populated : obj) : M obj :=
  if truthy (obj_get field prod) then
    let! d := findById k (obj_get field prod) in
    match d with
    | Some e => ret (obj_set field (display e) populated)
    | None => ret populated
    end
  else ret populated.

Fixpoint mapM {A B} (f : A -> M B) (l : list A) : M (list B) :=
  match l with
  | [] => ret []
  | a :: r =>
      let! b := f a in
      let! bs := mapM f r in
      ret (b :: bs)
  end.

Definition populate_excel (prod : obj) : M obj :=
  let! populated := populate_field Category "category" prod prod in
  let! populated := populate_field SubCategory "subCategory" prod populated in
  populate_field Brand "brand" prod populated.

(** The body of [res.json] of the two preview routes. *)
Record preview_response : Type := mkPreview {
  pv_previewProducts : list obj;
  pv_invalidRows : list invalid_row;
  pv_total : nat;
  pv_valid : nat;
  pv_invalid : nat
}.

(** [rows.map((r) => r[f]).filter(Boolean)] *)
Definition truthy_column (field : string) (rows : list obj) : list jsval :=
  List.filter truthy (map (obj_get field) rows).

(** The handler, from the parsed sheet [rows] on. A throw is answered
    with status 500 and no report. *)
Definition bulk_preview (user : jsval) (rows : list obj) : M preview_response :=
  let mappedRows := map remapRow rows in
  let! maps := resolve_excel user mappedRows in
  let names := truthy_column "name" rows in
  let slugs := truthy_column "slug" rows in
  let! existingProducts := find_products names slugs in
  let existingNames := map (obj_get "name") existingProducts in
  let existingSlugs := map (obj_get "slug") existingProducts in
  let! lists := lift (row_loop (excel_row maps existingNames existingSlugs) 0 mappedRows ([], [])) in
  let '(previewProducts, invalidRows) := lists in
  let! populatedPreviewProducts := mapM populate_excel previewProducts in
  ret (mkPreview populatedPreviewProducts invalidRows
                 (length rows) (length previewProducts) (length invalidRows)).

(** *** The CSV preview, [POST /bulk-preview-csv] *)

Record csv_maps : Type := mkCsvMaps {
  c_parentCategoryMap : gmap string nat;
  c_subCategoryMap : gmap string nat;
  c_brandMap : gmap string nat;
  c_taxMap : gmap string nat;
  c_unitMap : gmap string nat
}.

Definition resolve_csv (user : jsval) (csvData : list obj) : M csv_maps :=
  let uniqueParentCategoryNames := unique_names "parent_category" csvData in
  let uniqueCategoryNames := unique_names "category" csvData in
  let uniqueBrandNames := unique_names "brand" csvData in
  let uniqueTaxNames := unique_names "tax" csvData in
  let uniqueUnitNames := unique_names "unit" csvData in
  let! allParentCategories := find Category uniqueParentCategoryNames in
  let! allSubCategories := find SubCategory uniqueCategoryNames in
  let! allBrands := find Brand uniqueBrandNames in
  let! allTaxes := find Tax uniqueTaxNames in
  let! allUnits := find Unit uniqueUnitNames in
  let! parentCategoryMap :=
    create_missing Category (slugged_doc user) uniqueParentCategoryNames
      (index_by_name allParentCategories) in
  let! subCategoryMap :=
    create_missing SubCategory
      (fun name => sub_doc user (parent_of "category" "parent_category" csvData parentCategoryMap name) name)
      uniqueCategoryNames (index_by_name allSubCategories) in
  let! brandMap :=
    create_missing Brand (slugged_doc user) uniqueBrandNames (index_by_name allBrands) in
  let! taxMap :=
    create_missing Tax (tax_doc user) uniqueTaxNames (index_by_name allTaxes) in
  let! unitMap :=
    create_missing Unit (unit_doc user) uniqueUnitNames (index_by_name allUnits) in
  ret (mkCsvMaps parentCategoryMap subCategoryMap brandMap taxMap unitMap).

(** [generateSlug(v)] on an arbitrary value: only a string has [trim]. *)
Definition generateSlug_of (v : jsval) : result string :=
  match v with
  | VStr s => Ok (generateSlug s)
  | _ => Thrown "name.trim is not a function"
  end.

(** [slug || generateSlug(name || "")]; the call is made only when [slug]
    is falsy. *)
Definition slug_or_generated (slug name : jsval) : result jsval :=
  if truthy slug then Ok slug
  else match generateSlug_of (js_or name (VStr "")) with
       | Ok s => Ok (VStr s)
       | Thrown msg => Thrown msg
       end.

(** [v === "true" || v === true] *)
Definition is_true_flag (v : jsval) : bool :=
  is_str "true" v || match v with VBool true => true | _ => false end.

(** [v ? String(v).split(",").map((t) => t.trim()) : []] *)
Definition trimmed_comma_list (v : jsval) : jsval :=
  if truthy v then VArr (map (fun t => VStr (trim t)) (split_comma (js_String v))) else VArr [].

(** The object pushed to [previewProducts] by the CSV route, given its
    slug. *)
Definition csv_candidate (maps : csv_maps) (row : obj) (slug : jsval) : obj :=
  let parentCategoryId := map_get (c_parentCategoryMap maps) (norm_key (obj_get "parent_category" row)) in
  let subCategoryId := dim_get (c_subCategoryMap maps) (obj_get "category" row) in
  let brandId := dim_get (c_brandMap maps) (obj_get "brand" row) in
  let taxId := dim_get (c_taxMap maps) (obj_get "tax" row) in
  let unitId := dim_get (c_unitMap maps) (obj_get "unit" row) in
  let stockStatus := canon_stock (obj_get "stockStatus" row) in
  [ ("name", js_or (obj_get "name" row) (VStr ""));
    ("slug", slug);
    ("sku", js_or (obj_get "sku" row) (VStr ""));
    ("barcode", js_or (obj_get "barcode" row) (VStr ""));
    ("parentCategory", parentCategoryId);
    ("category", subCategoryId);
    ("brand", brandId);
    ("buyingPrice", js_or (parseFloat (obj_get "buyingPrice" row)) (VNum 0));
    ("price", js_or (parseFloat (obj_get "price" row)) (VNum 0));
    ("offerPrice", js_or (parseFloat (obj_get "offerPrice" row)) (VNum 0));
    ("discount", js_or (parseFloat (obj_get "discount" row)) (VNum 0));
    ("tax", taxId);
    ("stockStatus", stockStatus);
    ("showStockOut", VBool (is_true_flag (obj_get "showStockOut" row)));
    ("canPurchase", VBool (is_true_flag (obj_get "canPurchase" row)));
    ("refundable", VBool (is_true_flag (obj_get "refundable" row)));
    ("maxPurchaseQty", js_or (parseInt (obj_get "maxPurchaseQty" row)) (VNum 10));
    ("lowStockWarning", js_or (parseInt (obj_get "lowStockWarning" row)) (VNum 5));
    ("unit", unitId);
    ("weight", js_or (parseFloat (obj_get "weight" row)) (VNum 0));
    ("tags", trimmed_comma_list (obj_get "tags" row));
    ("description", js_or (obj_get "description" row) (VStr ""));
    ("shortDescription", js_or (obj_get "shortDescription" row) (VStr ""));
    ("specifications",
      if truthy (obj_get "specifications" row)
      then VArr [VObj [("key", VStr "Specifications"); ("value", obj_get "specifications" row)]]
      else VArr []);
    ("details", js_or (obj_get "details" row) (VStr ""));
    ("countInStock", js_or (parseInt (obj_get "countInStock" row)) (VNum 0));
    ("isActive", VBool true);
    ("featured", VBool false) ].

(** The body of the CSV row loop. Building a candidate throws when the
    slug has to be generated from a name that is no string. *)
Definition csv_row (maps : csv_maps) (existingNames existingSlugs : list jsval)
    (row : obj) : result verdict :=
  if all_falsy row then Ok (Rejected "Empty row")
  else if negb (truthy (obj_get "name" row)) || negb (truthy (obj_get "parent_category" row))
  then Ok (Rejected "Missing required fields (name, parent_category)")
  else if is_duplicate existingNames existingSlugs row
  then Ok (Rejected "Duplicate product name or slug")
  else
    match slug_or_generated (obj_get "slug" row) (obj_get "name" row) with
    | Ok slug => Ok (Accepted (csv_candidate maps row slug))
    | Thrown msg => Thrown msg
    end.

Definition populate_csv (prod : obj) : M obj :=
  let! populated := populate_field Category "parentCategory" prod prod in
  let! populated := populate_field SubCategory "category" prod populated in
  populate_field Brand "brand" prod populated.

(** The handler, from the array [csvData] of the request body on. *)
Definition bulk_preview_csv (user : jsval) (csvData : list obj) : M preview_response :=
  let! maps := resolve_csv user csvData in
  let names := truthy_column "name" csvData in
  let slugs := truthy_column "slug" csvData in
  let! existingProducts := find_products names slugs in
  let existingNames := map (obj_get "name") existingProducts in
  let existingSlugs := map (obj_get "slug") existingProducts in
  let! lists := lift (row_loop (csv_row maps existingNames existingSlugs) 0 csvData ([], [])) in
  let '(previewProducts, invalidRows) := lists in
  let! populatedPreviewProducts := mapM populate_csv previewProducts in
  ret (mkPreview populatedPreviewProducts invalidRows
                 (length csvData) (length previewProducts) (length invalidRows)).

(** *** Saving, [POST /bulk-save] *)

(** An entry of [results]: [{ index, status, reason?, product }]. *)
Record save_result : Type := mkResult {
  sr_index : nat;
  sr_status : string;
  sr_reason : option string;
  sr_product : obj
}.

Definition failed_result (i : nat) (reason : string) (prod : obj) : save_result :=
  mkResult i "failed" (Some reason) prod.

(** The argument of [new Product({...})] in the save loop, given its
    slug. *)
Definition save_fields (user : jsval) (prod : obj) (slug : jsval) : obj :=
  let stockStatus := canon_stock (obj_get "stockStatus" prod) in
  [ ("name", js_or (obj_get "name" prod) (VStr ""));
    ("slug", slug);
    ("sku", js_or (obj_get "sku" prod) (VStr ""));
    ("barcode", js_or (obj_get "barcode" prod) (VStr ""));
    ("parentCategory", obj_get "parentCategory" prod);
    ("category", obj_get "category" prod);
    ("subCategory", obj_get "category" prod);
    ("brand", obj_get "brand" prod);
    ("buyingPrice", js_or (obj_get "buyingPrice" prod) (VNum 0));
    ("price", js_or (obj_get "price" prod) (VNum 0));
    ("offerPrice", js_or (obj_get "offerPrice" prod) (VNum 0));
    ("discount", js_or (obj_get "discount" prod) (VNum 0));
    ("tax", obj_get "tax" prod);
    ("stockStatus", stockStatus);
    ("showStockOut", bool_default true (obj_get "showStockOut" prod));
    ("canPurchase", bool_default true (obj_get "canPurchase" prod));
    ("refundable", bool_default true (obj_get "refundable" prod));
    ("maxPurchaseQty", js_or (obj_get "maxPurchaseQty" prod) (VNum 10));
    ("lowStockWarning", js_or (obj_get "lowStockWarning" prod) (VNum 5));
    ("unit", obj_get "unit" prod);
    ("weight", js_or (obj_get "weight" prod) (VNum 0));
    ("tags", js_or (obj_get "tags" prod) (VArr []));
    ("description", js_or (obj_get "description" prod) (VStr ""));
    ("shortDescription", js_or (obj_get "shortDescription" prod) (VStr ""));
    ("specifications", js_or (obj_get "specifications" prod) (VArr []));
    ("countInStock", js_or (obj_get "countInStock" prod) (VNum 0));
    ("isActive", bool_default true (obj_get "isActive" prod));
    ("featured", bool_default false (obj_get "featured" prod));
    ("createdBy", user) ].

(** The state of the save loop: [results], [success], [failed]. *)
Record save_acc : Type := mkAcc {
  acc_results : list save_result;
  acc_success : nat;
  acc_failed : nat
}.

Definition push_failed (acc : save_acc) (i : nat) (reason : string) (prod : obj) : save_acc :=
  mkAcc (acc_results acc ++ [failed_result i reason prod])%list (acc_success acc) (S (acc_failed acc)).

Definition push_success (acc : save_acc) (i : nat) (product : obj) : save_acc :=
  mkAcc (acc_results acc ++ [mkResult i "success" None product])%list (S (acc_success acc)) (acc_failed acc).

(** The [try] block of one turn of the save loop. Nothing in it throws
    after a push. *)
Definition save_try (user : jsval) (i : nat) (prod : obj) (acc : save_acc) : M save_acc :=
  if all_falsy prod then ret (push_failed acc i "Empty row" prod)
  else
    let! existing := findOne_product (obj_get "name" prod) (obj_get "slug" prod) in
    match existing with
    | Some _ => ret (push_failed acc i "Duplicate product name or slug" prod)
    | None =>
        if negb (truthy (obj_get "name" prod)) || negb (truthy (obj_get "parentCategory" prod))
        then ret (push_failed acc i "Missing required fields" prod)
        else
          let! slug := lift (slug_or_generated (obj_get "slug" prod) (obj_get "name" prod)) in
          let! product := save_product (save_fields user prod slug) in
          ret (push_success acc i product)
    end.

(** One turn: the [try] block and its [catch]. *)
Definition save_turn (user : jsval) (i : nat) (prod : obj) (acc : save_acc) : M save_acc :=
  try_catch (save_try user i prod acc) (fun msg => ret (push_failed acc i msg prod)).

(** [for (const [i, prod] of products.entries())] *)
Fixpoint save_loop (user : jsval) (i : nat) (products : list obj) (acc : save_acc) : M save_acc :=
  match products with
  | [] => ret acc
  | prod :: rest =>
      let! acc' := save_turn user i prod acc in
      save_loop user (S i) rest acc'
  end.

(** The display pass over [results]: failed results are returned as they
    are, saved products get their references expanded. *)
Definition populate_result (r : save_result) : M save_result :=
  if String.eqb (sr_status r) "failed" then ret r
  else
    let prod := sr_product r in
    let! populated := populate_field Category "parentCategory" prod prod in
    let! populated := populate_field SubCategory "category" prod populated in
    let! populated := populate_field Brand "brand" prod populated in
    ret (mkResult (sr_index r) (sr_status r) (sr_reason r) populated).

Inductive save_reply : Type :=
| BadRequest (message : string)
| SaveReport (total success failed : nat) (results : list save_result).

(** The handler, from the array [products] of the request body on. *)
Definition bulk_save (user : jsval) (products : list obj) : M save_reply :=
  match products with
  | [] => ret (BadRequest "No products to save")
  | _ :: _ =>
      let! acc := save_loop user 0 products (mkAcc [] 0 0) in
      let! populatedResults := mapM populate_result (acc_results acc) in
      ret (SaveReport (length products) (acc_success acc) (acc_failed acc) populatedResults)
  end.

(** *** Creating one product, [POST /api/products] *)

(** The rest of a destructuring pattern: [o] without the keys [ks]. *)
Definition obj_without (ks : list string) (o : obj) : obj :=
  List.filter (fun kv => negb (existsb (String.eqb (fst kv)) ks)) o.

(** [Product.findOne({ slug })] *)
Definition findOne_slug (slug : jsval) : M (option obj) :=
  fun st => (st, Ok (List.find (fun p => mongo_eq slug (obj_get "slug" p)) (products st))).

Definition throw {A} (msg : string) : M A := fun st => (st, Thrown msg).

(** The argument of [new Product({...})] in the create route. *)
Definition create_fields (user : jsval) (body : obj) : obj :=
  let parentCategory := obj_get "parentCategory" body in
  let category := obj_get "category" body in
  let productData := obj_without ["parentCategory"; "category"] body in
  obj_set "createdBy" user
    (obj_set "subCategory" (js_or category VUndef)
       (obj_set "category" category
          (obj_set "parentCategory" parentCategory productData))).

(** The handler up to [product.save()]; its value is the stored document,
    which the reply then shows with its references expanded. *)
Definition create_product (user : jsval) (body : obj) : M obj :=
  let parentCategory := obj_get "parentCategory" body in
  let category := obj_get "category" body in
  let productData := obj_without ["parentCategory"; "category"] body in
  let! _ :=
    if truthy parentCategory then
      let! parentCategoryExists := findById Category parentCategory in
      match parentCategoryExists with
      | Some _ => ret tt
      | None => throw "Invalid parent category"
      end
    else throw "Parent category is required" in
  let! _ :=
    if truthy category then
      let! subCategoryExists := findById SubCategory category in
      match subCategoryExists with
      | Some _ => ret tt
      | None => throw "Invalid subcategory"
      end
    else ret tt in
  let! _ :=
    if truthy (obj_get "slug" productData) then
      let! existingProduct := findOne_slug (obj_get "slug" productData) in
      match existingProduct with
      | Some _ => throw "Product slug already exists"
      | None => ret tt
      end
    else ret tt in
  save_product (create_fields user body).

End Routes.

(** ** The routes on one stored product

    [GET /:id], [PUT /:id] and [DELETE /:id] of the same file. The route
    parameter is taken as a well-formed identifier. The replies of the
    first two show the document with its references expanded by the
    library; the handlers are modelled up to the document they show. *)

Section OneProduct.
Context {ext : Externals}.

(** The stored product carries the identifier [id]. *)
Definition has_id (id : nat) (p : obj) : bool := mongo_eq (VId id) (obj_get "_id" p).

(** [Product.findById(id)] *)
Definition findById_product (id : nat) : M (option obj) :=
  fun st => (st, Ok (List.find (has_id id) (products st))).

(** [a !== b] *)
Definition strict_ne (a b : jsval) : bool :=
  match a with
  | VNaN => true
  | _ => negb (same_value_zero a b)
  end.

(** [Product.findOne({ slug, _id: { $ne: id } })] *)
Definition findOne_other_slug (slug : jsval) (id : nat) : M (option obj) :=
  fun st =>
    (st, Ok (List.find (fun p => mongo_eq slug (obj_get "slug" p) && negb (has_id id p))
                       (products st))).

(** [Object.keys(updateData).forEach((key) => { product[key] = updateData[key] })] *)
Definition assign_all (updateData product : obj) : obj :=
  fold_left (fun p key => obj_set key (obj_get key updateData) p) (map fst updateData) product.

(** The found document after the assignments of the update route. *)
Definition update_fields (body product : obj) : obj :=
  let parentCategory := obj_get "parentCategory" body in
  let category := obj_get "category" body in
  let slug := obj_get "slug" body in
  let updateData := obj_without ["parentCategory"; "category"; "slug"] body in
  let product := assign_all updateData product in
  let product :=
    if truthy parentCategory then obj_set "parentCategory" parentCategory product else product in
  let product :=
    if truthy category
    then obj_set "subCategory" category (obj_set "category" category product)
    else product in
  if truthy slug then obj_set "slug" slug product else product.

(** The first element that passes [f] gives way to [doc]. *)
Fixpoint replace_first (f : obj -> bool) (doc : obj) (l : list obj) : list obj :=
  match l with
  | [] => []
  | p :: r => if f p then doc :: r else p :: replace_first f doc r
  end.

(** The first element that passes [f] goes. *)
Fixpoint remove_first (f : obj -> bool) (l : list obj) : list obj :=
  match l with
  | [] => []
  | p :: r => if f p then r else p :: remove_first f r
  end.

(** [product.save()] on the document found under [id]: validation, which
    sees the other stored documents, may throw; otherwise the document
    takes the place of its stored version. *)
Definition save_existing (id : nat) (doc : obj) : M obj :=
  fun st =>
    match product_rejects (List.filter (fun p => negb (has_id id p)) (products st)) doc with
    | Some msg => (st, Thrown msg)
    | None =>
        (mkStore (entities st) (replace_first (has_id id) doc (products st)) (next_id st), Ok doc)
    end.

(** [product.deleteOne()] on the document found under [id]. *)
Definition deleteOne (id : nat) : M unit :=
  fun st => (mkStore (entities st) (remove_first (has_id id) (products st)) (next_id st), Ok tt).

(** [GET /:id]: an inactive product is answered like a missing one. *)
Definition get_product (id : nat) : M obj :=
  let! product := findById_product id in
  match product with
  | Some product =>
      if truthy (obj_get "isActive" product) then ret product else throw "Product not found"
  | None => throw "Product not found"
  end.

(** [PUT /:id], up to [product.save()]. *)
Definition update_product (id : nat) (body : obj) : M obj :=
  let! product := findById_product id in
  match product with
  | Some product =>
      let parentCategory := obj_get "parentCategory" body in
      let category := obj_get "category" body in
      let slug := obj_get "slug" body in
      let! _ :=
        if truthy parentCategory then
          let! parentCategoryExists := findById Category parentCategory in
          match parentCategoryExists with
          | Some _ => ret tt
          | None => throw "Invalid parent category"
          end
        else ret tt in
      let! _ :=
        if truthy category then
          let! subCategoryExists := findById SubCategory category in
          match subCategoryExists with
          | Some _ => ret tt
          | None => throw "Invalid subcategory"
          end
        else ret tt in
      let! _ :=
        if truthy slug && strict_ne slug (obj_get "slug" product) then
          let! existingProduct := findOne_other_slug slug id in
          match existingProduct with
          | Some _ => throw "Product slug already exists"
          | None => ret tt
          end
        else ret tt in
      save_existing id (update_fields body product)
  | None => throw "Product not found"
  end.

(** [DELETE /:id] *)
Definition delete_product (id : nat) : M string :=
  let! product := findById_product id in
  match product with
  | Some _ =>
      let! _ := deleteOne id in
      ret "Product removed"
  | None => throw "Product not found"
  end.

End OneProduct.

(** ** Two concrete environments

    [integral] parses decimal integers, maps the letters A to Z to lower
    case and accepts every document; [sku_required] additionally refuses
    to save a product without an [sku]. The sample data below is
    written in ASCII. *)

Definition lower_ascii (c : ascii) : ascii :=
  let n := nat_of_ascii c in
  if ((65 <=? n) && (n <=? 90))%nat then ascii_of_nat (n + 32) else c.

Fixpoint lower_letters (s : string) : string :=
  match s with
  | String c r => String (lower_ascii c) (lower_letters r)
  | EmptyString => EmptyString
  end.

Definition digit_of (c : ascii) : option Z :=
  let n := nat_of_ascii c in
  if ((48 <=? n) && (n <=? 57))%nat then Some (Z.of_nat (n - 48)) else None.

Fixpoint digits_prefix (s : string) (acc : option Z) : option Z :=
  match s with
  | String c r =>
      match digit_of c with
      | Some d => digits_prefix r (Some (10 * default 0 acc + d))%Z
      | None => acc
      end
  | EmptyString => acc
  end.

Definition number_or_NaN (n : option Z) : jsval :=
  match n with
  | Some z => VNum z
  | None => VNaN
  end.

(** Leading white space, an optional sign, then decimal digits. *)
Definition parse_decimal (v : jsval) : jsval :=
  match trim_start (js_String v) with
  | String "-" r => number_or_NaN (Z.opp <$> digits_prefix r None)
  | String "+" r => number_or_NaN (digits_prefix r None)
  | t => number_or_NaN (digits_prefix t None)
  end.

Definition integral : Externals :=
  {| parseFloat := parse_decimal;
     parseInt := parse_decimal;
     toLowerCase := lower_letters;
     entity_rejects := fun _ _ _ => None;
     product_rejects := fun _ _ => None |}.

Definition sku_required : Externals :=
  {| parseFloat := parse_decimal;
     parseInt := parse_decimal;
     toLowerCase := lower_letters;
     entity_rejects := fun _ _ _ => None;
     product_rejects := fun _ fields =>
       if truthy (obj_get "sku" fields) then None
       else Some "Product validation failed: sku is required" |}.

(** A store with no documents. *)
Definition empty_store : store := mkStore (fun _ => []) [] 0.

(** A store holding one main category and one product. *)
Definition small_store : store :=
  mkStore (fun k => match k with
                    | Category => [mkEntity 0 [("name", VStr "Gadgets"); ("slug", VStr "gadgets")]]
                    | _ => []
                    end)
          [[("_id", VId 1); ("name", VStr "Widget"); ("slug", VStr "widget")]]
          2.

(** A sheet of three rows: a product, a row of unknown columns only, and
    an empty row. *)
Definition sample_sheet : list obj :=
  [ [("name", VStr "Widget Pro"); ("category", VStr "Gadgets"); ("selling_price", VNum 10)];
    [("Colour", VStr "red")];
    [("name", VStr "")] ].

(** CSV rows: a complete row, a row without parent category, a row
    naming the stored product, and a row without name. *)
Definition sample_csv : list obj :=
  [ [("name", VStr "Widget Pro"); ("parent_category", VStr "Gadgets"); ("category", VStr "Phones")];
    [("name", VStr "Widget Mini")];
    [("name", VStr "Widget"); ("parent_category", VStr "gadgets ")];
    [("parent_category", VStr "Gadgets"); ("price", VStr "12")] ].

(** Candidates sent to the save route. *)
Definition sample_products : list obj :=
  [ [("name", VStr "Widget Pro"); ("parentCategory", VId 0)];
    [("name", VStr "Widget Max"); ("parentCategory", VId 0); ("sku", VStr "WM-1")];
    [("name", VStr "Widget Pro"); ("parentCategory", VId 0); ("sku", VStr "WP-1")];
    [("name", VStr "Widget Pro"); ("parentCategory", VId 0); ("sku", VStr "WP-2")] ].

(** Two sheet rows, and two CSV rows, with one and the same new name. *)
Definition twice_named : list obj :=
  [ [("name", VStr "Widget Pro")]; [("name", VStr "Widget Pro")] ].

Definition twice_named_csv : list obj :=
  [ [("name", VStr "Widget Pro"); ("parent_category", VStr "Gadgets")];
    [("name", VStr "Widget Pro"); ("parent_category", VStr "Gadgets")] ].

(** A sheet row with a stock status outside the allowed ones. *)
Definition backordered_sheet : list obj :=
  [ [("name", VStr "Widget Pro"); ("status", VStr "Backordered")] ].

(** Rows naming dimensions in several spellings. *)
Definition dimension_sheet : list obj :=
  [ [("name", VStr "A"); ("category", VStr "Gadgets"); ("brand", VStr " Acme ")];
    [("name", VStr "B"); ("category", VStr "Phones"); ("brand", VStr "ACME")];
    [("name", VStr "C"); ("category", VStr "phones "); ("unit", VNum 12)] ].

(** ** Reading a report

    The vocabulary in which the properties below speak about the two
    arrays of a preview report and the results of a save. *)

(** The candidates of the accepted rows, in row order. *)
Fixpoint accepted_of (vs : list verdict) : list obj :=
  match vs with
  | Accepted c :: vs' => c :: accepted_of vs'
  | Rejected _ :: vs' => accepted_of vs'
  | [] => []
  end.

(** The entries of the rejected rows, in row order; [i] is the index of
    the first row. *)
Fixpoint rejected_from (i : nat) (rows : list obj) (vs : list verdict) : list invalid_row :=
  match rows, vs with
  | row :: rows', Rejected reason :: vs' =>
      mkInvalid (i + 2) reason row :: rejected_from (S i) rows' vs'
  | _ :: rows', Accepted _ :: vs' => rejected_from (S i) rows' vs'
  | _, _ => []
  end.

(** The rows that the report does not list as invalid, in row order: row
    [i] is listed under the number [i + 2]. [i] is the index of the
    first row. *)
Fixpoint kept_from (i : nat) (rows : list obj) (invalid : list invalid_row) : list obj :=
  match rows with
  | row :: rows' =>
      if existsb (λ r, Nat.eqb (ir_row r) (i + 2)) invalid
      then kept_from (S i) rows' invalid
      else row :: kept_from (S i) rows' invalid
  | [] => []
  end.

(** The rows of the accepted outcomes, in row order. *)
Fixpoint accepted_rows (rows : list obj) (vs : list verdict) : list obj :=
  match rows, vs with
  | row :: rows', Accepted _ :: vs' => row :: accepted_rows rows' vs'
  | _ :: rows', Rejected _ :: vs' => accepted_rows rows' vs'
  | _, _ => []
  end.

(** [shown] is [cand] up to the display of the reference fields [refs]. *)
Definition shown_as (refs : list string) (cand shown : obj) : Prop :=
  ∀ f, f ∉ refs → obj_get f shown = obj_get f cand.

(** [resp] reports the outcomes [vs] of [rows]: one outcome per row, the
    accepted ones in [previewProducts], the rejected ones in
    [invalidRows], both in row order. *)
Definition preview_report (refs : list string) (rows : list obj) (vs : list verdict)
    (resp : preview_response) : Prop :=
  length vs = length rows
  ∧ Forall2 (shown_as refs) (accepted_of vs) (pv_previewProducts resp)
  ∧ pv_invalidRows resp = rejected_from 0 rows vs.

(** Row numbers grow along [invalidRows]. *)
Definition rows_ascending (l : list invalid_row) : Prop :=
  ∀ j k a b, (j < k)%nat → l !! j = Some a → l !! k = Some b → (ir_row a < ir_row b)%nat.

Definition is_success (r : save_result) : bool := String.eqb (sr_status r) "success".
Definition is_failed (r : save_result) : bool := String.eqb (sr_status r) "failed".

(** The products a preview compares its rows with. *)
Definition existing_products (rows : list obj) (st : store) : list obj :=
  List.filter (fun p => existsb (fun q => mongo_eq q (obj_get "name" p)) (truthy_column "name" rows)
                        || existsb (fun q => mongo_eq q (obj_get "slug" p)) (truthy_column "slug" rows))
              (products st).

(** [shown] is the result [r] after the display pass. *)
Definition result_shown (r shown : save_result) : Prop :=
  sr_index shown = sr_index r ∧ sr_status shown = sr_status r ∧ sr_reason shown = sr_reason r
  ∧ shown_as ["parentCategory"; "category"; "brand"] (sr_product r) (sr_product shown)
  ∧ (is_failed r = true → sr_product shown = sr_product r).

(** The store after a successful [save_product fields]. *)
Definition store_with (st : store) (fields : obj) : store :=
  mkStore (entities st) (products st ++ [("_id", VId (next_id st)) :: fields])%list (S (next_id st)).

(** [acc'] is [acc] after the results [new] were pushed. *)
Definition counts_ok (acc acc' : save_acc) (new : list save_result) : Prop :=
  acc_results acc' = (acc_results acc ++ new)%list
  ∧ acc_success acc' = (acc_success acc + length (List.filter is_success new))%nat
  ∧ acc_failed acc' = (acc_failed acc + length (List.filter is_failed new))%nat.

(** One outcome for every row of a preview: the counts add up, the
    rejected rows come in row order, and an entry numbered [i + 2] is
    about row [i]. *)
Definition preview_partition (refs : list string) (rows : list obj)
    (resp : preview_response) : Prop :=
  pv_valid resp = length (pv_previewProducts resp)
  ∧ pv_invalid resp = length (pv_invalidRows resp)
  ∧ (pv_valid resp + pv_invalid resp)%nat = pv_total resp
  ∧ pv_total resp = length rows
  ∧ rows_ascending (pv_invalidRows resp)
  ∧ ∃ vs, preview_report refs rows vs resp
          ∧ ∀ k r, pv_invalidRows resp !! k = Some r →
              ∃ i, ir_row r = (i + 2)%nat ∧ rows !! i = Some (ir_data r)
                   ∧ vs !! i = Some (Rejected (ir_reason r)).

(** One result for every product of a save: result [i] is about product
    [i], it is a success or a failure, and the two counters count them. *)
Definition save_partition (prods : list obj) (success failed : nat)
    (results : list save_result) : Prop :=
  length results = length prods
  ∧ (success + failed)%nat = length prods
  ∧ success = length (List.filter is_success results)
  ∧ failed = length (List.filter is_failed results)
  ∧ ∀ i r, results !! i = Some r →
      sr_index r = i
      ∧ (is_success r = true ∧ is_failed r = false
         ∨ is_failed r = true ∧ is_success r = false ∧ prods !! i = Some (sr_product r)).

(** The reason the CSV preview gives for turning away a row without
    name. *)
Definition nameless_reason (row : obj) : string :=
  if all_falsy row then "Empty row" else "Missing required fields (name, parent_category)".

(** Every value under a recognised column of the raw row is falsy. *)
Definition recognised_blank (row : obj) : bool :=
  forallb (fun kv => match excelToBackendKey (trim kv.1) with
                     | Some _ => negb (truthy kv.2)
                     | None => true
                     end) row.

(** Some unrecognised column of the raw row holds a value that
    [remapRow] turns into a specification entry. *)
Definition has_specification (row : obj) : bool :=
  existsb (fun kv => match excelToBackendKey (trim kv.1) with
                     | Some _ => false
                     | None => spec_worthy kv.2
                     end) row.

(** The stored product [p] answers the duplicate query of the save
    route for [prod]. *)
Definition matches (prod p : obj) : bool :=
  mongo_eq (obj_get "name" prod) (obj_get "name" p)
  || mongo_eq (obj_get "slug" prod) (obj_get "slug" p).

(** The duplicate test of a preview against the store [st]. *)
Definition duplicate_in (rows : list obj) (st : store) (row : obj) : bool :=
  is_duplicate (map (obj_get "name") (existing_products rows st))
               (map (obj_get "slug") (existing_products rows st)) row.

(** No stored product has the name or the slug of [row]. *)
Definition fresh_in (st : store) (row : obj) : bool :=
  forallb (fun p => negb (same_value_zero (obj_get "name" row) (obj_get "name" p))
                    && negb (same_value_zero (obj_get "slug" row) (obj_get "slug" p)))
          (products st).




(** The dimension kinds of the two previews: the row field that names
    the dimension and the map that resolves it. *)
Definition excel_dimensions : list (string * (excel_maps → gmap string nat)) :=
  [ ("category", x_categoryMap); ("brand", x_brandMap); ("subCategory", x_subCategoryMap);
    ("tax", x_taxMap); ("unit", x_unitMap); ("color", x_colorMap);
    ("warranty", x_warrantyMap); ("size", x_sizeMap); ("volume", x_volumeMap) ].

Definition csv_dimensions : list (string * (csv_maps → gmap string nat)) :=
  [ ("parent_category", c_parentCategoryMap); ("category", c_subCategoryMap);
    ("brand", c_brandMap); ("tax", c_taxMap); ("unit", c_unitMap) ].

(** Rows [rows] are resolved by [m] under [field]: every name has an
    identifier, and names with one normal form share it. *)
Definition resolves {ext : Externals} (field : string) (rows : list obj)
    (m : gmap string nat) : Prop :=
  ∀ row, row ∈ rows → truthy (obj_get field row) = true →
    ∃ id, m !! norm_key (obj_get field row) = Some id
          ∧ ∀ row2, row2 ∈ rows → truthy (obj_get field row2) = true →
              norm_key (obj_get field row2) = norm_key (obj_get field row) →
              dim_get m (obj_get field row2) = VId id.

(** A slug can be had for the row: it brings one, or its name is a
    string, or it has no name. *)
Definition sluggable (row : obj) : bool :=
  truthy (obj_get "slug" row)
  || match obj_get "name" row with
     | VStr _ => true
     | v => negb (truthy v)
     end.

(** ** Vocabulary of the further properties *)

(** A white-space character starts somewhere in [s]. *)
Fixpoint has_space (s : string) : bool :=
  match s with
  | String c r => negb (Nat.eqb (space_len s) 0) || has_space r
  | EmptyString => false
  end.

(** No white space at either end. *)
Definition trimmed (s : string) : Prop := trim s = s.

(** [parts.join(",")] *)
Fixpoint join_comma (parts : list string) : string :=
  match parts with
  | [] => ""
  | [x] => x
  | x :: r => x ++ "," ++ join_comma r
  end.

(** [Object.keys(o)] *)
Definition obj_keys (o : obj) : list string := map fst o.



(** The documents of kind [k] that [st'] has and [st] has not: [st']
    keeps every document of [st] and appends [created]; the other kinds
    and the products are the same. *)
Definition appends (k : kind) (created : list entity) (st st' : store) : Prop :=
  entities st' k = (entities st k ++ created)%list
  ∧ (∀ k', k' ≠ k → entities st' k' = entities st k')
  ∧ products st' = products st.

(** [String(doc.name).trim().toLowerCase()] of a stored document. *)
Definition ent_key {ext : Externals} (e : entity) : string :=
  toLowerCase (trim (ent_name e)).

(** The stored documents whose name is one of [names]: what
    [Model.find({ name: { $in: names } })] returns. *)
Definition named_among (names : list string) (l : list entity) : list entity :=
  List.filter (fun e => bool_decide (ent_name e ∈ names)) l.

(** The documents [created] are new to the collection [old]: their
    names are trimmed, differ from each other whatever the case of the
    letters, and none is the name of a document of [old]. *)
Definition fresh_docs {ext : Externals} (old created : list entity) : Prop :=
  NoDup (map ent_key created)
  ∧ Forall (λ e, trimmed (ent_name e) ∧ ∀ e0, e0 ∈ old → ent_name e0 ≠ ent_name e) created.

(** From [st] to [st'] nothing was written but new dimension documents
    of the kinds [ks]: the products are the same, every collection keeps
    its documents in place, and what follows them is new to it. *)
Definition writes {ext : Externals} (ks : list kind) (st st' : store) : Prop :=
  products st' = products st
  ∧ ∀ k, ∃ created,
      entities st' k = (entities st k ++ created)%list
      ∧ (k ∉ ks → created = [])
      ∧ fresh_docs (entities st k) created.

(** What every document stored by the save route has: the saving user as
    its creator, a truthy name and parent category, and truthy purchase
    and stock-warning limits. *)
Definition saved_doc (user : jsval) (d : obj) : Prop :=
  obj_get "createdBy" d = user
  ∧ truthy (obj_get "name" d) = true
  ∧ truthy (obj_get "parentCategory" d) = true
  ∧ truthy (obj_get "maxPurchaseQty" d) = true
  ∧ truthy (obj_get "lowStockWarning" d) = true.

(** The reasons the save route gives for a product it did not try to
    store. *)
Definition refused_unsaved (r : save_result) : Prop :=
  is_failed r = true
  ∧ (sr_reason r = Some "Duplicate product name or slug"
     ∨ sr_reason r = Some "Missing required fields").

(** [id] names at most one stored product. *)
Definition names_one (id : nat) (st : store) : Prop :=
  (length (List.filter (has_id id) (products st)) ≤ 1)%nat.

(** [l'] is [l] with the first product of identifier [id], [old],
    replaced by the products [new]. *)
Definition swaps (id : nat) (old : obj) (new l l' : list obj) : Prop :=
  ∃ l1 l2, l = (l1 ++ old :: l2)%list ∧ l' = (l1 ++ new ++ l2)%list
           ∧ has_id id old = true ∧ ∀ p, p ∈ l1 → has_id id p = false.

(** The subcategory [e] has no parent, or a category stored in [st] as
    its parent. *)
Definition parent_stored (st : store) (e : entity) : Prop :=
  obj_get "category" (ent_doc e) = VUndef
  ∨ ∃ c, c ∈ entities st Category ∧ obj_get "category" (ent_doc e) = VId (ent_id c).

(** No comma in [s]. *)
Fixpoint comma_free (s : string) : bool :=
  match s with
  | String c r => negb (Ascii.eqb c ",") && comma_free r
  | EmptyString => true
  end.

(** [parts] are the pieces of [text] between its commas: they contain
    no comma, and joined by commas they give [text]. *)
Definition comma_pieces (text : string) (parts : list string) : Prop :=
  parts ≠ [] ∧ Forall (λ part, comma_free part = true) parts ∧ join_comma parts = text.

(** A cell that is neither an array nor an object nor an identifier:
    [undefined], [null], a boolean, a number or a string. *)
Definition primitive (v : jsval) : bool :=
  match v with
  | VArr _ | VObj _ | VId _ => false
  | _ => true
  end.

(** The backend fields the column table lists. *)
Definition backend_fields : list string :=
  [ "name"; "slug"; "sku"; "category"; "parent_category"; "barcode"; "buyingPrice";
    "price"; "offerPrice"; "tax"; "brand"; "stockStatus"; "showStockOut"; "canPurchase";
    "refundable"; "maxPurchaseQty"; "lowStockWarning"; "unit"; "weight"; "tags";
    "description"; "discount"; "specifications"; "details"; "shortDescription";
    "subCategory"; "warranty"; "size"; "volume" ].

(** * Properties *)

(** ** Objects and strings *)

Lemma obj_get_set_eq k v o : obj_get k (obj_set k v o) = v.
Proof.
  induction o as [|[k' v'] o IH]; simpl.
  - by rewrite String.eqb_refl.
  - destruct (String.eqb k k') eqn:E; simpl; by rewrite ?String.eqb_refl, ?E.
Qed.

Lemma obj_get_set_ne k k' v o : k ≠ k' → obj_get k (obj_set k' v o) = obj_get k o.
Proof.
  intros Hne. induction o as [|[k0 v0] o IH]; simpl.
  - by apply String.eqb_neq in Hne as ->.
  - destruct (String.eqb k' k0) eqn:E; simpl.
    + apply String.eqb_eq in E as <-. by apply String.eqb_neq in Hne as ->.
    + by rewrite IH.
Qed.

Lemma obj_get_without_ne k ks o :
  existsb (String.eqb k) ks = false → obj_get k (obj_without ks o) = obj_get k o.
Proof.
  intros Hk. unfold obj_without. induction o as [|[k0 v0] o IH]; simpl; [done|].
  destruct (String.eqb k k0) eqn:E.
  - apply String.eqb_eq in E as <-. rewrite Hk. simpl. by rewrite String.eqb_refl.
  - destruct (negb _); simpl; by rewrite ?E.
Qed.

Lemma all_falsy_set k v o : truthy v = false → all_falsy o = true → all_falsy (obj_set k v o) = true.
Proof.
  unfold all_falsy, obj_values. intros Hv. induction o as [|[k' v'] o IH]; simpl.
  - by rewrite Hv.
  - intros [H1 H2]%andb_prop. destruct (String.eqb k k'); simpl.
    + by rewrite Hv, H2.
    + by rewrite H1, IH.
Qed.

Lemma all_falsy_set_truthy k v o : truthy v = true → all_falsy (obj_set k v o) = false.
Proof.
  unfold all_falsy, obj_values. intros Hv. induction o as [|[k' v'] o IH]; simpl.
  - by rewrite Hv.
  - destruct (String.eqb k k'); simpl.
    + by rewrite Hv.
    + rewrite IH. apply andb_false_r.
Qed.

Lemma all_falsy_get k o : all_falsy o = true → truthy (obj_get k o) = false.
Proof.
  unfold all_falsy, obj_values. induction o as [|[k' v'] o IH]; simpl; [done|].
  intros [H1 H2]%andb_prop. destruct (String.eqb k k'); [|by apply IH].
  by apply negb_true_iff.
Qed.

Arguments space_len : simpl never.

Lemma app_cons c s w : String c s ++ w = String c (s ++ w).
Proof. reflexivity. Qed.

Lemma space_len_le s : (space_len s ≤ String.length s)%nat.
Proof.
  destruct s as [|c [|d [|f r]]]; unfold space_len; simpl; repeat case_match; lia.
Qed.

Lemma space_len_app p w k : space_len p = S k → space_len (p ++ w) = S k.
Proof.
  destruct p as [|c [|d [|f r]]]; rewrite ?app_cons; change ("" ++ w) with w;
    unfold space_len; try done.
  - destruct (space1 c); done.
  - destruct (space1 c); [done|]. destruct (space2 c d); done.
Qed.

Lemma skip_len s : ∀ k, (String.length (skip_spaces k s) ≤ String.length s)%nat.
Proof.
  induction s as [|c r IH]; intros k; [done|].
  cbn [skip_spaces]. change (String.length (String c r)) with (S (String.length r)).
  destruct k as [|k]; [|specialize (IH k); lia].
  destruct (space_len (String c r)) as [|j].
  - change (String.length (String c r)) with (S (String.length r)). lia.
  - specialize (IH j). lia.
Qed.

Lemma skip_app p : ∀ k w,
  (k ≤ String.length p)%nat → skip_spaces k p = "" → skip_spaces k (p ++ w) = skip_spaces 0 w.
Proof.
  induction p as [|c p IH]; intros k w Hk Hp.
  - simpl in Hk. by replace k with 0%nat by lia.
  - rewrite app_cons. simpl in Hk, Hp. cbn [skip_spaces]. destruct k as [|k].
    + destruct (space_len (String c p)) as [|j] eqn:Hj; [done|].
      pose proof (space_len_le (String c p)) as Hle. rewrite Hj in Hle. simpl in Hle.
      rewrite <- app_cons, (space_len_app _ w _ Hj). apply IH; [lia|done].
    + apply IH; [lia|done].
Qed.

Lemma trim_start_idem s : trim_start (trim_start s) = trim_start s.
Proof.
  unfold trim_start. generalize 0%nat at 2 3.
  induction s as [|c r IH]; intros k; simpl; [done|].
  destruct k as [|k]; [|apply IH].
  destruct (space_len (String c r)) as [|j] eqn:Hj; [|apply IH].
  simpl. by rewrite Hj.
Qed.

Lemma trim_start_fixed s : trim_start s = s ↔ s = "" ∨ space_len s = 0%nat.
Proof.
  split.
  - destruct s as [|c r]; [by left|]. intros Hs. right.
    destruct (space_len (String c r)) as [|j] eqn:Hj; [done|].
    unfold trim_start in Hs. simpl in Hs. rewrite Hj in Hs.
    pose proof (skip_len r j) as Hlen. rewrite Hs in Hlen. simpl in Hlen. lia.
  - intros [->|Hs]; [done|]. destruct s as [|c r]; [done|].
    unfold trim_start. simpl. by rewrite Hs.
Qed.

Lemma trim_end_split s : ∃ w, s = trim_end s ++ w ∧ trim_start w = "".
Proof.
  induction s as [|c r (w & IH & Hw)]; [by exists ""|]. simpl.
  destruct (trim_start (String c r)) eqn:Hs.
  - by exists (String c r).
  - exists w. by rewrite app_cons, <- IH.
Qed.

Lemma trim_end_idem s : trim_end (trim_end s) = trim_end s.
Proof.
  induction s as [|c r IH]; [done|]. simpl.
  destruct (trim_start (String c r)) as [|a t] eqn:Hs; [done|].
  simpl. rewrite IH.
  destruct (trim_start (String c (trim_end r))) eqn:Hs'; [|done].
  destruct (trim_end_split r) as (w & Hr & Hw).
  assert (trim_start (String c r) = "") as Hall.
  { rewrite Hr at 1. rewrite <- app_cons. unfold trim_start.
    rewrite skip_app; [done|lia|done]. }
  congruence.
Qed.

Lemma trim_idem s : trim (trim s) = trim s.
Proof.
  unfold trim.
  assert (trim_start (trim_end (trim_start s)) = trim_end (trim_start s)) as ->;
    [|apply trim_end_idem].
  pose proof (trim_start_idem s) as Hfix. apply trim_start_fixed in Hfix.
  destruct (trim_start s) as [|c r] eqn:Ht; [done|]. destruct Hfix as [|Hfix]; [done|].
  apply trim_start_fixed.
  destruct (trim_end (String c r)) as [|c' r'] eqn:He; [by left|]. right.
  destruct (trim_end_split (String c r)) as (w & Hr & Hw). rewrite He in Hr.
  destruct (space_len (String c' r')) as [|j] eqn:Hj; [done|].
  apply (space_len_app _ w) in Hj. rewrite <- Hr in Hj. congruence.
Qed.

(** ** The monad *)

Lemma bind_ok {A B} (c : M A) (k : A → M B) st st' b :
  bind c k st = (st', Ok b) → ∃ st1 a, c st = (st1, Ok a) ∧ k a st1 = (st', Ok b).
Proof. unfold bind. destruct (c st) as [st1 [a|msg]]; [eauto|done]. Qed.

Lemma bind_run {A B} (c : M A) (k : A → M B) st st1 a :
  c st = (st1, Ok a) → bind c k st = k a st1.
Proof. unfold bind. by intros ->. Qed.

Lemma mapM_pure {A B} (f : A → M B) (g : A → B) l st :
  (∀ a st, f a st = (st, Ok (g a))) → mapM f l st = (st, Ok (map g l)).
Proof.
  intros Hf. induction l as [|a l IH]; simpl; [done|].
  rewrite (bind_run _ _ _ _ _ (Hf a st)), (bind_run _ _ _ _ _ IH). done.
Qed.

(** ** The preview row loop *)

Lemma row_loop_spec body i rows lists out :
  row_loop body i rows lists = Ok out →
  ∃ vs, Forall2 (λ row v, body row = Ok v) rows vs
        ∧ out = ((lists.1 ++ accepted_of vs)%list, (lists.2 ++ rejected_from i rows vs)%list).
Proof.
  revert i lists. induction rows as [|row rows IH]; intros i [pp inv]; simpl.
  - intros [= <-]. exists []. by rewrite !app_nil_r.
  - destruct (body row) as [v|msg] eqn:Hb; [|done].
    intros (vs & Hvs & ->)%IH. exists (v :: vs). split; [by constructor|].
    destruct v; simpl; by rewrite <- !app_assoc.
Qed.

Lemma outcome_count rows vs i :
  length vs = length rows →
  (length (accepted_of vs) + length (rejected_from i rows vs))%nat = length rows.
Proof.
  revert vs i. induction rows as [|row rows IH]; intros [|[c|reason] vs] i; simpl; try done.
  - intros [= Hl]. by rewrite (IH vs (S i) Hl).
  - intros [= Hl]. rewrite <- (IH vs (S i) Hl). lia.
Qed.

Lemma rejected_from_lookup rows vs i k r :
  rejected_from i rows vs !! k = Some r →
  ∃ j, ir_row r = (i + j + 2)%nat ∧ (k ≤ j)%nat ∧ rows !! j = Some (ir_data r)
       ∧ vs !! j = Some (Rejected (ir_reason r)).
Proof.
  revert vs i k. induction rows as [|row rows IH]; intros [|[c|reason] vs] i k; simpl; try done.
  - intros (j & ? & ? & ? & ?)%IH. exists (S j). repeat split; [lia|lia|done|done].
  - destruct k as [|k]; simpl.
    + intros [= <-]. exists 0%nat. simpl. repeat split; [lia|lia].
    + intros (j & ? & ? & ? & ?)%IH. exists (S j). repeat split; [lia|lia|done|done].
Qed.

Lemma rejected_from_ascending rows vs i : rows_ascending (rejected_from i rows vs).
Proof.
  unfold rows_ascending.
  revert vs i. induction rows as [|row rows IH]; intros [|[c|reason] vs] i j k a b Hjk; simpl; try done.
  - by apply IH.
  - destruct k as [|k]; [lia|]. destruct j as [|j]; simpl.
    + intros [= <-] (n & -> & _)%rejected_from_lookup. simpl. lia.
    + apply IH. lia.
Qed.

Lemma rejected_from_elem rows vs i j row reason :
  rows !! j = Some row → vs !! j = Some (Rejected reason) →
  mkInvalid (i + j + 2) reason row ∈ rejected_from i rows vs.
Proof.
  revert vs i j. induction rows as [|row0 rows IH]; intros [|v vs] i [|j]; simpl; try done.
  - intros [= ->] [= ->]. rewrite Nat.add_0_r. apply list_elem_of_here.
  - intros Hr Hv. specialize (IH vs (S i) j Hr Hv).
    replace (i + S j + 2)%nat with (S i + j + 2)%nat by lia.
    destruct v; [done|]. by apply list_elem_of_further.
Qed.

Lemma rejected_from_accepted rows vs i j c r :
  vs !! j = Some (Accepted c) → r ∈ rejected_from i rows vs → ir_row r ≠ (i + j + 2)%nat.
Proof.
  revert vs i j. induction rows as [|row0 rows IH]; intros [|v vs] i [|j]; simpl; try (by inversion 2).
  - intros [= ->] (k & Hk)%list_elem_of_lookup.
    apply rejected_from_lookup in Hk as (n & -> & _). lia.
  - intros Hv Hin.
    assert (r ∈ rejected_from (S i) rows vs → ir_row r ≠ (i + S j + 2)%nat) as Hrec.
    { intros Hr. specialize (IH vs (S i) j Hv Hr). lia. }
    destruct v; [by apply Hrec|].
    apply elem_of_cons in Hin as [->|Hin]; [simpl; lia|by apply Hrec].
Qed.

(** Opens the first [bind] of a completed run. *)
Tactic Notation "step_bind" hyp(H) "as" ident(H1) :=
  let st := fresh "st" in let a := fresh "a" in
  apply bind_ok in H as (st & a & H1 & H).

Section RouteFacts.
Context {ext : Externals}.

Lemma mapM_rel {A B} (f : A → M B) (R : A → B → Prop) l st :
  (∀ a st, ∃ b, f a st = (st, Ok b) ∧ R a b) →
  ∃ bs, mapM f l st = (st, Ok bs) ∧ Forall2 R l bs.
Proof.
  intros Hf. induction l as [|a l (bs & IH & HR)]; simpl.
  - exists []. by split.
  - destruct (Hf a st) as (b & Hb & Hab). exists (b :: bs).
    rewrite (bind_run _ _ _ _ _ Hb), (bind_run _ _ _ _ _ IH). split; [done|by constructor].
Qed.

Lemma populate_field_run k field prod populated st :
  ∃ populated', populate_field k field prod populated st = (st, Ok populated')
                ∧ ∀ f, f ≠ field → obj_get f populated' = obj_get f populated.
Proof.
  unfold populate_field. destruct (truthy _); [|by eexists].
  unfold bind, findById. destruct (obj_get field prod); try by eexists.
  destruct (List.find _ _); eexists; (split; [done|]); [|done].
  intros f Hf. by apply obj_get_set_ne.
Qed.

Lemma populate_three k1 f1 k2 f2 k3 f3 prod st :
  ∃ shown,
    (let! populated := populate_field k1 f1 prod prod in
     let! populated := populate_field k2 f2 prod populated in
     populate_field k3 f3 prod populated) st = (st, Ok shown)
    ∧ shown_as [f1; f2; f3] prod shown.
Proof.
  destruct (populate_field_run k1 f1 prod prod st) as (p1 & H1 & G1).
  destruct (populate_field_run k2 f2 prod p1 st) as (p2 & H2 & G2).
  destruct (populate_field_run k3 f3 prod p2 st) as (p3 & H3 & G3).
  exists p3. rewrite (bind_run _ _ _ _ _ H1), (bind_run _ _ _ _ _ H2). split; [done|].
  intros f Hf. rewrite G3, G2, G1; [done|..]; intros ->; apply Hf; set_solver.
Qed.

Lemma populate_excel_run prod st :
  ∃ shown, populate_excel prod st = (st, Ok shown)
           ∧ shown_as ["category"; "subCategory"; "brand"] prod shown.
Proof. apply populate_three. Qed.

Lemma populate_csv_run prod st :
  ∃ shown, populate_csv prod st = (st, Ok shown)
           ∧ shown_as ["parentCategory"; "category"; "brand"] prod shown.
Proof. apply populate_three. Qed.

(** Resolution writes dimension documents only. *)
Lemma create_products k doc st st' r : create k doc st = (st', r) → products st' = products st.
Proof. unfold create. destruct (entity_rejects _ _ _); by intros [= <- <-]. Qed.

Lemma create_missing_products k mk names m st st' r :
  create_missing k mk names m st = (st', r) → products st' = products st.
Proof.
  revert m st. induction names as [|name names IH]; intros m st; simpl.
  - by intros [= <- <-].
  - destruct (m !! _); [apply IH|]. unfold bind.
    destruct (create _ _ _) as [st1 [id|msg]] eqn:Hc.
    + intros ->%IH. by eapply create_products.
    + intros [= <- <-]. by eapply create_products.
Qed.

Lemma find_run k names st st' all : find k names st = (st', Ok all) → st' = st.
Proof. by intros [= <- _]. Qed.

Lemma resolve_excel_products user rows st st' maps :
  resolve_excel user rows st = (st', Ok maps) → products st' = products st.
Proof.
  unfold resolve_excel. intros Hr.
  do 9 (let Hf := fresh "Hf" in step_bind Hr as Hf; apply find_run in Hf; subst).
  do 9 (let Hc := fresh "Hc" in step_bind Hr as Hc; apply create_missing_products in Hc).
  injection Hr as <- _. congruence.
Qed.

Lemma resolve_csv_products user rows st st' maps :
  resolve_csv user rows st = (st', Ok maps) → products st' = products st.
Proof.
  unfold resolve_csv. intros Hr.
  do 5 (let Hf := fresh "Hf" in step_bind Hr as Hf; apply find_run in Hf; subst).
  do 5 (let Hc := fresh "Hc" in step_bind Hr as Hc; apply create_missing_products in Hc).
  injection Hr as <- _. congruence.
Qed.

Lemma create_missing_total k mk names :
  (∀ coll doc, entity_rejects k coll doc = None) →
  ∀ m st, ∃ st' m', create_missing k mk names m st = (st', Ok m').
Proof.
  intros Hok. induction names as [|name names IH]; intros m st; simpl; [by eexists _, _|].
  destruct (m !! toLowerCase (trim name)); [apply IH|].
  unfold bind, create. rewrite Hok. apply IH.
Qed.

Ltac run_create Hok :=
  match goal with
  | |- context [bind (create_missing ?k ?mk ?names ?m) _ ?st] =>
      let Hc := fresh "Hc" in
      destruct (create_missing_total k mk names (Hok k) m st) as (? & ? & Hc);
      rewrite (bind_run _ _ _ _ _ Hc); clear Hc
  end.

Lemma resolve_excel_total user rows st :
  (∀ k coll doc, entity_rejects k coll doc = None) →
  ∃ st' maps, resolve_excel user rows st = (st', Ok maps).
Proof.
  intros Hok. unfold resolve_excel.
  do 9 rewrite (bind_run (find _ _) _ _ _ _ eq_refl).
  do 9 run_create Hok. by eexists _, _.
Qed.

Lemma resolve_csv_total user rows st :
  (∀ k coll doc, entity_rejects k coll doc = None) →
  ∃ st' maps, resolve_csv user rows st = (st', Ok maps).
Proof.
  intros Hok. unfold resolve_csv.
  do 5 rewrite (bind_run (find _ _) _ _ _ _ eq_refl).
  do 5 run_create Hok. by eexists _, _.
Qed.

Lemma row_loop_total body i rows : ∀ lists,
  (∀ row, row ∈ rows → ∃ v, body row = Ok v) →
  ∃ out, row_loop body i rows lists = Ok out.
Proof.
  revert i. induction rows as [|row rows IH]; intros i lists Hbody; simpl; [by eexists|].
  destruct (Hbody row) as [v ->]; [apply list_elem_of_here|].
  apply IH. intros r Hr. by apply Hbody, list_elem_of_further.
Qed.

Lemma bulk_preview_inv user rows st st' resp :
  bulk_preview user rows st = (st', Ok resp) →
  ∃ maps vs,
    resolve_excel user (map remapRow rows) st = (st', Ok maps)
    ∧ Forall2 (λ row v, excel_row maps (map (obj_get "name") (existing_products rows st))
                          (map (obj_get "slug") (existing_products rows st)) row = Ok v)
              (map remapRow rows) vs
    ∧ preview_report ["category"; "subCategory"; "brand"] (map remapRow rows) vs resp
    ∧ pv_total resp = length rows
    ∧ pv_valid resp = length (accepted_of vs)
    ∧ pv_invalid resp = length (pv_invalidRows resp).
Proof.
  unfold bulk_preview. intros Hr.
  step_bind Hr as Hres. rename a into maps. pose proof (resolve_excel_products _ _ _ _ _ Hres) as Hp.
  step_bind Hr as Hfind. injection Hfind as <- <-.
  step_bind Hr as Hloop. injection Hloop as <- Hloop. destruct a as [pp inv].
  apply row_loop_spec in Hloop as (vs & Hvs & [= -> ->]). simpl in *.
  destruct (mapM_rel populate_excel (shown_as ["category"; "subCategory"; "brand"])
              (accepted_of vs) st0 populate_excel_run) as (shown & Hm & Hshown).
  rewrite (bind_run _ _ _ _ _ Hm) in Hr. injection Hr as <- <-.
  exists maps, vs. unfold existing_products. rewrite <- Hp.
  repeat split; simpl; try done.
  symmetry. eapply Forall2_length, Hvs.
Qed.

Lemma bulk_preview_csv_inv user rows st st' resp :
  bulk_preview_csv user rows st = (st', Ok resp) →
  ∃ maps vs,
    resolve_csv user rows st = (st', Ok maps)
    ∧ Forall2 (λ row v, csv_row maps (map (obj_get "name") (existing_products rows st))
                          (map (obj_get "slug") (existing_products rows st)) row = Ok v)
              rows vs
    ∧ preview_report ["parentCategory"; "category"; "brand"] rows vs resp
    ∧ pv_total resp = length rows
    ∧ pv_valid resp = length (accepted_of vs)
    ∧ pv_invalid resp = length (pv_invalidRows resp).
Proof.
  unfold bulk_preview_csv. intros Hr.
  step_bind Hr as Hres. rename a into maps. pose proof (resolve_csv_products _ _ _ _ _ Hres) as Hp.
  step_bind Hr as Hfind. injection Hfind as <- <-.
  step_bind Hr as Hloop. injection Hloop as <- Hloop. destruct a as [pp inv].
  apply row_loop_spec in Hloop as (vs & Hvs & [= -> ->]). simpl in *.
  destruct (mapM_rel populate_csv (shown_as ["parentCategory"; "category"; "brand"])
              (accepted_of vs) st0 populate_csv_run) as (shown & Hm & Hshown).
  rewrite (bind_run _ _ _ _ _ Hm) in Hr. injection Hr as <- <-.
  exists maps, vs. unfold existing_products. rewrite <- Hp.
  repeat split; simpl; try done.
  symmetry. eapply Forall2_length, Hvs.
Qed.

End RouteFacts.

(** ** The save loop *)

Section SaveFacts.
Context {ext : Externals}.

(** A turn never throws: it pushes one failed result and leaves the
    store alone, or stores one document and pushes one success. *)
Lemma save_turn_cases user i prod acc st :
  (∃ reason, save_turn user i prod acc st = (st, Ok (push_failed acc i reason prod)))
  ∨ (∃ slug,
       save_turn user i prod acc st
       = (store_with st (save_fields user prod slug),
          Ok (push_success acc i (("_id", VId (next_id st)) :: save_fields user prod slug)))
       ∧ truthy (obj_get "name" prod) = true).
Proof.
  unfold save_turn, try_catch, save_try.
  destruct (all_falsy prod); [left; by eexists|].
  unfold bind, findOne_product, lift, save_product. cbn beta iota.
  destruct (List.find _ _); [left; by eexists|].
  destruct (truthy (obj_get "name" prod)) eqn:Hn; [|left; by eexists].
  destruct (truthy (obj_get "parentCategory" prod)); [|left; by eexists]. cbn [negb orb].
  destruct (slug_or_generated _ _) as [slug|msg]; [|left; by eexists].
  destruct (product_rejects _ _) as [msg|]; [left; by eexists|].
  right. exists slug. by split.
Qed.

Lemma save_turn_duplicate user i prod acc st p n :
  p ∈ products st → obj_get "name" p = VStr n → obj_get "name" prod = VStr n → n ≠ "" →
  save_turn user i prod acc st = (st, Ok (push_failed acc i "Duplicate product name or slug" prod)).
Proof.
  intros Hp Hpn Hn Hne. unfold save_turn, try_catch, save_try.
  assert (truthy (VStr n) = true) as Ht.
  { simpl. by apply negb_true_iff, String.eqb_neq. }
  destruct (all_falsy prod) eqn:Hf.
  { apply (all_falsy_get "name") in Hf. congruence. }
  unfold bind, findOne_product. cbn beta iota.
  destruct (List.find _ _) eqn:Hfind; [done|].
  apply list_elem_of_In in Hp. eapply find_none in Hfind; [|exact Hp].
  simpl in Hfind. rewrite Hn, Hpn in Hfind. simpl in Hfind. by rewrite String.eqb_refl in Hfind.
Qed.

(** The loop always completes, with one new result per product. *)
Lemma save_loop_spec user prods : ∀ i acc st, ∃ st' acc' new,
  save_loop user i prods acc st = (st', Ok acc')
  ∧ counts_ok acc acc' new
  ∧ length new = length prods
  ∧ (∀ k r, new !! k = Some r →
       sr_index r = (i + k)%nat
       ∧ (is_success r = true ∧ is_failed r = false ∧ sr_reason r = None
          ∨ is_failed r = true ∧ is_success r = false ∧ is_Some (sr_reason r)
            ∧ prods !! k = Some (sr_product r)))
  ∧ (∃ docs, products st' = (products st ++ docs)%list
             ∧ ∀ d, d ∈ docs → obj_get "subCategory" d = obj_get "category" d)
  ∧ entities st' = entities st.
Proof.
  induction prods as [|prod rest IH]; intros i acc st; simpl.
  - exists st, acc, []. unfold counts_ok. simpl.
    rewrite !app_nil_r, !Nat.add_0_r. repeat split; try done.
    exists []. rewrite app_nil_r. split; [done|]. by inversion 1.
  - destruct (save_turn_cases user i prod acc st) as [[reason Ht]|(slug & Ht & _)];
      rewrite (bind_run _ _ _ _ _ Ht);
      match goal with |- context [save_loop _ _ _ ?a ?s] =>
        destruct (IH (S i) a s) as (st' & acc' & new & Hl & (Hr & Hs & Hf) & Hlen & Hnew & (docs & Hd & Hsub) & He)
      end; simpl in *.
    + exists st', acc', (failed_result i reason prod :: new). rewrite Hl.
      unfold counts_ok. simpl. rewrite Hr, Hs, Hf, <- app_assoc. simpl.
      split; [done|]. split; [repeat split; lia|]. split; [lia|]. split; [|split; [by exists docs|done]].
      intros [|k] r'; simpl.
      * intros [= <-]. simpl. rewrite Nat.add_0_r. split; [done|]. right. eauto.
      * intros Hk. destruct (Hnew k r' Hk) as [-> Hc]. split; [lia|done].
    + exists st', acc', (mkResult i "success" None (("_id", VId (next_id st)) :: save_fields user prod slug) :: new).
      rewrite Hl. unfold counts_ok. simpl. rewrite Hr, Hs, Hf, <- app_assoc. simpl.
      split; [done|]. split; [repeat split; lia|]. split; [lia|]. split; [|split; [|done]].
      * intros [|k] r'; simpl.
        -- intros [= <-]. simpl. rewrite Nat.add_0_r. split; [done|]. by left.
        -- intros Hk. destruct (Hnew k r' Hk) as [-> Hc]. split; [lia|done].
      * eexists. rewrite Hd, <- app_assoc. split; [done|].
        intros d [->%list_elem_of_singleton|Hin]%elem_of_app; [|by apply Hsub]. done.
Qed.

Lemma populate_result_run r st :
  ∃ shown, populate_result r st = (st, Ok shown) ∧ result_shown r shown.
Proof.
  unfold populate_result, result_shown, is_failed.
  destruct (String.eqb (sr_status r) "failed").
  { exists r. repeat split; done. }
  set (prod := sr_product r).
  destruct (populate_field_run Category "parentCategory" prod prod st) as (p1 & H1 & G1).
  destruct (populate_field_run SubCategory "category" prod p1 st) as (p2 & H2 & G2).
  destruct (populate_field_run Brand "brand" prod p2 st) as (p3 & H3 & G3).
  rewrite (bind_run _ _ _ _ _ H1), (bind_run _ _ _ _ _ H2), (bind_run _ _ _ _ _ H3).
  eexists. split; [done|]. simpl. repeat split; try done.
  intros f Hf. rewrite G3, G2, G1; [done|..]; intros ->; apply Hf; set_solver.
Qed.

Lemma shown_counts (l l' : list save_result) :
  Forall2 result_shown l l' →
  length (List.filter is_success l') = length (List.filter is_success l)
  ∧ length (List.filter is_failed l') = length (List.filter is_failed l).
Proof.
  induction 1 as [|r r' l l' (_ & Hs & _) _ [IH1 IH2]]; [done|].
  simpl. unfold is_success, is_failed in *. rewrite Hs.
  destruct (String.eqb (sr_status r) "success"), (String.eqb (sr_status r) "failed"); simpl; lia.
Qed.

(** A save of a non-empty list always answers with a report; [new] are
    the results as the loop pushed them. *)
Lemma bulk_save_run user prods st :
  prods ≠ [] →
  ∃ st' acc' new results,
    save_loop user 0 prods (mkAcc [] 0 0) st = (st', Ok acc')
    ∧ acc_results acc' = new
    ∧ Forall2 result_shown new results
    ∧ bulk_save user prods st
      = (st', Ok (SaveReport (length prods) (acc_success acc') (acc_failed acc') results)).
Proof.
  intros Hne.
  destruct (save_loop_spec user prods 0 (mkAcc [] 0 0) st)
    as (st' & acc' & new & Hl & (Hr & _) & _).
  destruct (mapM_rel populate_result result_shown (acc_results acc') st' populate_result_run)
    as (results & Hm & Hshown).
  exists st', acc', new, results. simpl in Hr. subst new.
  repeat split; try done.
  unfold bulk_save. destruct prods; [done|].
  by rewrite (bind_run _ _ _ _ _ Hl), (bind_run _ _ _ _ _ Hm).
Qed.

Lemma count_split (l : list save_result) :
  (∀ r, r ∈ l → is_success r = negb (is_failed r)) →
  (length (List.filter is_success l) + length (List.filter is_failed l))%nat = length l.
Proof.
  induction l as [|r l IH]; intros Hl; [done|]. simpl.
  rewrite (Hl r) by apply list_elem_of_here.
  assert (∀ r, r ∈ l → is_success r = negb (is_failed r)) as Hl'.
  { intros r' Hr'. by apply Hl, list_elem_of_further. }
  destruct (is_failed r); simpl; rewrite <- (IH Hl'); lia.
Qed.

Lemma bulk_save_partition user prods st :
  prods ≠ [] →
  ∃ st' success failed results,
    bulk_save user prods st = (st', Ok (SaveReport (length prods) success failed results))
    ∧ save_partition prods success failed results.
Proof.
  intros Hne.
  destruct (bulk_save_run user prods st Hne) as (st' & acc' & new & results & Hl & Hnew & Hshown & Hrun).
  destruct (save_loop_spec user prods 0 (mkAcc [] 0 0) st)
    as (st2 & acc2 & new2 & Hl2 & (Hr & Hs & Hf) & Hlen & Hres & _).
  rewrite Hl in Hl2. injection Hl2 as <- <-. simpl in Hr, Hs, Hf. subst new. rewrite Hr in Hshown.
  destruct (shown_counts _ _ Hshown) as [Hcs Hcf].
  exists st', (acc_success acc'), (acc_failed acc'), results. split; [done|].
  assert (length (List.filter is_success new2) + length (List.filter is_failed new2) = length new2)%nat as Hsum.
  { apply count_split. intros r (k & Hk)%list_elem_of_lookup.
    destruct (Hres k r Hk) as [_ [(-> & -> & _)|(-> & -> & _)]]; done. }
  unfold save_partition. rewrite Hcs, Hcf, <- (Forall2_length _ _ _ Hshown), Hs, Hf, Hlen.
  split; [done|]. split; [lia|]. split; [done|]. split; [done|].
  intros i r Hi.
  destruct (Forall2_lookup_r _ _ _ _ _ Hshown Hi) as (r0 & Hr0 & (Hidx & Hst & _ & _ & Hp)).
  destruct (Hres _ _ Hr0) as [Hi0 [(H1 & H2 & _)|(H1 & H2 & _ & H3)]]; unfold is_success, is_failed in *;
    rewrite Hst, Hidx, Hi0; (split; [done|]); [left; by split|right].
  repeat split; try done. by rewrite Hp.
Qed.

End SaveFacts.

(** ** C1: one outcome per row *)

Section OneOutcome.
Context {ext : Externals}.

Lemma preview_partition_of_report refs rows vs resp :
  preview_report refs rows vs resp →
  pv_total resp = length rows →
  pv_valid resp = length (accepted_of vs) →
  pv_invalid resp = length (pv_invalidRows resp) →
  preview_partition refs rows resp.
Proof.
  intros (Hlen & Hshown & Hinv) Htotal Hvalid Hinvalid. unfold preview_partition.
  pose proof (outcome_count rows vs 0 Hlen) as Hcount.
  rewrite Hvalid, Hinvalid, Htotal, Hinv, <- (Forall2_length _ _ _ Hshown).
  repeat split; try done.
  - apply rejected_from_ascending.
  - exists vs. split; [by split|]. intros k r Hk.
    apply rejected_from_lookup in Hk as (i & Hi & _ & Hrow & Hv). by exists i.
Qed.

(** The spreadsheet preview answers with a report whenever the store
    accepts the dimension documents it creates. *)
Lemma bulk_preview_total user rows st :
  (∀ k coll doc, entity_rejects k coll doc = None) →
  ∃ st' resp, bulk_preview user rows st = (st', Ok resp).
Proof.
  intros Hok. unfold bulk_preview.
  destruct (resolve_excel_total user (map remapRow rows) st Hok) as (st1 & maps & Hr).
  rewrite (bind_run _ _ _ _ _ Hr), (bind_run (find_products _ _) _ _ _ _ eq_refl).
  match goal with |- context [row_loop ?body 0 ?rs ?l] =>
    destruct (row_loop_total body 0 rs l) as [[pp inv] Hl]
  end.
  { intros row _. unfold excel_row. repeat case_match; eexists; reflexivity. }
  rewrite (bind_run (lift _) _ st1 st1 (pp, inv)) by (unfold lift; by rewrite Hl).
  destruct (mapM_rel populate_excel (shown_as ["category"; "subCategory"; "brand"])
              pp st1 populate_excel_run) as (shown & Hm & _).
  rewrite (bind_run _ _ _ _ _ Hm). by eexists _, _.
Qed.

(** So does the CSV preview, when in addition a slug can be had for every
    row. *)
Lemma bulk_preview_csv_total user rows st :
  (∀ k coll doc, entity_rejects k coll doc = None) →
  (∀ row, row ∈ rows → sluggable row = true) →
  ∃ st' resp, bulk_preview_csv user rows st = (st', Ok resp).
Proof.
  intros Hok Hslug. unfold bulk_preview_csv.
  destruct (resolve_csv_total user rows st Hok) as (st1 & maps & Hr).
  rewrite (bind_run _ _ _ _ _ Hr), (bind_run (find_products _ _) _ _ _ _ eq_refl).
  match goal with |- context [row_loop ?body 0 ?rs ?l] =>
    destruct (row_loop_total body 0 rs l) as [[pp inv] Hl]
  end.
  { intros row Hrow%Hslug. unfold csv_row, slug_or_generated, js_or, sluggable in *.
    destruct (all_falsy row); [eexists; reflexivity|].
    destruct (truthy (obj_get "name" row)) eqn:Hn; [|eexists; reflexivity].
    destruct (truthy (obj_get "parent_category" row)); [|eexists; reflexivity]. simpl.
    destruct (is_duplicate _ _ _); [eexists; reflexivity|].
    destruct (truthy (obj_get "slug" row)); [eexists; reflexivity|]. simpl in Hrow.
    destruct (obj_get "name" row); simpl in *;
      first [eexists; reflexivity | congruence | by rewrite Hn in Hrow | by subst]. }
  rewrite (bind_run (lift _) _ st1 st1 (pp, inv)) by (unfold lift; by rewrite Hl).
  destruct (mapM_rel populate_csv (shown_as ["parentCategory"; "category"; "brand"])
              pp st1 populate_csv_run) as (shown & Hm & _).
  rewrite (bind_run _ _ _ _ _ Hm). by eexists _, _.
Qed.

(** C1 (amended). Every bulk import run that answers with a report gives
    each input row exactly one outcome. In the two preview routes a row
    is either among the candidates or among the invalid rows,
    [valid + invalid = total], and the invalid rows come in input order,
    numbered by input index plus 2. The save route always answers a
    non-empty list with one result per product, [success + failed =
    total], each result a success or a failure, and result [i] carries
    the plain index [i]. The previews do answer with a report when the
    store accepts the dimension documents they create (and, for the CSV
    route, a slug can be had for every row). *)
Theorem one_outcome_per_row user :
  (∀ rows st st' resp,
     bulk_preview user rows st = (st', Ok resp) →
     preview_partition ["category"; "subCategory"; "brand"] (map remapRow rows) resp
     ∧ pv_total resp = length rows)
  ∧ (∀ rows st st' resp,
       bulk_preview_csv user rows st = (st', Ok resp) →
       preview_partition ["parentCategory"; "category"; "brand"] rows resp)
  ∧ (∀ prods st,
       prods ≠ [] →
       ∃ st' success failed results,
         bulk_save user prods st = (st', Ok (SaveReport (length prods) success failed results))
         ∧ save_partition prods success failed results)
  ∧ ((∀ k coll doc, entity_rejects k coll doc = None) →
     ∀ rows st,
       (∃ st' resp, bulk_preview user rows st = (st', Ok resp))
       ∧ ((∀ row, row ∈ rows → sluggable row = true) →
          ∃ st' resp, bulk_preview_csv user rows st = (st', Ok resp))).
Proof.
  split_and!.
  - intros rows st st' resp (maps & vs & _ & _ & Hrep & Ht & Hv & Hi)%bulk_preview_inv.
    split; [|done]. eapply preview_partition_of_report; try done. by rewrite length_map.
  - intros rows st st' resp (maps & vs & _ & _ & Hrep & Ht & Hv & Hi)%bulk_preview_csv_inv.
    by eapply preview_partition_of_report.
  - intros prods st. apply bulk_save_partition.
  - intros Hok rows st. split; [by apply bulk_preview_total|by apply bulk_preview_csv_total].
Qed.

End OneOutcome.

Lemma one_outcome_per_row_witness :
  (∃ resp, (bulk_preview (ext := integral) VUndef sample_sheet small_store).2 = Ok resp
           ∧ preview_partition ["category"; "subCategory"; "brand"] (map remapRow sample_sheet) resp)
  ∧ (∃ resp, (bulk_preview_csv (ext := integral) VUndef sample_csv small_store).2 = Ok resp
             ∧ preview_partition ["parentCategory"; "category"; "brand"] sample_csv resp)
  ∧ (∃ success failed results,
       (bulk_save (ext := sku_required) VUndef sample_products small_store).2
       = Ok (SaveReport 4 success failed results)
       ∧ save_partition sample_products success failed results).
Proof.
  destruct (one_outcome_per_row (ext := integral) VUndef) as (Hx & Hc & _ & _).
  destruct (one_outcome_per_row (ext := sku_required) VUndef) as (_ & _ & Hs & _).
  split; [|split].
  - eexists. split; [vm_compute; reflexivity|].
    eapply (Hx sample_sheet small_store). vm_compute. reflexivity.
  - eexists. split; [vm_compute; reflexivity|].
    eapply (Hc sample_csv small_store). vm_compute. reflexivity.
  - destruct (Hs sample_products small_store) as (st' & s & f & results & Hrun & Hpart); [done|].
    exists s, f, results. by rewrite Hrun.
Defined.

(** The save route numbers a rejected product by its index, not by its
    index plus 2. *)
Lemma save_index_has_no_offset :
  ∃ r, (bulk_save (ext := integral) VUndef [[("name", VStr "")]] empty_store).2
       = Ok (SaveReport 1 0 1 [r])
       ∧ is_failed r = true ∧ sr_index r = 0%nat ∧ sr_index r ≠ (0 + 2)%nat.
Proof. eexists. split; [vm_compute; reflexivity|]. by vm_compute. Qed.

(** ** Single turns of the save loop *)

Section SaveTurns.
Context {ext : Externals}.

Lemma save_loop_app user l1 l2 : ∀ i acc st,
  save_loop user i (l1 ++ l2) acc st
  = bind (save_loop user i l1 acc) (λ acc1, save_loop user (i + length l1) l2 acc1) st.
Proof.
  induction l1 as [|prod l1 IH]; intros i acc st; simpl.
  - unfold bind, ret. by rewrite Nat.add_0_r.
  - unfold bind. destruct (save_turn user i prod acc st) as [st1 [acc1|msg]]; [|done].
    rewrite IH. unfold bind.
    by replace (S i + length l1)%nat with (i + S (length l1))%nat by lia.
Qed.

(** Turn [k] of a run: the loop over the rows before it, the turn itself
    in the store they left, and the result it pushed at position [k]. *)
Lemma save_loop_turn user prods i acc st st' acc' k prod :
  save_loop user i prods acc st = (st', Ok acc') →
  prods !! k = Some prod →
  ∃ st1 acc1 st2 acc2 r,
    save_loop user i (take k prods) acc st = (st1, Ok acc1)
    ∧ save_turn user (i + k) prod acc1 st1 = (st2, Ok acc2)
    ∧ save_loop user (i + S k) (drop (S k) prods) acc2 st2 = (st', Ok acc')
    ∧ acc_results acc2 = (acc_results acc1 ++ [r])%list
    ∧ acc_results acc' !! (length (acc_results acc) + k)%nat = Some r
    ∧ ∃ docs, products st1 = (products st ++ docs)%list.
Proof.
  intros Hrun Hk. pose proof (take_drop_middle _ _ _ Hk) as Hsplit.
  pose proof (lookup_lt_Some _ _ _ Hk) as Hlt.
  rewrite <- Hsplit, save_loop_app in Hrun.
  apply bind_ok in Hrun as (st1 & acc1 & H1 & Hrun).
  rewrite length_take_le in Hrun by lia. simpl in Hrun.
  apply bind_ok in Hrun as (st2 & acc2 & H2 & Hrun).
  destruct (save_loop_spec user (take k prods) i acc st)
    as (? & ? & new1 & H1' & (Hr1 & _) & Hlen1 & _ & Hdocs & _).
  rewrite H1 in H1'. injection H1' as <- <-.
  destruct (save_loop_spec user (drop (S k) prods) (S (i + k)) acc2 st2)
    as (? & ? & new2 & H3' & (Hr2 & _) & _).
  rewrite Hrun in H3'. injection H3' as <- <-.
  rewrite length_take_le in Hlen1 by lia.
  assert (∃ r, acc_results acc2 = (acc_results acc1 ++ [r])%list) as [r Hr].
  { destruct (save_turn_cases user (i + k) prod acc1 st1) as [[reason Ht]|(slug & Ht & _)];
      rewrite Ht in H2; injection H2 as <- <-; by eexists. }
  exists st1, acc1, st2, acc2, r. replace (i + S k)%nat with (S (i + k)) by lia.
  destruct Hdocs as (docs & Hdocs & _).
  repeat split; try done; [|by exists docs].
  rewrite Hr2, Hr, Hr1. rewrite <- !app_assoc.
  rewrite lookup_app_r by lia. rewrite lookup_app_r by lia.
  replace (_ - _ - _)%nat with 0%nat by lia. done.
Qed.

(** Once a product of name [n] is stored, every later row of that name
    is turned away as a duplicate. *)
Lemma save_loop_found user prods n : ∀ i acc st st' acc' p k prod,
  save_loop user i prods acc st = (st', Ok acc') →
  p ∈ products st → obj_get "name" p = VStr n → n ≠ "" →
  prods !! k = Some prod → obj_get "name" prod = VStr n →
  acc_results acc' !! (length (acc_results acc) + k)%nat
  = Some (failed_result (i + k) "Duplicate product name or slug" prod).
Proof.
  intros i acc st st' acc' p k prod Hrun Hp Hpn Hne Hk Hn.
  destruct (save_loop_turn _ _ _ _ _ _ _ _ _ Hrun Hk)
    as (st1 & acc1 & st2 & acc2 & r & _ & Ht & _ & Hr & Hres & docs & Hdocs).
  assert (p ∈ products st1) as Hp1 by (rewrite Hdocs; apply elem_of_app; by left).
  rewrite (save_turn_duplicate user (i + k) prod acc1 st1 p n Hp1 Hpn Hn Hne) in Ht.
  injection Ht as _ <-. simpl in Hr. apply app_inv_head in Hr. injection Hr as <-. done.
Qed.

(** The results of a save as the reply shows them, turn by turn. *)
Lemma bulk_save_turn user prods st st' total success failed results k prod :
  bulk_save user prods st = (st', Ok (SaveReport total success failed results)) →
  prods !! k = Some prod →
  ∃ st0 acc' st1 acc1 st2 acc2 r shown,
    save_loop user 0 prods (mkAcc [] 0 0) st = (st0, Ok acc')
    ∧ save_loop user 0 (take k prods) (mkAcc [] 0 0) st = (st1, Ok acc1)
    ∧ save_turn user k prod acc1 st1 = (st2, Ok acc2)
    ∧ acc_results acc2 = (acc_results acc1 ++ [r])%list
    ∧ acc_results acc' !! k = Some r
    ∧ Forall2 result_shown (acc_results acc') results
    ∧ results !! k = Some shown ∧ result_shown r shown
    ∧ ∃ docs, products st1 = (products st ++ docs)%list.
Proof.
  intros Hrun Hk.
  assert (prods ≠ []) as Hne by (intros ->; done).
  destruct (bulk_save_run user prods st Hne) as (st0 & acc' & new & results' & Hl & Hnew & Hshown & Hrun').
  rewrite Hrun in Hrun'. injection Hrun' as Est Et Es Ef Er. subst.
  destruct (save_loop_turn _ _ _ _ _ _ _ _ _ Hl Hk)
    as (st1 & acc1 & st2 & acc2 & r & H1 & Ht & _ & Hr & Hres & Hdocs).
  simpl in Hres, Ht.
  destruct (Forall2_lookup_l _ _ _ _ _ Hshown Hres) as (shown & Hs & Hrs).
  exists st0, acc', st1, acc1, st2, acc2, r, shown. split_and!; done.
Qed.

End SaveTurns.

(** ** C2: rows without a name *)

Section Nameless.
Context {ext : Externals}.

Lemma csv_row_nameless maps en es row :
  truthy (obj_get "name" row) = false →
  csv_row maps en es row = Ok (Rejected (nameless_reason row)).
Proof. intros Hn. unfold csv_row, nameless_reason. destruct (all_falsy row); [done|]. by rewrite Hn. Qed.

Lemma save_turn_nameless user i prod acc st :
  truthy (obj_get "name" prod) = false →
  ∃ reason,
    save_turn user i prod acc st = (st, Ok (push_failed acc i reason prod))
    ∧ reason ∈ ["Empty row"; "Duplicate product name or slug"; "Missing required fields"]
    ∧ (all_falsy prod = true ↔ reason = "Empty row").
Proof.
  intros Hn. unfold save_turn, try_catch, save_try.
  destruct (all_falsy prod).
  { eexists. split; [done|]. split; [set_solver|done]. }
  unfold bind, findOne_product. cbn beta iota.
  destruct (List.find _ _); [|rewrite Hn]; eexists; (split; [done|]); (split; [set_solver|done]).
Qed.

(** C2 (amended). In the CSV preview a row whose name is absent or falsy
    is never a candidate: it is entered in [invalidRows] under its row
    number, as an empty row when all its values are falsy and for its
    missing required fields otherwise. In the save route such a product
    gets a failed result whose reason is the empty row, the duplicate or
    the missing required fields; it is the empty row exactly when all
    values are falsy. *)
Theorem nameless_row_is_rejected user :
  (∀ rows st st' resp i row,
     bulk_preview_csv user rows st = (st', Ok resp) →
     rows !! i = Some row →
     truthy (obj_get "name" row) = false →
     mkInvalid (i + 2) (nameless_reason row) row ∈ pv_invalidRows resp
     ∧ ∃ vs, preview_report ["parentCategory"; "category"; "brand"] rows vs resp
             ∧ vs !! i = Some (Rejected (nameless_reason row)))
  ∧ (∀ prods st st' total success failed results i prod,
       bulk_save user prods st = (st', Ok (SaveReport total success failed results)) →
       prods !! i = Some prod →
       truthy (obj_get "name" prod) = false →
       ∃ r reason,
         results !! i = Some r ∧ is_failed r = true ∧ sr_product r = prod
         ∧ sr_reason r = Some reason
         ∧ reason ∈ ["Empty row"; "Duplicate product name or slug"; "Missing required fields"]
         ∧ (all_falsy prod = true ↔ reason = "Empty row")).
Proof.
  split.
  - intros rows st st' resp i row (maps & vs & _ & Hvs & Hrep & _)%bulk_preview_csv_inv Hi Hn.
    destruct (Forall2_lookup_l _ _ _ _ _ Hvs Hi) as (v & Hv & Hrow).
    rewrite (csv_row_nameless _ _ _ _ Hn) in Hrow. injection Hrow as <-.
    split; [|by exists vs].
    destruct Hrep as (_ & _ & ->). by apply (rejected_from_elem rows vs 0 i).
  - intros prods st st' total success failed results i prod Hrun Hi Hn.
    destruct (bulk_save_turn _ _ _ _ _ _ _ _ _ _ Hrun Hi)
      as (st0 & acc' & st1 & acc1 & st2 & acc2 & r & shown & _ & _ & Ht & Hr & _ & _ & Hs & Hrs & _).
    destruct (save_turn_nameless user i prod acc1 st1 Hn) as (reason & Ht' & Hin & Hempty).
    rewrite Ht' in Ht. injection Ht as _ <-. simpl in Hr.
    apply app_inv_head in Hr. injection Hr as <-.
    destruct Hrs as (_ & Hst & Hre & _ & Hp). exists shown, reason.
    unfold is_failed in *. rewrite Hst, Hre. split_and!; try done. by apply Hp.
Qed.

End Nameless.

Lemma nameless_row_is_rejected_witness :
  (∃ resp, (bulk_preview_csv (ext := integral) VUndef sample_csv small_store).2 = Ok resp
           ∧ mkInvalid 5 "Missing required fields (name, parent_category)"
                       [("parent_category", VStr "Gadgets"); ("price", VStr "12")]
             ∈ pv_invalidRows resp)
  ∧ (∃ r reason, (bulk_save (ext := integral) VUndef [[("name", VStr ""); ("price", VNum 3)]] small_store).2
                 = Ok (SaveReport 1 0 1 [r])
                 ∧ sr_reason r = Some reason
                 ∧ reason ∈ ["Empty row"; "Duplicate product name or slug"; "Missing required fields"]).
Proof.
  destruct (nameless_row_is_rejected (ext := integral) VUndef) as (Hc & Hs).
  split.
  - edestruct Hc with (rows := sample_csv) (st := small_store) (i := 3%nat) as [Hin _];
      [vm_compute; reflexivity|reflexivity|reflexivity|].
    eexists. split; [|exact Hin]. vm_compute. reflexivity.
  - edestruct Hs with (prods := [[("name", VStr ""); ("price", VNum 3)]]) (st := small_store) (i := 0%nat)
      as (r & reason & Hr & _ & _ & Hre & Hin & _);
      [vm_compute; reflexivity|reflexivity|reflexivity|].
    injection Hr as <-. eexists _, reason. split; [vm_compute; reflexivity|]. by split.
Defined.

(** The spreadsheet preview accepts a row that has a price and no name,
    and the CSV preview turns away a row with a blank name as an empty
    row, not for its missing name. *)
Lemma nameless_row_counterexample :
  (∃ resp p, (bulk_preview (ext := integral) VUndef [[("selling_price", VNum 5)]] empty_store).2 = Ok resp
             ∧ pv_previewProducts resp = [p] ∧ pv_invalidRows resp = []
             ∧ obj_get "name" p = VStr "" ∧ pv_valid resp = 1%nat)
  ∧ (∃ resp, (bulk_preview_csv (ext := integral) VUndef [[("name", VStr "")]] empty_store).2 = Ok resp
             ∧ pv_invalidRows resp = [mkInvalid 2 "Empty row" [("name", VStr "")]]).
Proof.
  split.
  - eexists _, _. split; [vm_compute; reflexivity|]. by vm_compute.
  - eexists. split; [vm_compute; reflexivity|]. by vm_compute.
Qed.

(** ** C3: empty rows of a sheet *)

Lemma remap_loop_specs row : ∀ acc,
  (fold_left remap_step row acc).2 = [] ↔ acc.2 = [] ∧ has_specification row = false.
Proof.
  induction row as [|[k v] row IH]; intros [mapped specs]; simpl; [tauto|].
  rewrite IH. destruct (excelToBackendKey (trim k)); simpl; [done|].
  destruct (spec_worthy v); simpl; [|done].
  split; [intros [[]%app_eq_nil ?]; done|intros [_ ?]; done].
Qed.

Lemma remap_loop_blank row : ∀ acc,
  all_falsy acc.1 = true → recognised_blank row = true →
  all_falsy (fold_left remap_step row acc).1 = true.
Proof.
  induction row as [|[k v] row IH]; intros [mapped specs]; simpl; [done|].
  intros Hacc [Hkv Hrow]%andb_prop. apply IH; [|done].
  destruct (excelToBackendKey (trim k)); simpl.
  - apply all_falsy_set; [|done]. by apply negb_true_iff.
  - by destruct (spec_worthy v).
Qed.

Lemma remapRow_blank row :
  recognised_blank row = true → has_specification row = false → all_falsy (remapRow row) = true.
Proof.
  intros Hb Hs. unfold remapRow, remap_loop.
  pose proof (remap_loop_blank row ([], []) eq_refl Hb) as Hm.
  pose proof (proj2 (remap_loop_specs row ([], [])) (conj eq_refl Hs)) as Hsp.
  destruct (fold_left remap_step row ([], [])) as [mapped specs]. simpl in *. by subst specs.
Qed.

Lemma remapRow_specification row :
  has_specification row = true → all_falsy (remapRow row) = false.
Proof.
  intros Hs. unfold remapRow, remap_loop.
  pose proof (remap_loop_specs row ([], [])) as Hsp.
  destruct (fold_left remap_step row ([], [])) as [mapped [|s specs]]; simpl in *.
  - destruct (proj1 Hsp eq_refl) as [_ ?]. congruence.
  - by apply all_falsy_set_truthy.
Qed.

Section EmptyRows.
Context {ext : Externals}.

(** C3 (amended). In the spreadsheet preview a raw row is rejected with
    reason "Empty row" when all values under its recognised columns are
    falsy and no unrecognised column gives a specification entry. A row
    with a non-blank unrecognised column is never rejected as an empty
    row: its specification entries make the mapped row non-empty. *)
Theorem empty_row_needs_no_specification user rows st st' resp i row :
  bulk_preview user rows st = (st', Ok resp) →
  rows !! i = Some row →
  (recognised_blank row = true → has_specification row = false →
   mkInvalid (i + 2) "Empty row" (remapRow row) ∈ pv_invalidRows resp)
  ∧ (has_specification row = true →
     ∀ r, r ∈ pv_invalidRows resp → ir_row r = (i + 2)%nat → ir_reason r ≠ "Empty row").
Proof.
  intros (maps & vs & _ & Hvs & (_ & _ & Hinv) & _)%bulk_preview_inv Hi.
  assert (map remapRow rows !! i = Some (remapRow row)) as Hi'.
  { by rewrite list_lookup_fmap, Hi. }
  destruct (Forall2_lookup_l _ _ _ _ _ Hvs Hi') as (v & Hv & Hrow).
  rewrite Hinv. unfold excel_row in Hrow. split.
  - intros Hb Hs. rewrite (remapRow_blank row Hb Hs) in Hrow. injection Hrow as <-.
    by apply (rejected_from_elem _ vs 0 i).
  - intros Hs r (k & Hk)%list_elem_of_lookup Hr Hreason.
    apply rejected_from_lookup in Hk as (j & Hj & _ & _ & Hvj).
    assert (j = i) as -> by lia. rewrite Hv in Hvj. injection Hvj as ->.
    rewrite (remapRow_specification row Hs), Hreason in Hrow.
    by destruct (is_duplicate _ _ _).
Qed.

End EmptyRows.

Lemma empty_row_needs_no_specification_witness :
  (∃ resp, (bulk_preview (ext := integral) VUndef sample_sheet small_store).2 = Ok resp
           ∧ mkInvalid 4 "Empty row" [("name", VStr "")] ∈ pv_invalidRows resp
           ∧ ∀ r, r ∈ pv_invalidRows resp → ir_row r = 3%nat → ir_reason r ≠ "Empty row")
  ∧ (∃ resp, (bulk_preview (ext := integral) VUndef [[("constructor", VNum 0)]] small_store).2
             = Ok resp
             ∧ mkInvalid 2 "Empty row" [("function Object() { [native code] }", VNum 0)]
               ∈ pv_invalidRows resp).
Proof.
  edestruct (empty_row_needs_no_specification (ext := integral) VUndef sample_sheet small_store)
    with (i := 2%nat) as [Hempty _]; [vm_compute; reflexivity|reflexivity|].
  edestruct (empty_row_needs_no_specification (ext := integral) VUndef sample_sheet small_store)
    with (i := 1%nat) as [_ Hspec]; [vm_compute; reflexivity|reflexivity|].
  edestruct (empty_row_needs_no_specification (ext := integral) VUndef
               [[("constructor", VNum 0)]] small_store)
    with (i := 0%nat) as [Hmember _]; [vm_compute; reflexivity|reflexivity|].
  split.
  - eexists. split; [vm_compute; reflexivity|]. split.
    + apply Hempty; reflexivity.
    + apply Hspec. reflexivity.
  - eexists. split; [vm_compute; reflexivity|]. apply Hmember; reflexivity.
Defined.

(** A row whose only column is an unrecognised one has no recognised
    value at all, yet the spreadsheet preview accepts it. *)
Lemma empty_row_counterexample :
  ∃ resp p, (bulk_preview (ext := integral) VUndef [[("Colour", VStr "red")]] empty_store).2 = Ok resp
            ∧ recognised_blank [("Colour", VStr "red")] = true
            ∧ pv_invalidRows resp = []
            ∧ pv_previewProducts resp = [p]
            ∧ pv_valid resp = 1%nat.
Proof. eexists _, _. split; [vm_compute; reflexivity|]. by vm_compute. Qed.

(** ** C4: the order of the checks *)

Lemma find_existsb {A} (f : A → bool) l : List.find f l = None ↔ existsb f l = false.
Proof.
  induction l as [|a l IH]; simpl; [done|]. destruct (f a); simpl; [split; done|exact IH].
Qed.

Lemma existsb_app_l {A} (f : A → bool) l1 l2 : existsb f l1 = true → existsb f (l1 ++ l2) = true.
Proof. intros Hl. rewrite existsb_app, Hl. done. Qed.

Section CheckOrder.
Context {ext : Externals}.

Lemma save_turn_checks user i prod acc st :
  save_turn user i prod acc st
  = (st, Ok (push_failed acc i "Empty row" prod)) ∧ all_falsy prod = true
  ∨ save_turn user i prod acc st
    = (st, Ok (push_failed acc i "Duplicate product name or slug" prod))
    ∧ all_falsy prod = false ∧ existsb (matches prod) (products st) = true
  ∨ save_turn user i prod acc st
    = (st, Ok (push_failed acc i "Missing required fields" prod))
    ∧ all_falsy prod = false ∧ existsb (matches prod) (products st) = false
    ∧ (truthy (obj_get "name" prod) = false ∨ truthy (obj_get "parentCategory" prod) = false)
  ∨ all_falsy prod = false ∧ existsb (matches prod) (products st) = false
    ∧ truthy (obj_get "name" prod) = true ∧ truthy (obj_get "parentCategory" prod) = true.
Proof.
  unfold save_turn, try_catch, save_try.
  destruct (all_falsy prod); [by left|]. right.
  unfold bind, findOne_product. cbn beta iota.
  destruct (List.find _ _) eqn:Hfind.
  { left. split; [done|]. split; [done|].
    destruct (existsb (matches prod) (products st)) eqn:He; [done|].
    apply find_existsb in He. unfold matches in He. congruence. }
  apply find_existsb in Hfind. fold (matches prod) in Hfind. right.
  destruct (truthy (obj_get "name" prod)); [|left; split_and!; auto].
  destruct (truthy (obj_get "parentCategory" prod)); [|left; split_and!; auto].
  right. by split_and!.
Qed.

(** C4 (amended). The CSV preview checks in the order empty row,
    required fields, duplicate, so a row that lacks a required field is
    rejected for that even when it names an existing product. The save
    route checks in the order empty row, duplicate, required fields, so a
    product that matches a stored one is rejected as a duplicate even
    when it lacks a required field. The spreadsheet preview checks the
    empty row before the duplicate. The first failing check gives the
    reason. *)
Theorem checks_in_order user :
  (∀ rows st st' resp i row,
     bulk_preview_csv user rows st = (st', Ok resp) →
     rows !! i = Some row →
     (all_falsy row = true → mkInvalid (i + 2) "Empty row" row ∈ pv_invalidRows resp)
     ∧ (all_falsy row = false →
        truthy (obj_get "name" row) = false ∨ truthy (obj_get "parent_category" row) = false →
        mkInvalid (i + 2) "Missing required fields (name, parent_category)" row ∈ pv_invalidRows resp)
     ∧ (all_falsy row = false →
        truthy (obj_get "name" row) = true → truthy (obj_get "parent_category" row) = true →
        duplicate_in rows st row = true →
        mkInvalid (i + 2) "Duplicate product name or slug" row ∈ pv_invalidRows resp))
  ∧ (∀ prods st st' total success failed results i prod,
       bulk_save user prods st = (st', Ok (SaveReport total success failed results)) →
       prods !! i = Some prod →
       ∃ r, results !! i = Some r
            ∧ (all_falsy prod = true → is_failed r = true ∧ sr_reason r = Some "Empty row")
            ∧ (all_falsy prod = false → existsb (matches prod) (products st) = true →
               is_failed r = true ∧ sr_reason r = Some "Duplicate product name or slug")
            ∧ (∀ st1 acc1,
                 save_loop user 0 (take i prods) (mkAcc [] 0 0) st = (st1, Ok acc1) →
                 all_falsy prod = false → existsb (matches prod) (products st1) = false →
                 truthy (obj_get "name" prod) = false ∨ truthy (obj_get "parentCategory" prod) = false →
                 is_failed r = true ∧ sr_reason r = Some "Missing required fields"))
  ∧ (∀ rows st st' resp i row,
       bulk_preview user rows st = (st', Ok resp) →
       rows !! i = Some row →
       (all_falsy (remapRow row) = true →
        mkInvalid (i + 2) "Empty row" (remapRow row) ∈ pv_invalidRows resp)
       ∧ (all_falsy (remapRow row) = false →
          duplicate_in rows st (remapRow row) = true →
          mkInvalid (i + 2) "Duplicate product name or slug" (remapRow row) ∈ pv_invalidRows resp)).
Proof.
  split_and!.
  - intros rows st st' resp i row (maps & vs & _ & Hvs & (_ & _ & ->) & _)%bulk_preview_csv_inv Hi.
    destruct (Forall2_lookup_l _ _ _ _ _ Hvs Hi) as (v & Hv & Hrow). unfold csv_row in Hrow.
    split_and!.
    + intros He. rewrite He in Hrow. injection Hrow as <-. by apply (rejected_from_elem rows vs 0 i).
    + intros He Hmiss. rewrite He in Hrow.
      assert (negb (truthy (obj_get "name" row)) || negb (truthy (obj_get "parent_category" row)) = true) as Hm.
      { destruct Hmiss as [-> | ->]; [done|apply orb_true_r]. }
      rewrite Hm in Hrow. injection Hrow as <-. by apply (rejected_from_elem rows vs 0 i).
    + intros He Hn Hp Hd. unfold duplicate_in in Hd. rewrite He, Hn, Hp, Hd in Hrow. injection Hrow as <-.
      by apply (rejected_from_elem rows vs 0 i).
  - intros prods st st' total success failed results i prod Hrun Hi.
    destruct (bulk_save_turn _ _ _ _ _ _ _ _ _ _ Hrun Hi)
      as (st0 & acc' & st1 & acc1 & st2 & acc2 & r & shown & _ & Htake & Ht & Hr & _ & _ & Hs
          & (_ & Hst & Hre & _) & docs & Hdocs).
    exists shown. split; [done|]. unfold is_failed. rewrite Hst, Hre.
    assert (∀ reason, save_turn user i prod acc1 st1 = (st1, Ok (push_failed acc1 i reason prod)) →
            String.eqb (sr_status r) "failed" = true ∧ sr_reason r = Some reason) as Hpush.
    { intros reason Ht'. rewrite Ht' in Ht. injection Ht as _ <-. simpl in Hr.
      apply app_inv_head in Hr. by injection Hr as <-. }
    destruct (save_turn_checks user i prod acc1 st1)
      as [[Ht' He]|[(Ht' & He & Hm)|[(Ht' & He & Hm & Hreq)|(He & Hm & Hn & Hp)]]].
    + split_and!; [by auto|congruence|congruence].
    + split_and!; [congruence|by auto|].
      intros ? ? Htake'. rewrite Htake in Htake'. injection Htake' as <- <-. congruence.
    + split_and!; [congruence| |by auto].
      intros _ Hm0. rewrite Hdocs in Hm. apply (existsb_app_l _ _ docs) in Hm0. congruence.
    + split_and!; [congruence| |].
      * intros _ Hm0. rewrite Hdocs in Hm. apply (existsb_app_l _ _ docs) in Hm0. congruence.
      * intros ? ? Htake'. rewrite Htake in Htake'. injection Htake' as <- <-.
        intros _ _ [?|?]; congruence.
  - intros rows st st' resp i row (maps & vs & _ & Hvs & (_ & _ & ->) & _)%bulk_preview_inv Hi.
    assert (map remapRow rows !! i = Some (remapRow row)) as Hi'.
    { by rewrite list_lookup_fmap, Hi. }
    destruct (Forall2_lookup_l _ _ _ _ _ Hvs Hi') as (v & Hv & Hrow). unfold excel_row in Hrow.
    split.
    + intros He. rewrite He in Hrow. injection Hrow as <-. by apply (rejected_from_elem _ vs 0 i).
    + intros He Hd. unfold duplicate_in in Hd. rewrite He, Hd in Hrow. injection Hrow as <-.
      by apply (rejected_from_elem _ vs 0 i).
Qed.

End CheckOrder.

Lemma checks_in_order_witness :
  (∃ resp, (bulk_preview_csv (ext := integral) VUndef [[("name", VStr "Widget")]] small_store).2 = Ok resp
           ∧ mkInvalid 2 "Missing required fields (name, parent_category)" [("name", VStr "Widget")]
             ∈ pv_invalidRows resp)
  ∧ (∃ r, (bulk_save (ext := integral) VUndef [[("name", VStr "Widget")]] small_store).2
          = Ok (SaveReport 1 0 1 [r])
          ∧ sr_reason r = Some "Duplicate product name or slug")
  ∧ (∃ resp, (bulk_preview (ext := integral) VUndef sample_sheet small_store).2 = Ok resp
             ∧ mkInvalid 4 "Empty row" [("name", VStr "")] ∈ pv_invalidRows resp).
Proof.
  destruct (checks_in_order (ext := integral) VUndef) as (Hc & Hs & Hx).
  split_and!.
  - edestruct Hc with (rows := [[("name", VStr "Widget")]]) (st := small_store) (i := 0%nat)
      as (_ & Hmiss & _); [vm_compute; reflexivity|reflexivity|].
    eexists. split; [vm_compute; reflexivity|]. apply Hmiss; [reflexivity|by right].
  - edestruct Hs with (prods := [[("name", VStr "Widget")]]) (st := small_store) (i := 0%nat)
      as (r & Hr & _ & Hdup & _); [vm_compute; reflexivity|reflexivity|].
    injection Hr as <-. eexists. split; [vm_compute; reflexivity|].
    apply Hdup; reflexivity.
  - edestruct Hx with (rows := sample_sheet) (st := small_store) (i := 2%nat)
      as (Hempty & _); [vm_compute; reflexivity|reflexivity|].
    eexists. split; [vm_compute; reflexivity|]. apply Hempty. reflexivity.
Defined.

(** A product that names a stored product and has no parent category is
    turned away by the save route as a duplicate, not for the missing
    field. *)
Lemma duplicate_before_required_in_save :
  ∃ r, (bulk_save (ext := integral) VUndef [[("name", VStr "Widget")]] small_store).2
       = Ok (SaveReport 1 0 1 [r])
       ∧ truthy (obj_get "parentCategory" [("name", VStr "Widget")]) = false
       ∧ sr_reason r = Some "Duplicate product name or slug"
       ∧ sr_reason r ≠ Some "Missing required fields".
Proof. eexists. split; [vm_compute; reflexivity|]. by vm_compute. Qed.

(** ** C5: the same name twice in one batch *)

Lemma fresh_not_duplicate rows st row : fresh_in st row = true → duplicate_in rows st row = false.
Proof.
  intros Hfresh. unfold duplicate_in, is_duplicate, js_has.
  assert (∀ f, existsb (same_value_zero (obj_get f row)) (map (obj_get f) (existing_products rows st)) = true →
               ∃ p, p ∈ products st ∧ same_value_zero (obj_get f row) (obj_get f p) = true) as Hex.
  { intros f (x & Hin & Hx)%existsb_exists. apply in_map_iff in Hin as (p & <- & Hp).
    apply filter_In in Hp as [Hp _]. exists p. by rewrite list_elem_of_In. }
  unfold fresh_in in Hfresh. rewrite forallb_forall in Hfresh.
  apply orb_false_intro; apply andb_false_intro2, not_true_is_false;
    intros (p & Hp & Hsame)%Hex; apply list_elem_of_In, Hfresh in Hp;
    rewrite Hsame in Hp; simpl in Hp; [done|by rewrite andb_false_r in Hp].
Qed.

Section SameNameTwice.
Context {ext : Externals}.

Lemma save_loop_length user prods i acc st st' acc' :
  save_loop user i prods acc st = (st', Ok acc') →
  length (acc_results acc') = (length (acc_results acc) + length prods)%nat.
Proof.
  intros Hrun. destruct (save_loop_spec user prods i acc st) as (? & ? & new & H' & (Hr & _) & Hlen & _).
  rewrite Hrun in H'. injection H' as <- <-. by rewrite Hr, length_app, Hlen.
Qed.

Lemma saved_name user prod slug id :
  obj_get "name" (("_id", id) :: save_fields user prod slug) = js_or (obj_get "name" prod) (VStr "").
Proof. reflexivity. Qed.

Lemma truthy_name n : n ≠ "" → truthy (VStr n) = true.
Proof. intros Hn. simpl. by apply negb_true_iff, String.eqb_neq. Qed.

(** C5 (amended). In save mode, when two products of a batch have the
    same non-blank name and the first of them is saved, the second is
    rejected as a duplicate. The previews compare a row with the stored
    catalogue only: two rows with the same non-blank name that no stored
    product has (nor their slugs) are both accepted by the spreadsheet
    preview, and by the CSV preview when they name a parent category. *)
Theorem same_name_twice user n :
  n ≠ "" →
  (∀ prods st st' total success failed results i j p1 p2 r1,
     bulk_save user prods st = (st', Ok (SaveReport total success failed results)) →
     (i < j)%nat → prods !! i = Some p1 → prods !! j = Some p2 →
     obj_get "name" p1 = VStr n → obj_get "name" p2 = VStr n →
     results !! i = Some r1 → is_success r1 = true →
     ∃ r2, results !! j = Some r2 ∧ is_failed r2 = true
           ∧ sr_reason r2 = Some "Duplicate product name or slug")
  ∧ (∀ rows st st' resp i j row1 row2,
       bulk_preview user rows st = (st', Ok resp) →
       i ≠ j → rows !! i = Some row1 → rows !! j = Some row2 →
       obj_get "name" (remapRow row1) = VStr n → obj_get "name" (remapRow row2) = VStr n →
       fresh_in st (remapRow row1) = true → fresh_in st (remapRow row2) = true →
       ∀ r, r ∈ pv_invalidRows resp → ir_row r ≠ (i + 2)%nat ∧ ir_row r ≠ (j + 2)%nat)
  ∧ (∀ rows st st' resp i j row1 row2,
       bulk_preview_csv user rows st = (st', Ok resp) →
       i ≠ j → rows !! i = Some row1 → rows !! j = Some row2 →
       obj_get "name" row1 = VStr n → obj_get "name" row2 = VStr n →
       truthy (obj_get "parent_category" row1) = true →
       truthy (obj_get "parent_category" row2) = true →
       fresh_in st row1 = true → fresh_in st row2 = true →
       ∀ r, r ∈ pv_invalidRows resp → ir_row r ≠ (i + 2)%nat ∧ ir_row r ≠ (j + 2)%nat).
Proof.
  intros Hn. pose proof (truthy_name n Hn) as Ht. split_and!.
  - intros prods st st' total success failed results i j p1 p2 r1 Hrun Hij Hi Hj Hn1 Hn2 Hr1 Hs1.
    assert (prods ≠ []) as Hne by (intros ->; done).
    destruct (bulk_save_run user prods st Hne) as (st0 & acc' & new & results' & Hl & Hnew & Hshown & Hrun').
    rewrite Hrun in Hrun'. injection Hrun' as Est Et Es Ef Er. subst.
    destruct (save_loop_turn _ _ _ _ _ _ _ _ _ Hl Hi)
      as (st1 & acc1 & st2 & acc2 & r & Htake & Hturn & Htail & Hr & Hres & _).
    simpl in Hres, Hturn, Htail.
    destruct (Forall2_lookup_l _ _ _ _ _ Hshown Hres) as (shown & Hsh & (_ & Hst & _)).
    rewrite Hr1 in Hsh. injection Hsh as <-.
    assert (∃ p, p ∈ products st2 ∧ obj_get "name" p = VStr n) as (p & Hp & Hpn).
    { destruct (save_turn_cases user i p1 acc1 st1) as [[reason Hc]|(slug & Hc & _)];
        rewrite Hc in Hturn; injection Hturn as <- <-; simpl in Hr;
        apply app_inv_head in Hr; injection Hr as <-.
      - unfold is_success in Hs1. by rewrite Hst in Hs1.
      - eexists. split; [apply elem_of_app; right; apply list_elem_of_here|].
        rewrite saved_name, Hn1. unfold js_or. by rewrite Ht. }
    assert (drop (S i) prods !! (j - S i)%nat = Some p2) as Hj'.
    { rewrite lookup_drop. by replace (S i + (j - S i))%nat with j by lia. }
    pose proof (save_loop_found _ _ n _ _ _ _ _ _ _ _ Htail Hp Hpn Hn Hj' Hn2) as Hfound.
    apply save_loop_length in Htake. simpl in Htake.
    pose proof (lookup_lt_Some _ _ _ Hi) as Hlt.
    rewrite length_take_le in Htake by lia.
    rewrite Hr, length_app, Htake in Hfound. simpl in Hfound.
    replace (i + 1 + (j - S i))%nat with j in Hfound by lia.
    destruct (Forall2_lookup_l _ _ _ _ _ Hshown Hfound) as (r2 & Hr2 & (_ & Hst2 & Hre2 & _)).
    exists r2. unfold is_failed. rewrite Hst2, Hre2. by split_and!.
  - intros rows st st' resp i j row1 row2
      (maps & vs & _ & Hvs & (_ & _ & ->) & _)%bulk_preview_inv Hij Hi Hj Hn1 Hn2 Hf1 Hf2 r Hr.
    assert (∀ k row, rows !! k = Some row → obj_get "name" (remapRow row) = VStr n →
                     fresh_in st (remapRow row) = true → ir_row r ≠ (k + 2)%nat) as Hacc.
    { intros k row Hk Hname Hfresh.
      assert (map remapRow rows !! k = Some (remapRow row)) as Hk' by (by rewrite list_lookup_fmap, Hk).
      destruct (Forall2_lookup_l _ _ _ _ _ Hvs Hk') as (v & Hv & Hrow). unfold excel_row in Hrow.
      destruct (all_falsy (remapRow row)) eqn:He.
      { apply (all_falsy_get "name") in He. congruence. }
      apply (fresh_not_duplicate rows) in Hfresh. unfold duplicate_in in Hfresh.
      rewrite Hfresh in Hrow. injection Hrow as <-.
      apply (rejected_from_accepted _ _ 0 k _ r Hv Hr). }
    split; eauto.
  - intros rows st st' resp i j row1 row2
      (maps & vs & _ & Hvs & (_ & _ & ->) & _)%bulk_preview_csv_inv Hij Hi Hj Hn1 Hn2 Hp1 Hp2 Hf1 Hf2 r Hr.
    assert (∀ k row, rows !! k = Some row → obj_get "name" row = VStr n →
                     truthy (obj_get "parent_category" row) = true →
                     fresh_in st row = true → ir_row r ≠ (k + 2)%nat) as Hacc.
    { intros k row Hk Hname Hparent Hfresh.
      destruct (Forall2_lookup_l _ _ _ _ _ Hvs Hk) as (v & Hv & Hrow). unfold csv_row in Hrow.
      destruct (all_falsy row) eqn:He.
      { apply (all_falsy_get "name") in He. congruence. }
      apply (fresh_not_duplicate rows) in Hfresh. unfold duplicate_in in Hfresh.
      rewrite Hname, Ht, Hparent, Hfresh in Hrow. simpl in Hrow.
      unfold slug_or_generated, js_or in Hrow. rewrite Ht in Hrow.
      destruct (truthy (obj_get "slug" row)); simpl in Hrow; injection Hrow as <-;
        apply (rejected_from_accepted _ _ 0 k _ r Hv Hr). }
    split; eauto.
Qed.

End SameNameTwice.

Lemma same_name_twice_witness :
  (∃ total success failed results r2,
     (bulk_save (ext := sku_required) VUndef sample_products small_store).2
     = Ok (SaveReport total success failed results)
     ∧ results !! 3%nat = Some r2 ∧ is_failed r2 = true
     ∧ sr_reason r2 = Some "Duplicate product name or slug")
  ∧ (∃ resp, (bulk_preview (ext := integral) VUndef twice_named small_store).2 = Ok resp
             ∧ ∀ r, r ∈ pv_invalidRows resp → ir_row r ≠ 2%nat ∧ ir_row r ≠ 3%nat)
  ∧ (∃ resp, (bulk_preview_csv (ext := integral) VUndef twice_named_csv small_store).2 = Ok resp
             ∧ ∀ r, r ∈ pv_invalidRows resp → ir_row r ≠ 2%nat ∧ ir_row r ≠ 3%nat).
Proof.
  assert ("Widget Pro" ≠ "") as Hn by done.
  destruct (same_name_twice (ext := sku_required) VUndef "Widget Pro" Hn) as (Hs & _ & _).
  destruct (same_name_twice (ext := integral) VUndef "Widget Pro" Hn) as (_ & Hx & Hc).
  split_and!.
  - edestruct Hs with (prods := sample_products) (st := small_store) (i := 2%nat) (j := 3%nat)
      as (r2 & Hr2 & Hf & Hre);
      [vm_compute; reflexivity|lia|reflexivity|reflexivity|reflexivity|reflexivity
      |vm_compute; reflexivity|reflexivity|].
    eexists _, _, _, _, r2. split; [vm_compute; reflexivity|]. by split_and!.
  - eexists. split; [vm_compute; reflexivity|].
    eapply (Hx twice_named small_store _ _ 0%nat 1%nat);
      [vm_compute; reflexivity|lia|reflexivity|reflexivity|reflexivity|reflexivity
      |reflexivity|reflexivity].
  - eexists. split; [vm_compute; reflexivity|].
    eapply (Hc twice_named_csv small_store _ _ 0%nat 1%nat);
      [vm_compute; reflexivity|lia|reflexivity|reflexivity|reflexivity|reflexivity
      |reflexivity|reflexivity|reflexivity|reflexivity].
Defined.

(** Two rows with the same new name: both previews accept both. *)
Lemma second_of_same_name_accepted_in_preview :
  (∃ resp, (bulk_preview (ext := integral) VUndef twice_named small_store).2 = Ok resp
           ∧ existsb (matches [("name", VStr "Widget Pro")]) (products small_store) = false
           ∧ pv_total resp = 2%nat ∧ pv_valid resp = 2%nat ∧ pv_invalidRows resp = [])
  ∧ (∃ resp, (bulk_preview_csv (ext := integral) VUndef twice_named_csv small_store).2 = Ok resp
             ∧ pv_total resp = 2%nat ∧ pv_valid resp = 2%nat ∧ pv_invalidRows resp = []).
Proof.
  split.
  - eexists. split; [vm_compute; reflexivity|]. by vm_compute.
  - eexists. split; [vm_compute; reflexivity|]. by vm_compute.
Qed.

(** ** Where the reported products come from *)

Lemma accepted_of_elem c vs : c ∈ accepted_of vs → Accepted c ∈ vs.
Proof.
  induction vs as [|[c'|reason] vs IH]; simpl; [by intros ?%elem_of_nil| |].
  - intros [->|Hin]%elem_of_cons; [apply list_elem_of_here|by apply list_elem_of_further, IH].
  - intros Hin. by apply list_elem_of_further, IH.
Qed.

Lemma accepted_origin (body : obj → result verdict) refs rows vs shown p :
  Forall2 (λ row v, body row = Ok v) rows vs →
  Forall2 (shown_as refs) (accepted_of vs) shown →
  p ∈ shown →
  ∃ row c, row ∈ rows ∧ body row = Ok (Accepted c) ∧ shown_as refs c p.
Proof.
  intros Hvs Hshown (k & Hk)%list_elem_of_lookup.
  destruct (Forall2_lookup_r _ _ _ _ _ Hshown Hk) as (c & Hc & Hcp).
  assert (Accepted c ∈ vs) as (j & Hj)%list_elem_of_lookup.
  { apply accepted_of_elem, list_elem_of_lookup. eauto. }
  destruct (Forall2_lookup_r _ _ _ _ _ Hvs Hj) as (row & Hrow & Hbody).
  exists row, c. split_and!; [|done|done]. apply list_elem_of_lookup. eauto.
Qed.

Lemma rejected_from_ge i rows vs r :
  r ∈ rejected_from i rows vs → (i + 2 ≤ ir_row r)%nat.
Proof.
  revert i vs. induction rows as [|row rows IH]; intros i vs; [by intros ?%elem_of_nil|].
  destruct vs as [|[c|reason] vs]; simpl; [by intros ?%elem_of_nil| |].
  - intros Hin%IH. lia.
  - intros [->|Hin%IH]%elem_of_cons; simpl; lia.
Qed.

(** The rows a report does not list are the rows of the accepted
    outcomes. *)
Lemma kept_from_report i rows vs pre :
  length vs = length rows →
  Forall (λ r, (ir_row r < i + 2)%nat) pre →
  kept_from i rows (pre ++ rejected_from i rows vs) = accepted_rows rows vs.
Proof.
  revert i vs pre. induction rows as [|row rows IH]; intros i vs pre Hlen Hpre; [done|].
  destruct vs as [|[c|reason] vs]; [done| |]; injection Hlen as Hlen; simpl.
  - assert (existsb (λ r, Nat.eqb (ir_row r) (i + 2)) (pre ++ rejected_from (S i) rows vs) = false)
      as ->.
    { apply not_true_is_false. intros (r & Hin & Hr%Nat.eqb_eq)%existsb_exists.
      apply list_elem_of_In, elem_of_app in Hin as [Hin|Hin].
      - rewrite Forall_forall in Hpre. specialize (Hpre r Hin). lia.
      - apply rejected_from_ge in Hin. lia. }
    f_equal. apply IH; [done|]. eapply Forall_impl; [exact Hpre|]. simpl. lia.
  - assert (existsb (λ r, Nat.eqb (ir_row r) (i + 2))
              (pre ++ mkInvalid (i + 2) reason row :: rejected_from (S i) rows vs) = true) as ->.
    { apply existsb_exists. exists (mkInvalid (i + 2) reason row). split.
      - apply list_elem_of_In, elem_of_app. right. apply list_elem_of_here.
      - simpl. apply Nat.eqb_refl. }
    rewrite (cons_middle _ pre), app_assoc. apply IH; [done|].
    apply Forall_app. split; [eapply Forall_impl; [exact Hpre|]; simpl; lia|].
    apply Forall_singleton. simpl. lia.
Qed.

Lemma accepted_rows_candidates (body : obj → result verdict) rows vs :
  Forall2 (λ row v, body row = Ok v) rows vs →
  Forall2 (λ row c, body row = Ok (Accepted c)) (accepted_rows rows vs) (accepted_of vs).
Proof.
  induction 1 as [|row [c|reason] rows vs Hb _ IH]; simpl; [constructor| |done].
  by constructor.
Qed.

Lemma Forall2_compose {A B C} (P : A → B → Prop) (Q : B → C → Prop) (R : A → C → Prop) l k m :
  (∀ a b c, P a b → Q b c → R a c) →
  Forall2 P l k → Forall2 Q k m → Forall2 R l m.
Proof.
  intros HR HP. revert m. induction HP as [|a b l k Hab _ IH]; intros m HQ.
  - inversion HQ. constructor.
  - inversion HQ as [|? c ? m' Hbc HQ']; subst. constructor; [by eapply HR|by apply IH].
Qed.

(** The products of a report are, in order, what the rows that the report
    does not list were accepted as, up to the display of the
    references. *)
Lemma products_in_order (body : obj → result verdict) refs rows vs resp :
  Forall2 (λ row v, body row = Ok v) rows vs →
  preview_report refs rows vs resp →
  Forall2 (λ row p, ∃ c, body row = Ok (Accepted c) ∧ shown_as refs c p)
          (kept_from 0 rows (pv_invalidRows resp)) (pv_previewProducts resp).
Proof.
  intros Hvs (Hlen & Hshown & ->).
  pose proof (kept_from_report 0 rows vs [] Hlen (Forall_nil_2 _)) as Hkept.
  rewrite app_nil_l in Hkept. rewrite Hkept.
  eapply Forall2_compose; [|by apply accepted_rows_candidates|exact Hshown].
  intros row c p Hb Hs. by exists c.
Qed.

Section Origins.
Context {ext : Externals}.

(** The products of the spreadsheet preview are, in order, the
    candidates of the mapped rows that the report does not list as
    invalid, up to the display of their references. *)
Lemma excel_products_in_order user rows st st' resp :
  bulk_preview user rows st = (st', Ok resp) →
  ∃ maps, Forall2 (shown_as ["category"; "subCategory"; "brand"] ∘ excel_candidate maps)
                  (kept_from 0 (map remapRow rows) (pv_invalidRows resp))
                  (pv_previewProducts resp).
Proof.
  intros (maps & vs & _ & Hvs & Hrep & _)%bulk_preview_inv. exists maps.
  eapply Forall2_impl; [by eapply products_in_order|].
  intros row p (c & Hbody & Hcp). unfold excel_row in Hbody.
  destruct (all_falsy row); [done|]. destruct (is_duplicate _ _ _); [done|].
  by injection Hbody as <-.
Qed.

Lemma csv_products_in_order user rows st st' resp :
  bulk_preview_csv user rows st = (st', Ok resp) →
  ∃ maps, Forall2 (λ row p, ∃ slug, shown_as ["parentCategory"; "category"; "brand"]
                                             (csv_candidate maps row slug) p)
                  (kept_from 0 rows (pv_invalidRows resp))
                  (pv_previewProducts resp).
Proof.
  intros (maps & vs & _ & Hvs & Hrep & _)%bulk_preview_csv_inv. exists maps.
  eapply Forall2_impl; [by eapply products_in_order|].
  intros row p (c & Hbody & Hcp). unfold csv_row in Hbody.
  destruct (all_falsy row); [done|]. destruct (negb _ || negb _); [done|].
  destruct (is_duplicate _ _ _); [done|].
  destruct (slug_or_generated _ _) as [slug|msg]; [|done].
  injection Hbody as <-. by exists slug.
Qed.

(** A product of the spreadsheet preview is the candidate of one of the
    mapped rows, up to the display of its references. *)
Lemma excel_product_origin user rows st st' resp p :
  bulk_preview user rows st = (st', Ok resp) →
  p ∈ pv_previewProducts resp →
  ∃ maps row, row ∈ map remapRow rows
              ∧ shown_as ["category"; "subCategory"; "brand"] (excel_candidate maps row) p.
Proof.
  intros (maps & vs & _ & Hvs & (_ & Hshown & _) & _)%bulk_preview_inv Hp.
  destruct (accepted_origin _ _ _ _ _ _ Hvs Hshown Hp) as (row & c & Hrow & Hbody & Hcp).
  exists maps, row. split; [done|]. unfold excel_row in Hbody.
  destruct (all_falsy row); [done|]. destruct (is_duplicate _ _ _); [done|].
  by injection Hbody as <-.
Qed.


(** A successful result of a save shows the document built from the
    product at its index. *)
Lemma saved_product_origin user prods st st' total success failed results k r :
  bulk_save user prods st = (st', Ok (SaveReport total success failed results)) →
  results !! k = Some r → is_success r = true →
  ∃ prod slug id, prods !! k = Some prod
                  ∧ shown_as ["parentCategory"; "category"; "brand"]
                             (("_id", id) :: save_fields user prod slug) (sr_product r).
Proof.
  intros Hrun Hk Hs.
  assert (prods ≠ []) as Hne.
  { intros ->. by injection Hrun. }
  destruct (bulk_save_partition user prods st Hne) as (? & ? & ? & ? & Hrun' & (Hlen & _)).
  rewrite Hrun in Hrun'. injection Hrun' as _ _ _ _ <-.
  destruct (lookup_lt_is_Some_2 prods k) as [prod Hprod].
  { rewrite <- Hlen. eapply lookup_lt_Some, Hk. }
  destruct (bulk_save_turn _ _ _ _ _ _ _ _ _ _ Hrun Hprod)
    as (st0 & acc' & st1 & acc1 & st2 & acc2 & r0 & shown & _ & _ & Ht & Hr & _ & _ & Hsh
        & (_ & Hst & _ & Hshown & _) & _).
  rewrite Hk in Hsh. injection Hsh as <-.
  destruct (save_turn_cases user k prod acc1 st1) as [[reason Hc]|(slug & Hc & _)];
    rewrite Hc in Ht; injection Ht as <- <-; simpl in Hr;
    apply app_inv_head in Hr; injection Hr as <-.
  - unfold is_success in Hs. by rewrite Hst in Hs.
  - by exists prod, slug, (VId (next_id st1)).
Qed.

End Origins.

(** ** C6: the stock status of a candidate *)

(** A field name that is none of the listed ones. *)
Ltac not_listed := rewrite list_elem_of_In; simpl; intuition discriminate.

Lemma js_has_allowed v : js_has allowedStockStatus v = true → v ∈ allowedStockStatus.
Proof.
  destruct v; try done. unfold js_has, allowedStockStatus. simpl. rewrite orb_false_r.
  intros [->%String.eqb_eq|[->%String.eqb_eq| ->%String.eqb_eq]%orb_prop]%orb_prop; set_solver.
Qed.

Lemma falsy_not_allowed v : truthy v = false → js_has allowedStockStatus v = false.
Proof.
  destruct v; try done. simpl. intros ->%negb_false_iff%String.eqb_eq. done.
Qed.

Lemma canon_stock_spec v :
  canon_stock v ∈ allowedStockStatus
  ∧ canon_stock v = if js_has allowedStockStatus v then v else VStr "Available Product".
Proof.
  unfold canon_stock, js_or. destruct (truthy v) eqn:Ht.
  - destruct (js_has allowedStockStatus v) eqn:Hh; [|split; [set_solver|done]].
    split; [by apply js_has_allowed|done].
  - rewrite (falsy_not_allowed v Ht).
    change (js_has allowedStockStatus (VStr "Available Product")) with true. cbv iota.
    split; [set_solver|done].
Qed.

Section StockStatus.
Context {ext : Externals}.

(** C6. The stock status of every candidate is one of "Available
    Product", "Out of Stock" and "PreOrder": it is the value of the row
    the candidate was built from when that is one of the three, and
    "Available Product" when the value is absent or anything else. This
    holds for the products of both previews, which are, one by one and
    in order, the candidates of the rows that the report does not list
    as invalid, up to the display of their references, and for the
    documents saved by the save route, each of which is built from the
    product at its index. *)
Theorem stock_status_is_canonical user :
  (∀ v, canon_stock v ∈ allowedStockStatus
        ∧ canon_stock v = if js_has allowedStockStatus v then v else VStr "Available Product")
  ∧ (∀ rows st st' resp,
       bulk_preview user rows st = (st', Ok resp) →
       (∀ p, p ∈ pv_previewProducts resp → obj_get "stockStatus" p ∈ allowedStockStatus)
       ∧ ∃ maps,
           Forall2 (λ row p,
                      shown_as ["category"; "subCategory"; "brand"] (excel_candidate maps row) p
                      ∧ obj_get "stockStatus" p = canon_stock (obj_get "stockStatus" row))
                   (kept_from 0 (map remapRow rows) (pv_invalidRows resp))
                   (pv_previewProducts resp))
  ∧ (∀ rows st st' resp,
       bulk_preview_csv user rows st = (st', Ok resp) →
       (∀ p, p ∈ pv_previewProducts resp → obj_get "stockStatus" p ∈ allowedStockStatus)
       ∧ ∃ maps,
           Forall2 (λ row p,
                      (∃ slug, shown_as ["parentCategory"; "category"; "brand"]
                                        (csv_candidate maps row slug) p)
                      ∧ obj_get "stockStatus" p = canon_stock (obj_get "stockStatus" row))
                   (kept_from 0 rows (pv_invalidRows resp))
                   (pv_previewProducts resp))
  ∧ (∀ prods st st' total success failed results k r,
       bulk_save user prods st = (st', Ok (SaveReport total success failed results)) →
       results !! k = Some r → is_success r = true →
       obj_get "stockStatus" (sr_product r) ∈ allowedStockStatus
       ∧ ∃ prod, prods !! k = Some prod
                 ∧ obj_get "stockStatus" (sr_product r) = canon_stock (obj_get "stockStatus" prod)).
Proof.
  assert ("stockStatus" ∉ ["category"; "subCategory"; "brand"]) as Hx by not_listed.
  assert ("stockStatus" ∉ ["parentCategory"; "category"; "brand"]) as Hc by not_listed.
  split_and!.
  - apply canon_stock_spec.
  - intros rows st st' resp Hrun.
    destruct (excel_products_in_order _ _ _ _ _ Hrun) as (maps & Hall).
    assert (Forall2 (λ row p,
                       shown_as ["category"; "subCategory"; "brand"] (excel_candidate maps row) p
                       ∧ obj_get "stockStatus" p = canon_stock (obj_get "stockStatus" row))
                    (kept_from 0 (map remapRow rows) (pv_invalidRows resp))
                    (pv_previewProducts resp)) as Hstock.
    { eapply Forall2_impl; [exact Hall|]. intros row p Hshown. split; [done|].
      by rewrite (Hshown _ Hx). }
    split; [|by exists maps].
    intros p (k & Hk)%list_elem_of_lookup.
    destruct (Forall2_lookup_r _ _ _ _ _ Hstock Hk) as (row & _ & _ & ->).
    apply canon_stock_spec.
  - intros rows st st' resp Hrun.
    destruct (csv_products_in_order _ _ _ _ _ Hrun) as (maps & Hall).
    assert (Forall2 (λ row p,
                       (∃ slug, shown_as ["parentCategory"; "category"; "brand"]
                                         (csv_candidate maps row slug) p)
                       ∧ obj_get "stockStatus" p = canon_stock (obj_get "stockStatus" row))
                    (kept_from 0 rows (pv_invalidRows resp))
                    (pv_previewProducts resp)) as Hstock.
    { eapply Forall2_impl; [exact Hall|]. intros row p [slug Hshown]. split; [by exists slug|].
      by rewrite (Hshown _ Hc). }
    split; [|by exists maps].
    intros p (k & Hk)%list_elem_of_lookup.
    destruct (Forall2_lookup_r _ _ _ _ _ Hstock Hk) as (row & _ & _ & ->).
    apply canon_stock_spec.
  - intros prods st st' total success failed results k r Hrun Hk Hs.
    destruct (saved_product_origin _ _ _ _ _ _ _ _ _ _ Hrun Hk Hs) as (prod & slug & id & Hprod & Hshown).
    rewrite (Hshown _ Hc). change (obj_get "stockStatus" (("_id", id) :: save_fields user prod slug))
      with (canon_stock (obj_get "stockStatus" prod)).
    split; [apply canon_stock_spec|by exists prod].
Qed.

End StockStatus.

Lemma stock_status_is_canonical_witness :
  canon_stock (VStr "Backordered") = VStr "Available Product"
  ∧ canon_stock VUndef = VStr "Available Product"
  ∧ (∃ resp p, (bulk_preview (ext := integral) VUndef backordered_sheet small_store).2 = Ok resp
               ∧ pv_previewProducts resp = [p]
               ∧ obj_get "stockStatus" p ∈ allowedStockStatus)
  ∧ (∃ resp, (bulk_preview_csv (ext := integral) VUndef twice_named_csv small_store).2 = Ok resp
             ∧ ∀ p, p ∈ pv_previewProducts resp → obj_get "stockStatus" p ∈ allowedStockStatus)
  ∧ (∃ total success failed results r,
       (bulk_save (ext := integral) VUndef sample_products small_store).2
       = Ok (SaveReport total success failed results)
       ∧ results !! 1%nat = Some r
       ∧ obj_get "stockStatus" (sr_product r) ∈ allowedStockStatus).
Proof.
  destruct (stock_status_is_canonical (ext := integral) VUndef) as (Hv & Hx & Hc & Hs).
  split_and!.
  - by rewrite (proj2 (Hv (VStr "Backordered"))).
  - by rewrite (proj2 (Hv VUndef)).
  - eexists _, _. split; [vm_compute; reflexivity|]. split; [vm_compute; reflexivity|].
    eapply (Hx backordered_sheet small_store); [vm_compute; reflexivity|]. apply list_elem_of_here.
  - eexists. split; [vm_compute; reflexivity|]. intros p Hp.
    eapply (Hc twice_named_csv small_store); [vm_compute; reflexivity|exact Hp].
  - eexists _, _, _, _, _. split; [vm_compute; reflexivity|]. split; [vm_compute; reflexivity|].
    eapply proj1, (Hs sample_products small_store _ _ _ _ _ 1%nat);
      [vm_compute; reflexivity|reflexivity|reflexivity].
Defined.

(** ** C7: resolution of dimension names *)

Lemma set_add_elem x y s : x ∈ set_add y s ↔ x = y ∨ x ∈ s.
Proof.
  unfold set_add. case_bool_decide as Hy.
  - split; [by right|]. intros [->|?]; done.
  - rewrite elem_of_app, list_elem_of_singleton. tauto.
Qed.

Lemma unique_names_fold field rows : ∀ s x,
  x ∈ fold_left (fun s row =>
                   let v := obj_get field row in
                   if truthy v then set_add (trim (js_String v)) s else s) rows s
  ↔ x ∈ s ∨ ∃ row, row ∈ rows ∧ truthy (obj_get field row) = true
                    ∧ x = trim (js_String (obj_get field row)).
Proof.
  induction rows as [|row rows IH]; intros s x; simpl.
  - split; [by left|]. intros [?|(? & []%elem_of_nil & _)]. done.
  - rewrite IH. destruct (truthy (obj_get field row)) eqn:Ht.
    + rewrite set_add_elem. split.
      * intros [[->|?]|(r & ? & ? & ?)]; [right|by left|right].
        -- exists row. split; [apply list_elem_of_here|done].
        -- exists r. split; [by apply list_elem_of_further|done].
      * intros [?|(r & [->|?]%elem_of_cons & ? & ?)]; [by left; right|by left; left|right; eauto].
    + split.
      * intros [?|(r & ? & ? & ?)]; [by left|right]. exists r. split; [by apply list_elem_of_further|done].
      * intros [?|(r & [->|?]%elem_of_cons & ? & ?)]; [by left|congruence|right; eauto].
Qed.

Lemma unique_names_elem field rows row :
  row ∈ rows → truthy (obj_get field row) = true →
  trim (js_String (obj_get field row)) ∈ unique_names field rows.
Proof. intros Hrow Ht. apply unique_names_fold. right. eauto. Qed.

Section Resolution.
Context {ext : Externals}.

Lemma create_missing_dom k mk names : ∀ m st st' m',
  create_missing k mk names m st = (st', Ok m') →
  (∀ key, is_Some (m !! key) → is_Some (m' !! key))
  ∧ (∀ name, name ∈ names → is_Some (m' !! toLowerCase (trim name))).
Proof.
  induction names as [|name names IH]; intros m st st' m'; simpl.
  - intros [= <- <-]. split; [done|]. by intros ? ?%elem_of_nil.
  - destruct (m !! toLowerCase (trim name)) as [id|] eqn:Hm.
    + intros [Hkeep Hnew]%IH. split; [done|].
      intros n [->|?]%elem_of_cons; [apply Hkeep; by rewrite Hm|by apply Hnew].
    + intros (st1 & id & _ & [Hkeep Hnew]%IH)%bind_ok.
      assert (∀ key, is_Some (m !! key) → is_Some (m' !! key)) as Hkeep'.
      { intros key Hkey. apply Hkeep. rewrite lookup_insert. by case_decide. }
      split; [done|].
      intros n [->|?]%elem_of_cons; [|by apply Hnew].
      apply Hkeep. by rewrite lookup_insert_eq.
Qed.

Lemma resolved_names k mk field rows m0 st st' m :
  create_missing k mk (unique_names field rows) m0 st = (st', Ok m) → resolves field rows m.
Proof.
  intros [_ Hnew]%create_missing_dom row Hrow Ht.
  destruct (Hnew _ (unique_names_elem field rows row Hrow Ht)) as [id Hid].
  rewrite trim_idem in Hid. fold (norm_key (obj_get field row)) in Hid.
  exists id. split; [done|].
  intros row2 _ Ht2 Hsame. unfold dim_get, map_get. by rewrite Ht2, Hsame, Hid.
Qed.

End Resolution.

Section ResolutionOfRoutes.
Context {ext : Externals}.

Lemma resolve_excel_resolves user rows st st' maps :
  resolve_excel user rows st = (st', Ok maps) →
  ∀ field m, (field, m) ∈ excel_dimensions → resolves field rows (m maps).
Proof.
  unfold resolve_excel. intros Hr.
  do 9 (let Hf := fresh "Hf" in step_bind Hr as Hf; apply find_run in Hf; subst).
  step_bind Hr as Hc1. step_bind Hr as Hc2. step_bind Hr as Hc3.
  step_bind Hr as Hc4. step_bind Hr as Hc5. step_bind Hr as Hc6.
  step_bind Hr as Hc7. step_bind Hr as Hc8. step_bind Hr as Hc9.
  injection Hr as _ <-.
  intros field m Hin. rewrite list_elem_of_In in Hin. simpl in Hin.
  repeat (destruct Hin as [Hin|Hin];
          [injection Hin as <- <-; simpl; eauto using resolved_names|]).
  done.
Qed.

Lemma resolve_csv_resolves user rows st st' maps :
  resolve_csv user rows st = (st', Ok maps) →
  ∀ field m, (field, m) ∈ csv_dimensions → resolves field rows (m maps).
Proof.
  unfold resolve_csv. intros Hr.
  do 5 (let Hf := fresh "Hf" in step_bind Hr as Hf; apply find_run in Hf; subst).
  step_bind Hr as Hc1. step_bind Hr as Hc2. step_bind Hr as Hc3.
  step_bind Hr as Hc4. step_bind Hr as Hc5.
  injection Hr as _ <-.
  intros field m Hin. rewrite list_elem_of_In in Hin. simpl in Hin.
  repeat (destruct Hin as [Hin|Hin];
          [injection Hin as <- <-; simpl; eauto using resolved_names|]).
  done.
Qed.

(** C7. After the resolution phase of a preview, for every dimension kind
    the map has an entry for the trimmed, lower-cased form of every name
    that occurs in the rows, and two occurrences with the same form
    resolve to the same identifier. The phase completes whenever the
    store accepts the documents it creates. *)
Theorem every_name_resolves user rows st :
  (∀ st' maps field m,
     resolve_excel user rows st = (st', Ok maps) →
     (field, m) ∈ excel_dimensions → resolves field rows (m maps))
  ∧ (∀ st' maps field m,
       resolve_csv user rows st = (st', Ok maps) →
       (field, m) ∈ csv_dimensions → resolves field rows (m maps))
  ∧ ((∀ k coll doc, entity_rejects k coll doc = None) →
     (∃ st' maps, resolve_excel user rows st = (st', Ok maps))
     ∧ (∃ st' maps, resolve_csv user rows st = (st', Ok maps))).
Proof.
  split_and!.
  - intros st' maps field m Hr. apply (resolve_excel_resolves _ _ _ _ _ Hr).
  - intros st' maps field m Hr. apply (resolve_csv_resolves _ _ _ _ _ Hr).
  - intros Hok. split; [by apply resolve_excel_total|by apply resolve_csv_total].
Qed.

End ResolutionOfRoutes.

Lemma every_name_resolves_witness :
  (∃ maps id, (resolve_excel (ext := integral) VUndef dimension_sheet small_store).2 = Ok maps
              ∧ x_categoryMap maps !! "phones" = Some id
              ∧ dim_get (ext := integral) (x_categoryMap maps) (VStr "Phones") = VId id
              ∧ dim_get (ext := integral) (x_categoryMap maps) (VStr "phones ") = VId id)
  ∧ (∃ maps, (resolve_csv (ext := integral) VUndef dimension_sheet small_store).2 = Ok maps
             ∧ resolves (ext := integral) "brand" dimension_sheet (c_brandMap maps)).
Proof.
  destruct (every_name_resolves (ext := integral) VUndef dimension_sheet small_store)
    as (Hx & Hc & Htotal).
  destruct Htotal as [(st1 & maps1 & Hr1) (st2 & maps2 & Hr2)]; [done|].
  split.
  - destruct (Hx st1 maps1 "category" x_categoryMap Hr1) with (row := [("name", VStr "B"); ("category", VStr "Phones"); ("brand", VStr "ACME")])
      as (id & Hid & Hsame).
    + rewrite list_elem_of_In. simpl. tauto.
    + rewrite list_elem_of_In. simpl. tauto.
    + reflexivity.
    + exists maps1, id. rewrite Hr1. split_and!; [done|exact Hid| |].
      * apply (Hsame [("name", VStr "B"); ("category", VStr "Phones"); ("brand", VStr "ACME")]);
          [rewrite list_elem_of_In; simpl; tauto|reflexivity|reflexivity].
      * apply (Hsame [("name", VStr "C"); ("category", VStr "phones "); ("unit", VNum 12)]);
          [rewrite list_elem_of_In; simpl; tauto|reflexivity|reflexivity].
  - exists maps2. rewrite Hr2. split; [done|].
    apply (Hc st2 maps2 "brand" c_brandMap Hr2). rewrite list_elem_of_In. simpl. tauto.
Defined.

(** ** C8: defaults of the boolean-like fields *)







Section FlagDefaults.
Context {ext : Externals}.



End FlagDefaults.



(** ** C9: a failed save stays local *)

Section LocalFailure.
Context {ext : Externals}.

(** The turn of a product that passes every check and is then refused by
    [product.save()]. *)
Lemma save_turn_refused user i prod acc st slug msg :
  all_falsy prod = false →
  existsb (matches prod) (products st) = false →
  truthy (obj_get "name" prod) = true →
  truthy (obj_get "parentCategory" prod) = true →
  slug_or_generated (obj_get "slug" prod) (obj_get "name" prod) = Ok slug →
  product_rejects (products st) (save_fields user prod slug) = Some msg →
  save_turn user i prod acc st = (st, Ok (push_failed acc i msg prod)).
Proof.
  intros He Hm%find_existsb Hn Hp Hslug Hrej.
  unfold save_turn, try_catch, save_try. rewrite He.
  unfold bind, findOne_product, lift, save_product. cbn beta iota.
  unfold matches in Hm. rewrite Hm, Hn, Hp, Hslug. cbn [negb orb]. by rewrite Hrej.
Qed.

(** C9. In save mode a product that [product.save()] refuses gets a
    failed result carrying the message of the error; the loop then goes
    on with the remaining products in the unchanged store, and the reply
    to a non-empty list always has one result for every product. *)
Theorem save_failure_is_local user :
  (∀ prods st,
     prods ≠ [] →
     ∃ st' success failed results,
       bulk_save user prods st = (st', Ok (SaveReport (length prods) success failed results))
       ∧ length results = length prods)
  ∧ (∀ i prod rest acc st slug msg,
       all_falsy prod = false →
       existsb (matches prod) (products st) = false →
       truthy (obj_get "name" prod) = true →
       truthy (obj_get "parentCategory" prod) = true →
       slug_or_generated (obj_get "slug" prod) (obj_get "name" prod) = Ok slug →
       product_rejects (products st) (save_fields user prod slug) = Some msg →
       save_loop user i (prod :: rest) acc st
       = save_loop user (S i) rest (push_failed acc i msg prod) st)
  ∧ (∀ prods st st' total success failed results i prod st1 acc1 slug msg,
       bulk_save user prods st = (st', Ok (SaveReport total success failed results)) →
       prods !! i = Some prod →
       save_loop user 0 (take i prods) (mkAcc [] 0 0) st = (st1, Ok acc1) →
       all_falsy prod = false →
       existsb (matches prod) (products st1) = false →
       truthy (obj_get "name" prod) = true →
       truthy (obj_get "parentCategory" prod) = true →
       slug_or_generated (obj_get "slug" prod) (obj_get "name" prod) = Ok slug →
       product_rejects (products st1) (save_fields user prod slug) = Some msg →
       length results = length prods
       ∧ ∃ r, results !! i = Some r ∧ sr_index r = i ∧ is_failed r = true
              ∧ sr_reason r = Some msg ∧ sr_product r = prod).
Proof.
  split_and!.
  - intros prods st Hne.
    destruct (bulk_save_partition user prods st Hne) as (st' & s & f & results & Hrun & Hlen & _).
    by exists st', s, f, results.
  - intros i prod rest acc st slug msg He Hm Hn Hp Hslug Hrej. simpl.
    by rewrite (bind_run _ _ _ _ _ (save_turn_refused user i prod acc st slug msg He Hm Hn Hp Hslug Hrej)).
  - intros prods st st' total success failed results i prod st1 acc1 slug msg
      Hrun Hi Htake He Hm Hn Hp Hslug Hrej.
    assert (prods ≠ []) as Hne by (intros ->; done).
    destruct (bulk_save_partition user prods st Hne) as (? & ? & ? & ? & Hrun' & Hlen & _).
    rewrite Hrun in Hrun'. injection Hrun' as _ _ _ _ <-. split; [done|].
    destruct (bulk_save_turn _ _ _ _ _ _ _ _ _ _ Hrun Hi)
      as (st0 & acc' & st1' & acc1' & st2 & acc2 & r & shown & _ & Htake' & Ht & Hr & _ & _ & Hs
          & (Hidx & Hst & Hre & _ & Hprod) & _).
    rewrite Htake in Htake'. injection Htake' as <- <-.
    rewrite (save_turn_refused user i prod acc1 st1 slug msg He Hm Hn Hp Hslug Hrej) in Ht.
    injection Ht as _ <-. simpl in Hr. apply app_inv_head in Hr. injection Hr as <-.
    exists shown. unfold is_failed. rewrite Hidx, Hst, Hre. split_and!; try done. by apply Hprod.
Qed.

End LocalFailure.

Lemma save_failure_is_local_witness :
  ∃ success failed r0 r1 r2 r3,
    (bulk_save (ext := sku_required) VUndef sample_products small_store).2
    = Ok (SaveReport 4 success failed [r0; r1; r2; r3])
    ∧ sr_reason r0 = Some "Product validation failed: sku is required"
    ∧ is_success r1 = true.
Proof.
  destruct (save_failure_is_local (ext := sku_required) VUndef) as (_ & _ & Hlocal).
  edestruct Hlocal with (prods := sample_products) (st := small_store) (i := 0%nat) (slug := VStr "widget-pro")
    as (Hlen & r & Hr & Hidx & Hf & Hre & Hp);
    [vm_compute; reflexivity|reflexivity|reflexivity|reflexivity|reflexivity|reflexivity
    |reflexivity|reflexivity|reflexivity|].
  injection Hr as <-.
  eexists _, _, _, _, _, _. split; [vm_compute; reflexivity|]. split; [exact Hre|reflexivity].
Defined.

(** ** C10: the subcategory is mirrored *)

Section Mirror.
Context {ext : Externals}.

Lemma create_fields_category user body id :
  obj_get "category" (("_id", id) :: create_fields user body) = obj_get "category" body.
Proof.
  unfold create_fields. cbn [obj_get String.eqb Ascii.eqb Bool.eqb].
  rewrite obj_get_set_ne by done. rewrite obj_get_set_ne by done. apply obj_get_set_eq.
Qed.

Lemma create_fields_subCategory user body id :
  obj_get "subCategory" (("_id", id) :: create_fields user body)
  = js_or (obj_get "category" body) VUndef.
Proof.
  unfold create_fields. cbn [obj_get String.eqb Ascii.eqb Bool.eqb].
  rewrite obj_get_set_ne by done. apply obj_get_set_eq.
Qed.

(** The checks that precede the save leave the store as it is. *)
Lemma create_product_inv user body st st' doc :
  create_product user body st = (st', Ok doc) →
  save_product (create_fields user body) st = (st', Ok doc).
Proof.
  unfold create_product. intros Hr.
  step_bind Hr as H1. step_bind Hr as H2. step_bind Hr as H3.
  assert (st0 = st) as ->.
  { unfold bind, findById, ret, throw in H1. repeat case_match; by simplify_eq. }
  assert (st1 = st) as ->.
  { unfold bind, findById, ret, throw in H2. repeat case_match; by simplify_eq. }
  assert (st2 = st) as ->.
  { unfold bind, findOne_slug, ret, throw in H3. repeat case_match; by simplify_eq. }
  done.
Qed.

(** C10 (amended). Every document stored by the bulk save has its
    subCategory equal to its category. A document stored by the
    single-product create route keeps the submitted category, and its
    subCategory is that category when it is truthy and undefined
    otherwise; the two are equal when a subcategory was given or the
    category is absent. *)
Theorem sub_category_mirrors_category user :
  (∀ prods st st' reply,
     bulk_save user prods st = (st', Ok reply) →
     ∃ docs, products st' = (products st ++ docs)%list
             ∧ ∀ d, d ∈ docs → obj_get "subCategory" d = obj_get "category" d)
  ∧ (∀ body st st' doc,
       create_product user body st = (st', Ok doc) →
       products st' = (products st ++ [doc])%list
       ∧ obj_get "category" doc = obj_get "category" body
       ∧ obj_get "subCategory" doc
         = (if truthy (obj_get "category" body) then obj_get "category" body else VUndef)
       ∧ (truthy (obj_get "category" body) = true ∨ obj_get "category" body = VUndef →
          obj_get "subCategory" doc = obj_get "category" doc)).
Proof.
  split.
  - intros prods st st' reply Hrun. destruct prods as [|prod rest].
    { injection Hrun as <- _. exists []. rewrite app_nil_r. split; [done|]. by intros ? ?%elem_of_nil. }
    destruct (bulk_save_run user (prod :: rest) st) as (st0 & acc' & new & results & Hl & _ & _ & Hrun'); [done|].
    rewrite Hrun in Hrun'. injection Hrun' as -> _.
    destruct (save_loop_spec user (prod :: rest) 0 (mkAcc [] 0 0) st)
      as (? & ? & ? & Hl' & _ & _ & _ & Hdocs & _).
    rewrite Hl in Hl'. by injection Hl' as <- _.
  - intros body st st' doc Hsave%create_product_inv. unfold save_product in Hsave.
    destruct (product_rejects _ _); [done|]. injection Hsave as <- <-. simpl products.
    rewrite create_fields_category, create_fields_subCategory. unfold js_or.
    split_and!; try done.
    intros [-> | ->]; done.
Qed.

End Mirror.

Lemma sub_category_mirrors_category_witness :
  (∃ st' reply docs,
     bulk_save (ext := sku_required) VUndef sample_products small_store = (st', Ok reply)
     ∧ products st' = (products small_store ++ docs)%list
     ∧ ∀ d, d ∈ docs → obj_get "subCategory" d = obj_get "category" d)
  ∧ (∃ st' doc,
       create_product (ext := integral) VUndef
         [("name", VStr "Widget Pro"); ("parentCategory", VId 0)] small_store = (st', Ok doc)
       ∧ obj_get "subCategory" doc = obj_get "category" doc).
Proof.
  destruct (sub_category_mirrors_category (ext := sku_required) VUndef) as (Hs & _).
  destruct (sub_category_mirrors_category (ext := integral) VUndef) as (_ & Hc).
  split.
  - edestruct (Hs sample_products small_store) as (docs & Hdocs & Hsub); [vm_compute; reflexivity|].
    eexists _, _, docs. split; [vm_compute; reflexivity|]. by split.
  - edestruct (Hc [("name", VStr "Widget Pro"); ("parentCategory", VId 0)] small_store)
      as (_ & _ & _ & Heq); [vm_compute; reflexivity|].
    eexists _, _. split; [vm_compute; reflexivity|]. apply Heq. by right.
Defined.

(** A product created with [category: null] is stored with category
    null and subCategory undefined. *)
Lemma null_category_is_not_mirrored :
  ∃ st' doc,
    create_product (ext := integral) VUndef
      [("name", VStr "Widget Pro"); ("parentCategory", VId 0); ("category", VNull)] small_store
    = (st', Ok doc)
    ∧ doc ∈ products st'
    ∧ obj_get "category" doc = VNull
    ∧ obj_get "subCategory" doc = VUndef
    ∧ obj_get "subCategory" doc ≠ obj_get "category" doc.
Proof.
  eexists _, _. split; [vm_compute; reflexivity|].
  split; [|by vm_compute].
  simpl. do 1 apply list_elem_of_further. apply list_elem_of_here.
Qed.

(** * Further properties *)

(** ** Slugs *)

Lemma hyphen1 : space1 "-" = false.
Proof. reflexivity. Qed.

Lemma hyphen_second c : space2 c "-" = false.
Proof. unfold space2. simpl. apply andb_false_r. Qed.

Lemma hyphen_first d : space2 "-" d = false.
Proof. reflexivity. Qed.

Lemma hyphen_third c d : space3 c d "-" = false.
Proof.
  unfold space3. cbn [N_of_ascii]. simpl.
  destruct (N_of_ascii c =? 225)%N, (N_of_ascii c =? 226)%N, (N_of_ascii c =? 227)%N,
    (N_of_ascii c =? 239)%N, (N_of_ascii d =? 154)%N, (N_of_ascii d =? 128)%N,
    (N_of_ascii d =? 129)%N, (N_of_ascii d =? 187)%N; reflexivity.
Qed.

Lemma hyphen_mid c f : space3 c "-" f = false.
Proof.
  unfold space3. simpl.
  destruct (N_of_ascii c =? 225)%N, (N_of_ascii c =? 226)%N, (N_of_ascii c =? 227)%N,
    (N_of_ascii c =? 239)%N; reflexivity.
Qed.

Lemma hyphen_lead d f : space3 "-" d f = false.
Proof. reflexivity. Qed.

Lemma space_len_hyphen s : space_len (String "-" s) = 0%nat.
Proof. by destruct s as [|d [|f r]]. Qed.

(** The output of a replacement that is not inside a run starts with a
    hyphen or with the first byte of the input, copied. *)
Lemma replace_head r :
  match replace_spaces 0 false r with
  | EmptyString => r = ""
  | String d o =>
      d = "-"%char
      ∨ ∃ r', r = String d r' ∧ space_len r = 0%nat ∧ o = replace_spaces 0 false r'
  end.
Proof.
  destruct r as [|c r]; [done|]. simpl.
  destruct (space_len (String c r)) as [|j] eqn:Hj; [|by left].
  right. by exists r.
Qed.

Lemma copied_no_space c r :
  space_len (String c r) = 0%nat → space_len (String c (replace_spaces 0 false r)) = 0%nat.
Proof.
  intros Hc. pose proof (replace_head r) as H1.
  destruct (replace_spaces 0 false r) as [|d o] eqn:Ho.
  - subst r. done.
  - destruct H1 as [->|(r' & -> & Hr & ->)].
    + unfold space_len in *. destruct (space1 c); [done|]. rewrite hyphen_second.
      destruct o; [done|]. by rewrite hyphen_mid.
    + pose proof (replace_head r') as H2.
      destruct (replace_spaces 0 false r') as [|f o'] eqn:Ho'.
      * subst r'. done.
      * destruct H2 as [->|(r'' & -> & _ & _)].
        -- unfold space_len in *. destruct (space1 c); [done|]. destruct (space2 c d); [done|].
           by rewrite hyphen_third.
        -- exact Hc.
Qed.

Lemma replace_no_space s : ∀ k b, has_space (replace_spaces k b s) = false.
Proof.
  induction s as [|c r IH]; intros k b; [done|]. simpl.
  destruct k as [|k]; [|apply IH].
  destruct (space_len (String c r)) as [|j] eqn:Hj.
  - cbn [has_space]. rewrite (copied_no_space _ _ Hj), IH. done.
  - destruct b; [apply IH|]. cbn [has_space]. by rewrite space_len_hyphen, IH.
Qed.

(** X1. A generated slug contains no white space, whatever the name and
    whatever the case mapping of the runtime: none of the white-space
    characters that [trim] and [\s] know starts anywhere in it. *)
Theorem generateSlug_has_no_space {ext : Externals} name : has_space (generateSlug name) = false.
Proof. apply replace_no_space. Qed.

(** ** Tags *)

Lemma js_String_strings l : js_String (VArr (map VStr l)) = join_comma l.
Proof.
  induction l as [|x l IH]; [done|]. destruct l as [|y l]; [done|].
  change (js_String (VArr (map VStr (x :: y :: l))))
    with (x ++ "," ++ js_String (VArr (map VStr (y :: l)))).
  by rewrite IH.
Qed.

Lemma split_comma_cons s : ∃ x xs, split_comma s = x :: xs.
Proof. induction s as [|c r (x & xs & IH)]; simpl; [eauto|]. destruct (Ascii.eqb c ","); rewrite ?IH; eauto. Qed.

Lemma join_split_comma s : join_comma (split_comma s) = s.
Proof.
  induction s as [|c r IH]; [done|]. simpl.
  destruct (split_comma_cons r) as (x & xs & Hr). rewrite Hr in *.
  destruct (Ascii.eqb_spec c ",") as [->|_].
  - change (join_comma ("" :: x :: xs)) with ("," ++ join_comma (x :: xs)). by rewrite IH.
  - destruct xs as [|y ys]; [simpl in *; by rewrite IH|].
    change (join_comma (String c x :: y :: ys)) with (String c (join_comma (x :: y :: ys))).
    by rewrite IH.
Qed.

Lemma split_comma_free s : Forall (λ part, comma_free part = true) (split_comma s).
Proof.
  induction s as [|c r IH]; simpl; [by constructor|].
  destruct (Ascii.eqb c ",") eqn:Hc; [by constructor|].
  destruct (split_comma r) as [|x xs]; [constructor; [simpl; by rewrite Hc|done]|].
  inversion IH as [|? ? Hx Hxs]; subst. constructor; [simpl; by rewrite Hc|done].
Qed.

Lemma split_comma_pieces s : comma_pieces s (split_comma s).
Proof.
  split_and!; [|apply split_comma_free|apply join_split_comma].
  destruct (split_comma_cons s) as (x & xs & ->). done.
Qed.

Lemma join_comma_cons x xs :
  join_comma (x :: xs) = x ++ match xs with [] => "" | _ => "," ++ join_comma xs end.
Proof.
  destruct xs as [|y ys]; [|done]. simpl. induction x as [|c x IH]; [done|].
  change (String c x = String c (x ++ "")). by f_equal.
Qed.

Lemma first_piece x x' t t' :
  comma_free x = true → comma_free x' = true →
  (t = "" ∨ ∃ r, t = String "," r) → (t' = "" ∨ ∃ r, t' = String "," r) →
  x ++ t = x' ++ t' → x = x' ∧ t = t'.
Proof.
  revert x'. induction x as [|c x IH]; intros [|c' x'] Hx Hx' Ht Ht'.
  - done.
  - change ("" ++ t) with t. change (String c' x' ++ t') with (String c' (x' ++ t')).
    intros ->. destruct Ht as [?|[r [= -> _]]]; [done|]. by simpl in Hx'.
  - change ("" ++ t') with t'. change (String c x ++ t) with (String c (x ++ t)).
    intros <-. destruct Ht' as [?|[r [= -> _]]]; [done|]. by simpl in Hx.
  - change (String c x ++ t) with (String c (x ++ t)).
    change (String c' x' ++ t') with (String c' (x' ++ t')).
    intros [= -> Heq]. simpl in Hx, Hx'.
    apply andb_prop in Hx as [_ Hx]. apply andb_prop in Hx' as [_ Hx'].
    destruct (IH x' Hx Hx' Ht Ht' Heq) as [-> ->]. done.
Qed.

(** A text has one list of pieces. *)
Lemma comma_pieces_unique text parts parts' :
  comma_pieces text parts → comma_pieces text parts' → parts = parts'.
Proof.
  intros (Hne & Hfree & Hjoin) (Hne' & Hfree' & Hjoin'). subst text.
  revert parts' Hne' Hfree' Hjoin'.
  induction parts as [|x xs IH]; intros [|x' xs'] Hne' Hfree' Hjoin'; try done.
  inversion Hfree as [|? ? Hx Hxs]; subst. inversion Hfree' as [|? ? Hx' Hxs']; subst.
  rewrite !join_comma_cons in Hjoin'.
  assert (∀ l, match l with [] => "" | _ => "," ++ join_comma l end = ""
               ∨ ∃ r, match l with [] => "" | _ => "," ++ join_comma l end = String "," r)
    as Htail.
  { intros [|? ?]; [by left|right; eexists; reflexivity]. }
  destruct (first_piece x' x _ _ Hx' Hx (Htail xs') (Htail xs) Hjoin') as [-> Ht].
  destruct xs as [|y ys], xs' as [|y' ys']; try done.
  f_equal. apply IH; [done|done|done|done|].
  by injection Ht.
Qed.

Section Tags.
Context {ext : Externals}.

(** X3. The tags of a spreadsheet candidate are the pieces of the text
    of the tags cell between its commas, kept as they are: each piece is
    free of commas, joined by commas the pieces give the text back, and
    no other list of pieces does. A falsy cell gives no tags. The cell
    is a string, a number or another plain value, as a sheet has them. *)
Theorem excel_tags_are_the_pieces maps row :
  primitive (obj_get "tags" row) = true →
  (truthy (obj_get "tags" row) = true →
   ∃ parts,
     obj_get "tags" (excel_candidate maps row) = VArr (map VStr parts)
     ∧ comma_pieces (js_String (obj_get "tags" row)) parts
     ∧ ∀ parts', comma_pieces (js_String (obj_get "tags" row)) parts' → parts' = parts)
  ∧ (truthy (obj_get "tags" row) = false →
     obj_get "tags" (excel_candidate maps row) = VArr []).
Proof.
  intros _.
  change (obj_get "tags" (excel_candidate maps row)) with (comma_list (obj_get "tags" row)).
  unfold comma_list. split; intros ->; [|done].
  exists (split_comma (js_String (obj_get "tags" row))).
  split_and!; [done|apply split_comma_pieces|].
  intros parts' Hp. eapply comma_pieces_unique; [exact Hp|apply split_comma_pieces].
Qed.

(** X4. The tags of a CSV candidate are the pieces of the text of the
    tags cell between its commas, each with the white space at its two
    ends removed. The cell is a string, a number or another plain value,
    not an array or an object. *)
Theorem csv_tags_are_the_trimmed_pieces maps row slug :
  primitive (obj_get "tags" row) = true →
  truthy (obj_get "tags" row) = true →
  ∃ parts,
    obj_get "tags" (csv_candidate maps row slug) = VArr (map VStr (map trim parts))
    ∧ comma_pieces (js_String (obj_get "tags" row)) parts
    ∧ (∀ parts', comma_pieces (js_String (obj_get "tags" row)) parts' → parts' = parts)
    ∧ Forall trimmed (map trim parts).
Proof.
  intros _.
  change (obj_get "tags" (csv_candidate maps row slug)) with (trimmed_comma_list (obj_get "tags" row)).
  unfold trimmed_comma_list. intros ->.
  exists (split_comma (js_String (obj_get "tags" row))). split_and!.
  - by rewrite map_map.
  - apply split_comma_pieces.
  - intros parts' Hp. eapply comma_pieces_unique; [exact Hp|apply split_comma_pieces].
  - apply Forall_forall. intros t (x & -> & _)%list_elem_of_fmap. apply trim_idem.
Qed.

End Tags.

Lemma excel_tags_are_the_pieces_witness :
  obj_get "tags" (excel_candidate (ext := integral)
                    (mkExcelMaps ∅ ∅ ∅ ∅ ∅ ∅ ∅ ∅ ∅)
                    [("name", VStr "Widget"); ("tags", VStr "new, sale")])
  = VArr [VStr "new"; VStr " sale"].
Proof.
  destruct (excel_tags_are_the_pieces (ext := integral) (mkExcelMaps ∅ ∅ ∅ ∅ ∅ ∅ ∅ ∅ ∅)
              [("name", VStr "Widget"); ("tags", VStr "new, sale")] eq_refl) as [Hsome _].
  destruct (Hsome eq_refl) as (parts & Htags & _ & Honly).
  rewrite Htags, <- (Honly ["new"; " sale"]); [done|].
  split_and!; [done|by repeat constructor|done].
Defined.

Lemma csv_tags_are_the_trimmed_pieces_witness :
  obj_get "tags" (csv_candidate (ext := integral) (mkCsvMaps ∅ ∅ ∅ ∅ ∅)
                    [("name", VStr "Widget"); ("tags", VStr "new, sale")] (VStr "widget"))
  = VArr [VStr "new"; VStr "sale"].
Proof.
  destruct (csv_tags_are_the_trimmed_pieces (ext := integral) (mkCsvMaps ∅ ∅ ∅ ∅ ∅)
              [("name", VStr "Widget"); ("tags", VStr "new, sale")] (VStr "widget")
              eq_refl eq_refl)
    as (parts & Htags & _ & Honly & _).
  rewrite Htags, <- (Honly ["new"; " sale"]); [done|].
  split_and!; [done|by repeat constructor|done].
Defined.

(** ** The shape of a mapped row *)

Lemma obj_set_keys k v o :
  obj_keys (obj_set k v o)
  = if bool_decide (k ∈ obj_keys o) then obj_keys o else (obj_keys o ++ [k])%list.
Proof.
  unfold obj_keys. induction o as [|[k' v'] o IH]; simpl; [done|].
  destruct (String.eqb_spec k k') as [->|Hne]; simpl.
  - rewrite bool_decide_eq_true_2; [done|apply list_elem_of_here].
  - rewrite IH. case_bool_decide as Hin.
    + rewrite bool_decide_eq_true_2; [done|by apply list_elem_of_further].
    + rewrite bool_decide_eq_false_2; [done|].
      intros [?|?]%elem_of_cons; done.
Qed.

Lemma obj_set_NoDup k v o : NoDup (obj_keys o) → NoDup (obj_keys (obj_set k v o)).
Proof.
  intros Hnd. rewrite obj_set_keys. case_bool_decide as Hin; [done|].
  apply NoDup_app. split_and!; [done| |apply NoDup_singleton].
  intros x Hx ->%list_elem_of_singleton. done.
Qed.

Lemma obj_set_keys_elem k v o x : x ∈ obj_keys (obj_set k v o) → x = k ∨ x ∈ obj_keys o.
Proof.
  rewrite obj_set_keys. case_bool_decide; [by right|].
  intros [?|Hx%list_elem_of_singleton]%elem_of_app; [by right|by left].
Qed.

Lemma remap_loop_keys row : ∀ acc,
  NoDup (obj_keys acc.1) →
  (∀ k, k ∈ obj_keys acc.1 → ∃ header, excelToBackendKey header = Some k) →
  NoDup (obj_keys (fold_left remap_step row acc).1)
  ∧ ∀ k, k ∈ obj_keys (fold_left remap_step row acc).1 →
         ∃ header, excelToBackendKey header = Some k.
Proof.
  induction row as [|[key v] row IH]; intros [mapped specs] Hnd Hback; simpl; [done|].
  apply IH; destruct (excelToBackendKey (trim key)) as [b|] eqn:Hb; simpl;
    try done; try (by destruct (spec_worthy v)).
  - by apply obj_set_NoDup.
  - intros k [->|Hk]%obj_set_keys_elem; [eauto|by apply Hback].
Qed.

Lemma remapRow_keys_spec row :
  NoDup (obj_keys (remapRow row))
  ∧ ∀ k, k ∈ obj_keys (remapRow row) → ∃ header, excelToBackendKey header = Some k.
Proof.
  unfold remapRow, remap_loop.
  destruct (remap_loop_keys row ([], [])) as [Hnd Hback].
  { apply NoDup_nil_2. }
  { by intros k ?%elem_of_nil. }
  destruct (fold_left remap_step row ([], [])) as [mapped [|s specs]]; simpl in *; [done|].
  split; [by apply obj_set_NoDup|].
  intros k [->|Hk]%obj_set_keys_elem; [by exists "specifications"|by apply Hback].
Qed.

(** X5. A mapped row is a well-formed object: no key occurs twice,
    whatever aliases or repeated headers the sheet has, and every key is
    a backend field of the column table or the text under which a header
    that spells an inherited member of the table object is stored. *)
Theorem remapRow_keys row :
  NoDup (obj_keys (remapRow row))
  ∧ ∀ k, k ∈ obj_keys (remapRow row) →
         k ∈ backend_fields ∨ ∃ member, inherited_member member = Some k.
Proof.
  destruct (remapRow_keys_spec row) as [Hnd Hback]. split; [done|].
  intros k [header Hh]%Hback. unfold excelToBackendKey in Hh.
  repeat case_match; simplify_eq;
    first [left; rewrite list_elem_of_In; simpl; tauto|right; by exists header].
Qed.

Lemma remapRow_keys_witness :
  obj_keys (remapRow [("selling_price", VNum 1); (" selling_price", VNum 2);
                      ("constructor", VNum 0)])
  = ["price"; "function Object() { [native code] }"]
  ∧ "price" ∈ backend_fields.
Proof.
  destruct (remapRow_keys [("selling_price", VNum 1); (" selling_price", VNum 2);
                           ("constructor", VNum 0)]) as [_ Hback].
  split; [reflexivity|].
  destruct (Hback "price") as [Hin|[member Hm]]; [rewrite list_elem_of_In; simpl; tauto|exact Hin|].
  unfold inherited_member in Hm. repeat case_match; discriminate.
Defined.





(** ** What resolution writes *)

Section ResolutionWrites.
Context {ext : Externals}.

Lemma create_effect k doc st st' r :
  create k doc st = (st', r) →
  (st' = st ∧ ∃ msg, r = Thrown msg)
  ∨ (appends k [mkEntity (next_id st) doc] st st' ∧ r = Ok (next_id st)
     ∧ next_id st' = S (next_id st)).
Proof.
  unfold create. destruct (entity_rejects _ _ _) as [msg|].
  - intros [= <- <-]. left. eauto.
  - intros [= <- <-]. right. split; [|done]. unfold appends. simpl. split_and!; [|intros k' Hk|done].
    + by rewrite decide_True.
    + by rewrite decide_False.
Qed.

(** Resolution of one kind, whether it completes or throws: it keeps
    every stored document, appends the documents it creates, each built
    by [mk] from one of the names, and the keys of the created documents
    are new to the map and differ from each other. *)
Lemma create_missing_effect k mk names :
  (∀ name, ent_name (mkEntity 0 (mk name)) = trim name) →
  ∀ m st st' r,
  create_missing k mk names m st = (st', r) →
  ∃ created,
    appends k created st st'
    ∧ next_id st' = (next_id st + length created)%nat
    ∧ map ent_id created = seq (next_id st) (length created)
    ∧ Forall (λ e, ∃ name, name ∈ names ∧ ent_doc e = mk name ∧ m !! ent_key e = None) created
    ∧ NoDup (map ent_key created)
    ∧ (∀ m', r = Ok m' →
         (∀ key id, m !! key = Some id → m' !! key = Some id)
         ∧ (∀ key id, m' !! key = Some id →
              m !! key = Some id ∨ ∃ e, e ∈ created ∧ ent_key e = key ∧ ent_id e = id)
         ∧ Forall (λ e, m' !! ent_key e = Some (ent_id e)) created).
Proof.
  intros Hname.
  induction names as [|name names IH]; intros m st st' r; simpl.
  - intros [= <- <-]. exists []. unfold appends. rewrite app_nil_r, Nat.add_0_r.
    split_and!; try done; try apply Forall_nil_2; try apply NoDup_nil_2.
    intros m' [= <-]. split_and!; [done|by left|apply Forall_nil_2].
  - destruct (m !! toLowerCase (trim name)) as [id|] eqn:Hm.
    + intros (created & Happ & Hnext & Hids & Hdocs & Hnd & Hmap)%IH.
      exists created. split_and!; try done.
      eapply Forall_impl; [exact Hdocs|].
      intros e (n & Hn & Hdoc & Hkey). exists n. split_and!; [by apply list_elem_of_further|done|done].
    + unfold bind. destruct (create k (mk name) st) as [st1 [id|msg]] eqn:Hc.
      * destruct (create_effect _ _ _ _ _ Hc) as [[_ [msg [=]]]|((Hk & Hother & Hprod) & [= ->] & Hnext1)].
        intros (created & (Hk' & Hother' & Hprod') & Hnext & Hids & Hdocs & Hnd & Hmap)%IH.
        set (e0 := mkEntity (next_id st) (mk name)).
        assert (ent_key e0 = toLowerCase (trim name)) as Hkey0.
        { unfold ent_key. change (ent_name e0) with (ent_name (mkEntity 0 (mk name))).
          by rewrite Hname, trim_idem. }
        exists (e0 :: created). split_and!.
        -- unfold appends. split_and!.
           ++ by rewrite Hk', Hk, <- app_assoc.
           ++ intros k' Hne. by rewrite Hother', Hother.
           ++ congruence.
        -- simpl. lia.
        -- simpl. by rewrite Hids, Hnext1.
        -- constructor.
           ++ exists name. split_and!; [apply list_elem_of_here|done|by rewrite Hkey0].
           ++ eapply Forall_impl; [exact Hdocs|].
              intros e (n & Hn & Hdoc & Hkey). exists n.
              split_and!; [by apply list_elem_of_further|done|].
              rewrite lookup_insert in Hkey. by case_decide.
        -- simpl. apply NoDup_cons. split; [|done].
           intros (e & He & Hin)%list_elem_of_fmap.
           rewrite Forall_forall in Hdocs. destruct (Hdocs e Hin) as (n & _ & _ & Hnone).
           rewrite <- He, Hkey0, lookup_insert_eq in Hnone. done.
        -- intros m' Hr. destruct (Hmap m' Hr) as (Hkeep & Hfrom & Hall). split_and!.
           ++ intros key id Hkey. apply Hkeep. rewrite lookup_insert.
              case_decide; [congruence|done].
           ++ intros key id Hkey. destruct (Hfrom key id Hkey) as [Hins|(e & He & Hek & Hei)].
              ** rewrite lookup_insert in Hins. case_decide as Hd; [|by left].
                 injection Hins as <-. right. exists e0. subst key.
                 split_and!; [apply list_elem_of_here|done|done].
              ** right. exists e. split_and!; [by apply list_elem_of_further|done|done].
           ++ constructor; [|done]. rewrite Hkey0. apply Hkeep. apply lookup_insert_eq.
      * destruct (create_effect _ _ _ _ _ Hc) as [[-> _]|(_ & [=] & _)].
        intros [= <- <-]. exists []. unfold appends. rewrite app_nil_r, Nat.add_0_r.
        split_and!; try done; try apply Forall_nil_2; apply NoDup_nil_2.
Qed.

Lemma unique_names_trimmed field rows name :
  name ∈ unique_names field rows → trim name = name.
Proof.
  intros [[]%elem_of_nil|(row & _ & _ & ->)]%unique_names_fold. apply trim_idem.
Qed.

Lemma index_by_name_fold l : ∀ (m : gmap string nat) key,
  is_Some (fold_left (fun m e => <[toLowerCase (trim (ent_name e)) := ent_id e]> m) l m !! key)
  ↔ is_Some (m !! key) ∨ ∃ e, e ∈ l ∧ ent_key e = key.
Proof.
  induction l as [|e l IH]; intros m key; simpl.
  - split; [by left|]. intros [?|(? & []%elem_of_nil & _)]. done.
  - rewrite IH. rewrite lookup_insert. fold (ent_key e). split.
    + intros [Hm|(e' & He' & Hk)].
      * case_decide as Hd; [|by left]. right. exists e. split; [apply list_elem_of_here|done].
      * right. exists e'. split; [by apply list_elem_of_further|done].
    + intros [Hm|(e' & [->|He']%elem_of_cons & Hk)].
      * left. by case_decide.
      * left. by rewrite decide_True.
      * right. eauto.
Qed.

Lemma index_by_name_dom l key :
  is_Some (index_by_name l !! key) ↔ ∃ e, e ∈ l ∧ ent_key e = key.
Proof.
  unfold index_by_name. rewrite index_by_name_fold, lookup_empty. split; [|by right].
  intros [[? [=]]|?]. done.
Qed.

(** When the map knows every name, nothing is created. *)
Lemma create_missing_covered k mk names m st :
  (∀ name, name ∈ names → is_Some (m !! toLowerCase (trim name))) →
  create_missing k mk names m st = (st, Ok m).
Proof.
  induction names as [|name names IH]; intros Hcov; simpl; [done|].
  destruct (Hcov name) as [id ->]; [apply list_elem_of_here|].
  apply IH. intros n Hn. by apply Hcov, list_elem_of_further.
Qed.

Lemma named_among_app names l1 l2 :
  named_among names (l1 ++ l2) = (named_among names l1 ++ named_among names l2)%list.
Proof. unfold named_among. apply List.filter_app. Qed.

Lemma named_among_elem names l e : e ∈ named_among names l ↔ e ∈ l ∧ ent_name e ∈ names.
Proof.
  unfold named_among. rewrite !list_elem_of_In, filter_In, bool_decide_eq_true.
  by rewrite list_elem_of_In.
Qed.

Lemma index_fold_miss l : ∀ (m : gmap string nat) key,
  (∀ e, e ∈ l → ent_key e ≠ key) →
  fold_left (fun m e => <[toLowerCase (trim (ent_name e)) := ent_id e]> m) l m !! key = m !! key.
Proof.
  induction l as [|e l IH]; intros m key Hmiss; simpl; [done|].
  rewrite IH by (intros e' He'; by apply Hmiss, list_elem_of_further).
  rewrite lookup_insert_ne; [done|]. apply Hmiss, list_elem_of_here.
Qed.

Lemma index_fold_hit l : ∀ (m : gmap string nat) e,
  NoDup (map ent_key l) → e ∈ l →
  fold_left (fun m e => <[toLowerCase (trim (ent_name e)) := ent_id e]> m) l m !! ent_key e
  = Some (ent_id e).
Proof.
  induction l as [|e' l IH]; intros m e Hnd Hin; simpl; [by apply elem_of_nil in Hin|].
  simpl in Hnd. apply NoDup_cons in Hnd as [Hhead Hnd].
  apply elem_of_cons in Hin as [->|Hin]; [|by apply IH].
  rewrite index_fold_miss; [apply lookup_insert_eq|].
  intros e0 He0 Heq. apply Hhead. rewrite <- Heq. by apply list_elem_of_fmap_2.
Qed.

(** Resolving a kind a second time: after one completed resolution of
    [names], whatever else was resolved since, the lookup of the stored
    documents gives the very map the first resolution ended with, and
    nothing is created. *)
Lemma resolved_again k mk mk' names m st0 st_a st_b st_f :
  (∀ name, ent_name (mkEntity 0 (mk name)) = trim name) →
  (∀ name, name ∈ names → trim name = name) →
  entities st_a k = entities st0 k →
  create_missing k mk names (index_by_name (named_among names (entities st0 k))) st_a
  = (st_b, Ok m) →
  entities st_f k = entities st_b k →
  index_by_name (named_among names (entities st_f k)) = m
  ∧ create_missing k mk' names m st_f = (st_f, Ok m).
Proof.
  intros Hname Htrim Ha Hc Hf.
  destruct (create_missing_effect k mk names Hname _ _ _ _ Hc)
    as (created & (Hk & _ & _) & _ & _ & Hdocs & Hnd & Hmap).
  destruct (Hmap m eq_refl) as (Hkeep & Hfrom & Hall).
  destruct (create_missing_dom _ _ _ _ _ _ _ Hc) as [_ Hnew].
  rewrite Forall_forall in Hdocs. rewrite Forall_forall in Hall.
  assert (named_among names created = created) as Hcreated.
  { unfold named_among. apply forallb_filter_id, forallb_forall.
    intros e He%list_elem_of_In. apply bool_decide_eq_true.
    destruct (Hdocs e He) as (n & Hnin & Hdoc & _).
    destruct e as [id' doc]. simpl in Hdoc. subst doc.
    change (ent_name (mkEntity id' (mk n))) with (ent_name (mkEntity 0 (mk n))).
    by rewrite Hname, (Htrim n Hnin). }
  assert (index_by_name (named_among names (entities st_f k)) = m) as Heq.
  { rewrite Hf, Hk, Ha, named_among_app, Hcreated. unfold index_by_name at 1.
    rewrite fold_left_app. fold (index_by_name (named_among names (entities st0 k))).
    apply map_eq. intros key.
    destruct (decide (key ∈ map ent_key created)) as [(e & -> & He)%list_elem_of_fmap|Hout].
    - rewrite index_fold_hit by done. symmetry. by apply Hall.
    - rewrite index_fold_miss.
      2: { intros e He <-. apply Hout. by apply list_elem_of_fmap_2. }
      destruct (m !! key) as [id|] eqn:Hm.
      + destruct (Hfrom _ _ Hm) as [Hold|(e & He & <- & _)]; [done|].
        exfalso. apply Hout. by apply list_elem_of_fmap_2.
      + destruct (index_by_name _ !! key) as [id|] eqn:Hold; [|done].
        apply Hkeep in Hold. congruence. }
  split; [done|]. apply create_missing_covered. intros name Hn. by apply Hnew.
Qed.

Lemma create_missing_other k mk names m st st' r k' :
  create_missing k mk names m st = (st', r) → k' ≠ k → entities st' k' = entities st k'.
Proof.
  revert m st. induction names as [|name names IH]; intros m st; simpl.
  - by intros [= <- <-].
  - destruct (m !! _); [apply IH|]. unfold bind.
    destruct (create _ _ _) as [st1 [id|msg]] eqn:Hc; intros Hr Hne.
    + rewrite (IH _ _ Hr Hne).
      destruct (create_effect _ _ _ _ _ Hc) as [[-> _]|((_ & Hother & _) & _)]; [done|by apply Hother].
    + injection Hr as <- <-.
      destruct (create_effect _ _ _ _ _ Hc) as [[-> _]|((_ & Hother & _) & _)]; [done|by apply Hother].
Qed.

End ResolutionWrites.

Ltac other_kinds :=
  repeat match goal with
         | H : ∀ k', k' ≠ _ → entities ?b k' = entities _ k' |- context [entities ?b ?k] =>
             rewrite (H k) by done
         end;
  reflexivity.

Ltac resolve_again Hc st0 :=
  match type of Hc with
  | create_missing ?k ?mk ?names _ ?sa = (?sb, Ok ?m) =>
      match goal with
      | |- context [bind (create_missing k ?mk' names _) _ ?sf] =>
          let Heq := fresh "Heq" in
          let Hrun := fresh "Hrun" in
          destruct (resolved_again k mk mk' names m st0 sa sb sf) as [Heq Hrun];
          [ reflexivity
          | apply unique_names_trimmed
          | other_kinds
          | exact Hc
          | other_kinds
          | unfold named_among in Heq; rewrite Heq, (bind_run _ _ _ _ _ Hrun); clear Heq Hrun ]
      end
  end.

Section Again.
Context {ext : Externals}.

Lemma resolve_excel_again user rows st st' maps :
  resolve_excel user rows st = (st', Ok maps) → resolve_excel user rows st' = (st', Ok maps).
Proof.
  unfold resolve_excel. intros Hr.
  do 9 (let Hf := fresh "Hf" in step_bind Hr as Hf; injection Hf as <- <-).
  step_bind Hr as Hc1. step_bind Hr as Hc2. step_bind Hr as Hc3.
  step_bind Hr as Hc4. step_bind Hr as Hc5. step_bind Hr as Hc6.
  step_bind Hr as Hc7. step_bind Hr as Hc8. step_bind Hr as Hc9.
  injection Hr as <- <-.
  pose proof (λ k', create_missing_other _ _ _ _ _ _ _ k' Hc1) as Ho1.
  pose proof (λ k', create_missing_other _ _ _ _ _ _ _ k' Hc2) as Ho2.
  pose proof (λ k', create_missing_other _ _ _ _ _ _ _ k' Hc3) as Ho3.
  pose proof (λ k', create_missing_other _ _ _ _ _ _ _ k' Hc4) as Ho4.
  pose proof (λ k', create_missing_other _ _ _ _ _ _ _ k' Hc5) as Ho5.
  pose proof (λ k', create_missing_other _ _ _ _ _ _ _ k' Hc6) as Ho6.
  pose proof (λ k', create_missing_other _ _ _ _ _ _ _ k' Hc7) as Ho7.
  pose proof (λ k', create_missing_other _ _ _ _ _ _ _ k' Hc8) as Ho8.
  pose proof (λ k', create_missing_other _ _ _ _ _ _ _ k' Hc9) as Ho9.
  do 9 rewrite (bind_run (find _ _) _ _ _ _ eq_refl).
  resolve_again Hc1 st. resolve_again Hc2 st. resolve_again Hc3 st.
  resolve_again Hc4 st. resolve_again Hc5 st. resolve_again Hc6 st.
  resolve_again Hc7 st. resolve_again Hc8 st. resolve_again Hc9 st.
  reflexivity.
Qed.

End Again.

Section AgainCsv.
Context {ext : Externals}.

Lemma resolve_csv_again user rows st st' maps :
  resolve_csv user rows st = (st', Ok maps) → resolve_csv user rows st' = (st', Ok maps).
Proof.
  unfold resolve_csv. intros Hr.
  do 5 (let Hf := fresh "Hf" in step_bind Hr as Hf; injection Hf as <- <-).
  step_bind Hr as Hc1. step_bind Hr as Hc2. step_bind Hr as Hc3.
  step_bind Hr as Hc4. step_bind Hr as Hc5.
  injection Hr as <- <-.
  pose proof (λ k', create_missing_other _ _ _ _ _ _ _ k' Hc1) as Ho1.
  pose proof (λ k', create_missing_other _ _ _ _ _ _ _ k' Hc2) as Ho2.
  pose proof (λ k', create_missing_other _ _ _ _ _ _ _ k' Hc3) as Ho3.
  pose proof (λ k', create_missing_other _ _ _ _ _ _ _ k' Hc4) as Ho4.
  pose proof (λ k', create_missing_other _ _ _ _ _ _ _ k' Hc5) as Ho5.
  do 5 rewrite (bind_run (find _ _) _ _ _ _ eq_refl).
  resolve_again Hc1 st. resolve_again Hc2 st. resolve_again Hc3 st.
  resolve_again Hc4 st. resolve_again Hc5 st.
  reflexivity.
Qed.

(** X7. A preview that answered with a report can be asked again: the
    second run of either preview route on the same rows creates no
    dimension document, leaves the store as the first run left it, and
    answers with the same report. *)
Theorem preview_again_is_the_same user rows st st' resp :
  (bulk_preview user rows st = (st', Ok resp) → bulk_preview user rows st' = (st', Ok resp))
  ∧ (bulk_preview_csv user rows st = (st', Ok resp) →
     bulk_preview_csv user rows st' = (st', Ok resp)).
Proof.
  split; intros Hr.
  - destruct (bulk_preview_inv _ _ _ _ _ Hr) as (maps & _ & Hres & _).
    unfold bulk_preview in *. step_bind Hr as Hres'.
    rewrite Hres in Hres'. injection Hres' as <- <-.
    by rewrite (bind_run _ _ _ _ _ (resolve_excel_again _ _ _ _ _ Hres)).
  - destruct (bulk_preview_csv_inv _ _ _ _ _ Hr) as (maps & _ & Hres & _).
    unfold bulk_preview_csv in *. step_bind Hr as Hres'.
    rewrite Hres in Hres'. injection Hres' as <- <-.
    by rewrite (bind_run _ _ _ _ _ (resolve_csv_again _ _ _ _ _ Hres)).
Qed.

End AgainCsv.

Lemma preview_again_is_the_same_witness :
  ∃ st' resp,
    bulk_preview (ext := integral) VUndef dimension_sheet small_store = (st', Ok resp)
    ∧ length (entities st' Category) = 2%nat
    ∧ bulk_preview (ext := integral) VUndef dimension_sheet st' = (st', Ok resp).
Proof.
  eexists _, _. split; [vm_compute; reflexivity|]. split; [vm_compute; reflexivity|].
  apply (proj1 (preview_again_is_the_same (ext := integral) VUndef dimension_sheet small_store _ _)).
  vm_compute; reflexivity.
Defined.

(** ** What a preview writes, whether it answers or throws *)

Lemma bind_inv {A B} (c : M A) (k : A → M B) st st' r :
  bind c k st = (st', r) →
  (∃ st1 a, c st = (st1, Ok a) ∧ k a st1 = (st', r))
  ∨ (∃ msg, c st = (st', Thrown msg) ∧ r = Thrown msg).
Proof.
  unfold bind. destruct (c st) as [st1 [a|msg]]; [left; eauto|].
  intros [= <- <-]. right. eauto.
Qed.

Lemma writes_mono {ext : Externals} ks ks' st st' :
  writes ks st st' → (∀ k, k ∈ ks → k ∈ ks') → writes ks' st st'.
Proof.
  intros [Hp Hk] Hsub. split; [done|]. intros k.
  destruct (Hk k) as (created & He & Hnil & Hfresh). exists created. split_and!; [done| |done].
  intros Hout. apply Hnil. intros Hin. by apply Hout, Hsub.
Qed.

Lemma writes_refl {ext : Externals} st : writes [] st st.
Proof.
  split; [done|]. intros k. exists []. rewrite app_nil_r. split_and!; [done|done|].
  split; [apply NoDup_nil_2|apply Forall_nil_2].
Qed.

Section PreviewWrites.
Context {ext : Externals}.

(** One more kind resolved: the map was read from the collection as it
    stood at the start, and the kind was not written since. *)
Lemma create_missing_step ks k mk names st s s' r :
  (∀ name, ent_name (mkEntity 0 (mk name)) = trim name) →
  (∀ name, name ∈ names → trim name = name) →
  writes ks st s → k ∉ ks →
  create_missing k mk names (index_by_name (named_among names (entities st k))) s = (s', r) →
  writes (ks ++ [k]) st s'.
Proof.
  intros Hname Htrim [Hp Hw] Hk Hc.
  destruct (create_missing_effect k mk names Hname _ _ _ _ Hc)
    as (created & (Hadd & Hother & Hprod) & _ & _ & Hdocs & Hnd & _).
  split; [congruence|]. intros k'. destruct (decide (k' = k)) as [->|Hne].
  - exists created. destruct (Hw k) as (c0 & He0 & Hnil & _).
    rewrite (Hnil Hk), app_nil_r in He0. rewrite Hadd, He0.
    split_and!; [done| |].
    { intros Hout. exfalso. apply Hout, elem_of_app. right. apply list_elem_of_here. }
    split; [done|]. eapply Forall_impl; [exact Hdocs|].
    intros e (n & Hn & Hdoc & Hnone).
    assert (ent_name e = n) as Hen.
    { destruct e as [id doc]. simpl in Hdoc. subst doc.
      change (ent_name (mkEntity id (mk n))) with (ent_name (mkEntity 0 (mk n))).
      by rewrite Hname, (Htrim n Hn). }
    split; [unfold trimmed; rewrite Hen; by apply Htrim|].
    intros e0 He0in Hsame.
    assert (is_Some (index_by_name (named_among names (entities st k)) !! ent_key e)) as [? Hsome].
    { apply index_by_name_dom. exists e0. split; [|unfold ent_key; by rewrite Hsame].
      apply named_among_elem. split; [done|]. by rewrite Hsame, Hen. }
    congruence.
  - destruct (Hw k') as (c0 & He0 & Hnil & Hfresh). exists c0.
    rewrite (Hother k' Hne). split_and!; [done| |done].
    intros Hout. apply Hnil. intros Hin. apply Hout, elem_of_app. by left.
Qed.

End PreviewWrites.

Ltac kind_not_listed := rewrite list_elem_of_In; simpl; intuition discriminate.

Ltac kinds_included :=
  let k := fresh "k" in
  intros k; rewrite !list_elem_of_In; simpl; intuition idtac.

(** One creation phase of a resolution whose lookups are done: either it
    throws, and the run ends with what was written so far, or the run
    goes on with one more kind written. *)
Ltac write_step Hr Hw :=
  let Hc := fresh "Hc" in
  let s := fresh "s" in
  let m := fresh "m" in
  let msg := fresh "msg" in
  apply bind_inv in Hr as [(s & m & Hc & Hr)|(msg & Hc & ->)];
  (eapply create_missing_step in Hc;
   [ | reflexivity | apply unique_names_trimmed | exact Hw | kind_not_listed ]);
  simpl in Hc; clear Hw;
  [ rename Hc into Hw | eapply writes_mono; [exact Hc|kinds_included] ].

Section PreviewWritesRoutes.
Context {ext : Externals}.

Lemma resolve_excel_writes user rows st st' r :
  resolve_excel user rows st = (st', r) →
  writes [Category; Brand; SubCategory; Tax; Unit; Color; Warranty; Size; Volume] st st'.
Proof.
  unfold resolve_excel. intros Hr.
  do 9 rewrite (bind_run (find _ _) _ _ _ _ eq_refl) in Hr.
  pose proof (writes_refl st) as Hw.
  write_step Hr Hw. write_step Hr Hw. write_step Hr Hw.
  write_step Hr Hw. write_step Hr Hw. write_step Hr Hw.
  write_step Hr Hw. write_step Hr Hw. write_step Hr Hw.
  by injection Hr as <- _.
Qed.

Lemma resolve_csv_writes user rows st st' r :
  resolve_csv user rows st = (st', r) →
  writes [Category; SubCategory; Brand; Tax; Unit] st st'.
Proof.
  unfold resolve_csv. intros Hr.
  do 5 rewrite (bind_run (find _ _) _ _ _ _ eq_refl) in Hr.
  pose proof (writes_refl st) as Hw.
  write_step Hr Hw. write_step Hr Hw. write_step Hr Hw.
  write_step Hr Hw. write_step Hr Hw.
  by injection Hr as <- _.
Qed.

(** After resolution a preview only reads. *)
Lemma bulk_preview_store user rows st st' r :
  bulk_preview user rows st = (st', r) →
  ∃ r', resolve_excel user (map remapRow rows) st = (st', r').
Proof.
  unfold bulk_preview. intros Hr.
  apply bind_inv in Hr as [(s & maps & Hres & Hr)|(msg & Hres & ->)]; [|by eexists].
  rewrite (bind_run (find_products _ _) _ _ _ _ eq_refl) in Hr.
  apply bind_inv in Hr as [(s1 & [pp inv] & Hl & Hr)|(msg & Hl & ->)].
  - injection Hl as <- _.
    destruct (mapM_rel populate_excel (shown_as ["category"; "subCategory"; "brand"])
                pp s populate_excel_run) as (shown & Hm & _).
    rewrite (bind_run _ _ _ _ _ Hm) in Hr. injection Hr as <- _. by eexists.
  - injection Hl as <- _. by eexists.
Qed.

Lemma bulk_preview_csv_store user rows st st' r :
  bulk_preview_csv user rows st = (st', r) →
  ∃ r', resolve_csv user rows st = (st', r').
Proof.
  unfold bulk_preview_csv. intros Hr.
  apply bind_inv in Hr as [(s & maps & Hres & Hr)|(msg & Hres & ->)]; [|by eexists].
  rewrite (bind_run (find_products _ _) _ _ _ _ eq_refl) in Hr.
  apply bind_inv in Hr as [(s1 & [pp inv] & Hl & Hr)|(msg & Hl & ->)].
  - injection Hl as <- _.
    destruct (mapM_rel populate_csv (shown_as ["parentCategory"; "category"; "brand"])
                pp s populate_csv_run) as (shown & Hm & _).
    rewrite (bind_run _ _ _ _ _ Hm) in Hr. injection Hr as <- _. by eexists.
  - injection Hl as <- _. by eexists.
Qed.

(** X8. Whatever a preview route answers, a report or an error, it has
    written nothing but new dimension documents: the products are as
    before, every collection keeps its documents in place, and the
    documents added to a collection have trimmed names that differ from
    each other, whatever the case of the letters, and from the name of
    every document the collection held. The CSV route adds no colour,
    warranty, size or volume. *)
Theorem previews_write_new_dimensions_only user rows st st' r :
  (bulk_preview user rows st = (st', r) →
   writes [Category; Brand; SubCategory; Tax; Unit; Color; Warranty; Size; Volume] st st')
  ∧ (bulk_preview_csv user rows st = (st', r) →
     writes [Category; SubCategory; Brand; Tax; Unit] st st').
Proof.
  split.
  - intros [r' Hr]%bulk_preview_store. by eapply resolve_excel_writes.
  - intros [r' Hr]%bulk_preview_csv_store. by eapply resolve_csv_writes.
Qed.

End PreviewWritesRoutes.

Lemma previews_write_new_dimensions_only_witness :
  writes (ext := integral)
    [Category; Brand; SubCategory; Tax; Unit; Color; Warranty; Size; Volume] small_store
    (bulk_preview (ext := integral) VUndef dimension_sheet small_store).1
  ∧ writes (ext := integral) [Category; SubCategory; Brand; Tax; Unit] small_store
           (bulk_preview_csv (ext := integral) VUndef dimension_sheet small_store).1.
Proof.
  split.
  - apply (proj1 (previews_write_new_dimensions_only (ext := integral) VUndef dimension_sheet
                    small_store _ (bulk_preview (ext := integral) VUndef dimension_sheet small_store).2)).
    vm_compute; reflexivity.
  - apply (proj2 (previews_write_new_dimensions_only (ext := integral) VUndef dimension_sheet
                    small_store _ (bulk_preview_csv (ext := integral) VUndef dimension_sheet small_store).2)).
    vm_compute; reflexivity.
Defined.

(** ** What a save stores *)

Lemma js_or_truthy a b : truthy b = true → truthy (js_or a b) = true.
Proof. intros Hb. unfold js_or. by destruct (truthy a) eqn:Ha. Qed.

Lemma shown_successes (l l' : list save_result) :
  Forall2 result_shown l l' →
  Forall2 (shown_as ["parentCategory"; "category"; "brand"])
          (map sr_product (List.filter is_success l))
          (map sr_product (List.filter is_success l')).
Proof.
  induction 1 as [|r r' l l' (_ & Hs & _ & Hp & _) _ IH]; [constructor|].
  simpl. unfold is_success in *. rewrite Hs.
  destruct (String.eqb (sr_status r) "success"); [|done]. simpl. by constructor.
Qed.

Section SaveWrites.
Context {ext : Externals}.

Lemma save_turn_outcome user i prod acc st st' acc' :
  save_turn user i prod acc st = (st', Ok acc') →
  (st' = st ∧ ∃ reason, acc' = push_failed acc i reason prod)
  ∨ (∃ slug, st' = store_with st (save_fields user prod slug)
             ∧ acc' = push_success acc i (("_id", VId (next_id st)) :: save_fields user prod slug)
             ∧ truthy (obj_get "name" prod) = true
             ∧ truthy (obj_get "parentCategory" prod) = true).
Proof.
  destruct (save_turn_cases user i prod acc st) as [[reason Ht]|(slug & Ht & Hn)];
    rewrite Ht; intros [= <- <-]; [left; eauto|].
  right. exists slug. split_and!; try done.
  destruct (save_turn_checks user i prod acc st)
    as [[Hc _]|[[Hc _]|[[Hc _]|(_ & _ & _ & Hp)]]]; [..|done];
    rewrite Ht in Hc; injection Hc as _ Hc; apply app_inv_head in Hc; discriminate.
Qed.

Lemma saved_doc_fields user prod slug id :
  truthy (obj_get "name" prod) = true → truthy (obj_get "parentCategory" prod) = true →
  saved_doc user (("_id", id) :: save_fields user prod slug).
Proof.
  intros Hn Hp. unfold saved_doc.
  change (obj_get "createdBy" (("_id", id) :: save_fields user prod slug)) with user.
  change (obj_get "name" (("_id", id) :: save_fields user prod slug))
    with (js_or (obj_get "name" prod) (VStr "")).
  change (obj_get "parentCategory" (("_id", id) :: save_fields user prod slug))
    with (obj_get "parentCategory" prod).
  change (obj_get "maxPurchaseQty" (("_id", id) :: save_fields user prod slug))
    with (js_or (obj_get "maxPurchaseQty" prod) (VNum 10)).
  change (obj_get "lowStockWarning" (("_id", id) :: save_fields user prod slug))
    with (js_or (obj_get "lowStockWarning" prod) (VNum 5)).
  split_and!; [done| |done|by apply js_or_truthy|by apply js_or_truthy].
  unfold js_or. by rewrite Hn.
Qed.

Lemma save_loop_docs user prods : ∀ i acc st st' acc',
  save_loop user i prods acc st = (st', Ok acc') →
  ∃ new,
    acc_results acc' = (acc_results acc ++ new)%list
    ∧ products st' = (products st ++ map sr_product (List.filter is_success new))%list
    ∧ acc_success acc' = (acc_success acc + length (List.filter is_success new))%nat
    ∧ Forall (saved_doc user) (map sr_product (List.filter is_success new))
    ∧ entities st' = entities st.
Proof.
  induction prods as [|prod rest IH]; intros i acc st st' acc'; simpl.
  - intros [= <- <-]. exists []. simpl. rewrite !app_nil_r, Nat.add_0_r. split_and!; done.
  - intros Hr. step_bind Hr as Ht.
    destruct (save_turn_outcome _ _ _ _ _ _ _ Ht) as [[-> [reason ->]]|(slug & -> & -> & Hn & Hp)];
      apply IH in Hr as (new & Hres & Hprod & Hs & Hall & He); simpl in *.
    + exists (failed_result i reason prod :: new). rewrite Hres, <- app_assoc. simpl.
      split_and!; done.
    + exists (mkResult i "success" None (("_id", VId (next_id st)) :: save_fields user prod slug) :: new).
      rewrite Hres, Hprod, <- !app_assoc. simpl. split_and!; try done; [lia|].
      constructor; [by apply saved_doc_fields|done].
Qed.

(** X9. A save that answers with a report has stored exactly the
    products of its successful results, after the stored products and in
    result order, so as many as the [success] counter says; the
    dimension collections are untouched. Every stored document names
    the saving user as creator and has a truthy name, parent category,
    purchase limit and stock-warning limit. *)
Theorem save_stores_the_successes user prods st st' total success failed results :
  bulk_save user prods st = (st', Ok (SaveReport total success failed results)) →
  entities st' = entities st
  ∧ ∃ docs,
      products st' = (products st ++ docs)%list
      ∧ length docs = success
      ∧ Forall (saved_doc user) docs
      ∧ Forall2 (shown_as ["parentCategory"; "category"; "brand"]) docs
                (map sr_product (List.filter is_success results)).
Proof.
  intros Hrun.
  assert (prods ≠ []) as Hne by (intros ->; done).
  destruct (bulk_save_run user prods st Hne) as (st0 & acc' & new & results' & Hl & Hnew & Hshown & Hrun').
  rewrite Hrun in Hrun'. injection Hrun' as -> _ -> _ ->.
  destruct (save_loop_docs _ _ _ _ _ _ _ Hl) as (new' & Hres & Hprod & Hs & Hall & He).
  simpl in Hres, Hs. rewrite Hnew in Hres. subst new'.
  split; [done|]. eexists. split_and!; [exact Hprod| |done|by apply shown_successes].
  by rewrite length_map.
Qed.

Lemma populate_failed l st :
  Forall (λ r, is_failed r = true) l → mapM populate_result l st = (st, Ok l).
Proof.
  induction 1 as [|r l Hr _ IH]; [done|]. simpl.
  assert (populate_result r st = (st, Ok r)) as Hp.
  { unfold populate_result. unfold is_failed in Hr. by rewrite Hr. }
  by rewrite (bind_run _ _ _ _ _ Hp), (bind_run _ _ _ _ _ IH).
Qed.

(** Products without parent category: none is stored. *)
Lemma save_loop_refused user prods : ∀ i acc st,
  (∀ p, p ∈ prods → truthy (obj_get "parentCategory" p) = false ∧ all_falsy p = false) →
  ∃ acc' new,
    save_loop user i prods acc st = (st, Ok acc')
    ∧ acc_results acc' = (acc_results acc ++ new)%list
    ∧ acc_success acc' = acc_success acc
    ∧ acc_failed acc' = (acc_failed acc + length prods)%nat
    ∧ Forall refused_unsaved new.
Proof.
  induction prods as [|prod rest IH]; intros i acc st Hall; simpl.
  - exists acc, []. rewrite app_nil_r, Nat.add_0_r. split_and!; done.
  - destruct (Hall prod) as [Hp Hf]; [apply list_elem_of_here|].
    assert (∃ reason, save_turn user i prod acc st = (st, Ok (push_failed acc i reason prod))
                      ∧ refused_unsaved (failed_result i reason prod)) as (reason & Ht & Hreason).
    { destruct (save_turn_checks user i prod acc st)
        as [[_ He]|[[Hc _]|[[Hc _]|(_ & _ & _ & Hp')]]]; [congruence| | |congruence];
        eexists; (split; [exact Hc|]); split; auto. }
    rewrite (bind_run _ _ _ _ _ Ht).
    destruct (IH (S i) (push_failed acc i reason prod) st) as (acc' & new & Hl & Hres & Hs & Hfl & Hnew).
    { intros p Hin. by apply Hall, list_elem_of_further. }
    exists acc', (failed_result i reason prod :: new). simpl in *.
    rewrite Hres, <- app_assoc. split_and!; [done|done|done|lia|by constructor].
Qed.

Lemma bulk_save_refused user prods st :
  prods ≠ [] →
  (∀ p, p ∈ prods → truthy (obj_get "parentCategory" p) = false ∧ all_falsy p = false) →
  ∃ results,
    bulk_save user prods st = (st, Ok (SaveReport (length prods) 0 (length prods) results))
    ∧ Forall refused_unsaved results.
Proof.
  intros Hne Hall.
  destruct (save_loop_refused user prods 0 (mkAcc [] 0 0) st Hall) as (acc' & new & Hl & Hres & Hs & Hf & Hnew).
  simpl in *. exists new. split; [|done].
  unfold bulk_save. destruct prods; [done|].
  assert (Forall (λ r, is_failed r = true) new) as Hfailed.
  { eapply Forall_impl; [exact Hnew|]. by intros r [? _]. }
  rewrite (bind_run _ _ _ _ _ Hl), Hres, (bind_run _ _ _ _ _ (populate_failed new st Hfailed)).
  by rewrite Hs, Hf.
Qed.

(** X10. What the spreadsheet preview returns cannot be saved as it is:
    its products carry no parent category, so the save route, given the
    previewed products of any report, stores nothing and refuses every
    one of them, as a duplicate or for missing required fields. *)
Theorem sheet_preview_is_not_savable user rows st st' resp user' st2 :
  bulk_preview user rows st = (st', Ok resp) →
  pv_previewProducts resp ≠ [] →
  ∃ results,
    bulk_save user' (pv_previewProducts resp) st2
    = (st2, Ok (SaveReport (length (pv_previewProducts resp)) 0
                           (length (pv_previewProducts resp)) results))
    ∧ Forall refused_unsaved results.
Proof.
  intros Hr Hne. apply bulk_save_refused; [done|].
  intros p Hp.
  destruct (excel_product_origin _ _ _ _ _ _ Hr Hp) as (maps & row & _ & Hshown).
  split.
  - rewrite Hshown by not_listed. done.
  - destruct (all_falsy p) eqn:Hf; [|done].
    apply (all_falsy_get "maxPurchaseQty") in Hf. rewrite Hshown in Hf by not_listed.
    change (obj_get "maxPurchaseQty" (excel_candidate maps row))
      with (js_or (obj_get "maxPurchaseQty" row) (VNum 10)) in Hf.
    by rewrite js_or_truthy in Hf.
Qed.

End SaveWrites.

Lemma save_stores_the_successes_witness :
  ∃ st' total success failed results docs,
    bulk_save (ext := sku_required) VUndef sample_products small_store
    = (st', Ok (SaveReport total success failed results))
    ∧ products st' = (products small_store ++ docs)%list
    ∧ length docs = success ∧ success = 2%nat.
Proof.
  eexists _, _, _, _, _.
  destruct (save_stores_the_successes (ext := sku_required) VUndef sample_products small_store
              _ _ _ _ _ ltac:(vm_compute; reflexivity)) as (_ & docs & Hp & Hlen & _).
  exists docs. split_and!; [vm_compute; reflexivity|exact Hp|exact Hlen|reflexivity].
Defined.

Lemma sheet_preview_is_not_savable_witness :
  ∃ st' resp results,
    bulk_preview (ext := integral) VUndef sample_sheet small_store = (st', Ok resp)
    ∧ bulk_save (ext := integral) VUndef (pv_previewProducts resp) small_store
      = (small_store, Ok (SaveReport (length (pv_previewProducts resp)) 0
                                     (length (pv_previewProducts resp)) results)).
Proof.
  eexists _, _.
  assert (bulk_preview (ext := integral) VUndef sample_sheet small_store = (_, Ok _)) as Hr
    by (vm_compute; reflexivity).
  destruct (sheet_preview_is_not_savable (ext := integral) VUndef sample_sheet small_store
              _ _ VUndef small_store Hr ltac:(vm_compute; discriminate))
    as (results & Hs & _).
  exists results. split; [exact Hr|exact Hs].
Defined.

(** ** From the CSV preview to the save *)

Section CsvToSave.
Context {ext : Externals}.

Lemma populate_field_truthy k field prod populated st :
  ∃ populated',
    populate_field k field prod populated st = (st, Ok populated')
    ∧ ∀ f, truthy (obj_get f populated) = true → truthy (obj_get f populated') = true.
Proof.
  unfold populate_field. destruct (truthy _); [|by eexists].
  unfold bind, findById. destruct (obj_get field prod); try by eexists.
  destruct (List.find _ _) as [e|]; eexists; (split; [done|]); [|done].
  intros f Hf. destruct (decide (f = field)) as [->|Hne].
  - by rewrite obj_get_set_eq.
  - by rewrite obj_get_set_ne.
Qed.

Lemma populate_csv_truthy prod st :
  ∃ shown,
    populate_csv prod st = (st, Ok shown)
    ∧ ∀ f, truthy (obj_get f prod) = true → truthy (obj_get f shown) = true.
Proof.
  unfold populate_csv.
  destruct (populate_field_truthy Category "parentCategory" prod prod st) as (p1 & H1 & G1).
  destruct (populate_field_truthy SubCategory "category" prod p1 st) as (p2 & H2 & G2).
  destruct (populate_field_truthy Brand "brand" prod p2 st) as (p3 & H3 & G3).
  exists p3. rewrite (bind_run _ _ _ _ _ H1), (bind_run _ _ _ _ _ H2). split; [done|].
  intros f Hf. by apply G3, G2, G1.
Qed.

(** X11. Every product of a CSV preview report has a truthy name and a
    truthy parent category, the two fields the save route requires: the
    parent category named by the row was resolved to an identifier, and
    the display of the references keeps it truthy. *)
Theorem csv_preview_meets_save_requirements user rows st st' resp p :
  bulk_preview_csv user rows st = (st', Ok resp) →
  p ∈ pv_previewProducts resp →
  truthy (obj_get "name" p) = true ∧ truthy (obj_get "parentCategory" p) = true.
Proof.
  unfold bulk_preview_csv. intros Hr Hp.
  step_bind Hr as Hres. rename a into maps.
  step_bind Hr as Hfind. injection Hfind as <- <-.
  step_bind Hr as Hloop. injection Hloop as <- Hloop. destruct a as [pp inv].
  apply row_loop_spec in Hloop as (vs & Hvs & [= -> ->]). simpl in *.
  destruct (mapM_rel populate_csv
              (λ c shown, ∀ f, truthy (obj_get f c) = true → truthy (obj_get f shown) = true)
              (accepted_of vs) st0 populate_csv_truthy) as (shown & Hm & Hshown).
  rewrite (bind_run _ _ _ _ _ Hm) in Hr. injection Hr as <- <-. simpl in Hp.
  apply list_elem_of_lookup in Hp as (k & Hk).
  destruct (Forall2_lookup_r _ _ _ _ _ Hshown Hk) as (c & Hc & Hcp).
  assert (Accepted c ∈ vs) as (j & Hj)%list_elem_of_lookup.
  { apply accepted_of_elem, list_elem_of_lookup. eauto. }
  destruct (Forall2_lookup_r _ _ _ _ _ Hvs Hj) as (row & Hrow & Hbody).
  unfold csv_row in Hbody.
  destruct (all_falsy row); [done|].
  destruct (truthy (obj_get "name" row)) eqn:Hn; [|done].
  destruct (truthy (obj_get "parent_category" row)) eqn:Hpc; [|done]. simpl in Hbody.
  destruct (is_duplicate _ _ _); [done|].
  destruct (slug_or_generated _ _) as [slug|msg]; [|done].
  injection Hbody as <-. split; apply Hcp.
  - change (obj_get "name" (csv_candidate maps row slug)) with (js_or (obj_get "name" row) (VStr "")).
    unfold js_or. by rewrite Hn.
  - change (obj_get "parentCategory" (csv_candidate maps row slug))
      with (map_get (c_parentCategoryMap maps) (norm_key (obj_get "parent_category" row))).
    destruct (resolve_csv_resolves _ _ _ _ _ Hres "parent_category" c_parentCategoryMap)
      with (row := row) as (id & Hid & _).
    + rewrite list_elem_of_In. simpl. tauto.
    + apply list_elem_of_lookup. eauto.
    + done.
    + unfold map_get. by rewrite Hid.
Qed.

(** X12. The duplicate check of the save route looks at the slug a
    product brings, not at the slug generated for it: a product with a
    name, a parent category and no slug, that matches no stored product,
    is stored under the slug generated from its name even when a stored
    product already has that slug. *)
Theorem generated_slug_is_not_checked user prod n p st :
  obj_get "name" prod = VStr n → n ≠ "" →
  truthy (obj_get "slug" prod) = false →
  truthy (obj_get "parentCategory" prod) = true →
  existsb (matches prod) (products st) = false →
  p ∈ products st → obj_get "slug" p = VStr (generateSlug n) →
  product_rejects (products st) (save_fields user prod (VStr (generateSlug n))) = None →
  ∃ st' doc results,
    bulk_save user [prod] st = (st', Ok (SaveReport 1 1 0 results))
    ∧ products st' = (products st ++ [doc])%list
    ∧ obj_get "slug" doc = obj_get "slug" p.
Proof.
  intros Hn Hne Hslug Hpc Hmatch Hp Hps Hok.
  assert (truthy (obj_get "name" prod) = true) as Htn.
  { rewrite Hn. simpl. by apply negb_true_iff, String.eqb_neq. }
  assert (save_turn user 0 prod (mkAcc [] 0 0) st
          = (store_with st (save_fields user prod (VStr (generateSlug n))),
             Ok (push_success (mkAcc [] 0 0) 0
                   (("_id", VId (next_id st)) :: save_fields user prod (VStr (generateSlug n))))))
    as Ht.
  { unfold save_turn, try_catch, save_try.
    destruct (all_falsy prod) eqn:Hf.
    { apply (all_falsy_get "name") in Hf. congruence. }
    unfold bind, findOne_product, lift, save_product. cbn beta iota.
    apply find_existsb in Hmatch. unfold matches in Hmatch. rewrite Hmatch.
    rewrite Htn, Hpc. cbn [negb orb].
    unfold slug_or_generated, js_or. rewrite Hslug, Htn, Hn. simpl.
    by rewrite Hok. }
  destruct (populate_result_run
              (mkResult 0 "success" None
                 (("_id", VId (next_id st)) :: save_fields user prod (VStr (generateSlug n))))
              (store_with st (save_fields user prod (VStr (generateSlug n)))))
    as (shown & Hshown & _).
  assert (save_loop user 0 [prod] (mkAcc [] 0 0) st
          = (store_with st (save_fields user prod (VStr (generateSlug n))),
             Ok (push_success (mkAcc [] 0 0) 0
                   (("_id", VId (next_id st)) :: save_fields user prod (VStr (generateSlug n))))))
    as Hl.
  { cbn [save_loop]. by rewrite (bind_run _ _ _ _ _ Ht). }
  assert (mapM populate_result
            [mkResult 0 "success" None
               (("_id", VId (next_id st)) :: save_fields user prod (VStr (generateSlug n)))]
            (store_with st (save_fields user prod (VStr (generateSlug n))))
          = (store_with st (save_fields user prod (VStr (generateSlug n))), Ok [shown])) as Hm.
  { cbn [mapM]. by rewrite (bind_run _ _ _ _ _ Hshown). }
  eexists _, _, [shown]. split_and!.
  - unfold bulk_save. rewrite (bind_run _ _ _ _ _ Hl).
    change (acc_results (push_success (mkAcc [] 0 0) 0 ?d)) with [mkResult 0 "success" None d].
    rewrite (bind_run _ _ _ _ _ Hm). reflexivity.
  - reflexivity.
  - by rewrite Hps.
Qed.

End CsvToSave.

Lemma csv_preview_meets_save_requirements_witness :
  ∃ st' resp p,
    bulk_preview_csv (ext := integral) VUndef sample_csv small_store = (st', Ok resp)
    ∧ pv_previewProducts resp !! 0%nat = Some p
    ∧ truthy (obj_get "name" p) = true ∧ truthy (obj_get "parentCategory" p) = true.
Proof.
  eexists _, _, _.
  assert (bulk_preview_csv (ext := integral) VUndef sample_csv small_store = (_, Ok _)) as Hr
    by (vm_compute; reflexivity).
  split; [exact Hr|]. split; [vm_compute; reflexivity|].
  apply (csv_preview_meets_save_requirements (ext := integral) _ _ _ _ _ _ Hr).
  apply list_elem_of_here.
Defined.

Lemma generated_slug_is_not_checked_witness :
  ∃ st' doc results,
    bulk_save (ext := integral) VUndef [[("name", VStr "WIDGET"); ("parentCategory", VId 0)]] small_store
    = (st', Ok (SaveReport 1 1 0 results))
    ∧ products st' = (products small_store ++ [doc])%list
    ∧ obj_get "slug" doc = VStr "widget".
Proof.
  apply (generated_slug_is_not_checked (ext := integral) VUndef
           [("name", VStr "WIDGET"); ("parentCategory", VId 0)] "WIDGET"
           [("_id", VId 1); ("name", VStr "Widget"); ("slug", VStr "widget")] small_store);
    try reflexivity; [discriminate|apply list_elem_of_here].
Defined.

(** ** Duplicates of a sheet are looked up by the raw column *)

Lemma truthy_column_nil field rows :
  (∀ row, row ∈ rows → truthy (obj_get field row) = false) → truthy_column field rows = [].
Proof.
  unfold truthy_column. induction rows as [|row rows IH]; intros Hall; simpl; [done|].
  rewrite (Hall row) by apply list_elem_of_here.
  apply IH. intros r Hr. by apply Hall, list_elem_of_further.
Qed.

Lemma filter_none {A} (l : list A) : List.filter (λ _, false) l = [].
Proof. by induction l. Qed.

Section RawColumns.
Context {ext : Externals}.

(** X13. The spreadsheet preview looks for stored products under the
    [name] and [slug] columns of the raw rows, before the headers are
    trimmed and mapped. When no raw row has a value under a column
    headed exactly [name] or [slug], no row is turned away as a
    duplicate: every rejected row is an empty row. *)
Theorem sheet_duplicates_need_literal_headers user rows st st' resp :
  (∀ row, row ∈ rows →
     truthy (obj_get "name" row) = false ∧ truthy (obj_get "slug" row) = false) →
  bulk_preview user rows st = (st', Ok resp) →
  ∀ r, r ∈ pv_invalidRows resp → ir_reason r = "Empty row".
Proof.
  intros Hraw (maps & vs & _ & Hvs & (_ & _ & Hinv) & _)%bulk_preview_inv r Hr.
  assert (existing_products rows st = []) as Hnone.
  { unfold existing_products.
    rewrite !truthy_column_nil by (intros row Hrow; by apply Hraw). simpl. apply filter_none. }
  rewrite Hnone in Hvs. rewrite Hinv in Hr.
  apply list_elem_of_lookup in Hr as (k & Hk).
  apply rejected_from_lookup in Hk as (j & _ & _ & Hrow & Hv).
  destruct (Forall2_lookup_r _ _ _ _ _ Hvs Hv) as (row & _ & Hbody).
  unfold excel_row, is_duplicate in Hbody. simpl in Hbody. rewrite !andb_false_r in Hbody.
  simpl in Hbody. destruct (all_falsy row); by injection Hbody.
Qed.

End RawColumns.

Lemma sheet_duplicates_need_literal_headers_witness :
  ∃ st' resp p,
    bulk_preview (ext := integral) VUndef
      [[(" name", VStr "Widget")]; [(" name", VStr "")]] small_store = (st', Ok resp)
    ∧ pv_previewProducts resp = [p] ∧ obj_get "name" p = VStr "Widget"
    ∧ ∀ r, r ∈ pv_invalidRows resp → ir_reason r = "Empty row".
Proof.
  eexists _, _, _.
  assert (bulk_preview (ext := integral) VUndef
            [[(" name", VStr "Widget")]; [(" name", VStr "")]] small_store = (_, Ok _)) as Hr
    by (vm_compute; reflexivity).
  split; [exact Hr|]. split; [vm_compute; reflexivity|]. split; [reflexivity|].
  apply (sheet_duplicates_need_literal_headers (ext := integral) _ _ _ _ _) with (2 := Hr).
  intros row Hrow. rewrite list_elem_of_In in Hrow. simpl in Hrow.
  destruct Hrow as [<-|[<-|[]]]; split; reflexivity.
Defined.

(** ** The routes on one product *)

Lemma first_split (f : obj → bool) l old :
  List.find f l = Some old →
  ∃ l1 l2, l = (l1 ++ old :: l2)%list ∧ f old = true ∧ (∀ p, p ∈ l1 → f p = false)
           ∧ (∀ doc, replace_first f doc l = (l1 ++ doc :: l2)%list)
           ∧ remove_first f l = (l1 ++ l2)%list.
Proof.
  induction l as [|p l IH]; simpl; [done|].
  destruct (f p) eqn:Hp.
  - intros [= ->]. exists [], l. split_and!; try done. by intros ? ?%elem_of_nil.
  - intros (l1 & l2 & -> & Hold & Hl1 & Hrep & Hrem)%IH.
    exists (p :: l1), l2. split_and!; try done.
    + intros q [->|Hq]%elem_of_cons; [done|by apply Hl1].
    + intros doc. simpl. by rewrite Hrep.
    + simpl. by rewrite Hrem.
Qed.

Lemma obj_without_keys k ks o :
  k ∈ obj_keys (obj_without ks o) → k ∈ obj_keys o ∧ existsb (String.eqb k) ks = false.
Proof.
  unfold obj_keys, obj_without. intros ([k0 v] & -> & Hin)%list_elem_of_fmap.
  apply list_elem_of_In, filter_In in Hin as [Hin Hk]. simpl in *.
  split; [|by apply negb_true_iff in Hk].
  apply list_elem_of_fmap. exists (k0, v). split; [done|by apply list_elem_of_In].
Qed.

Lemma obj_without_keeps k ks o :
  k ∈ obj_keys o → existsb (String.eqb k) ks = false → k ∈ obj_keys (obj_without ks o).
Proof.
  unfold obj_keys, obj_without. intros ([k0 v] & -> & Hin)%list_elem_of_fmap Hk. simpl in *.
  apply list_elem_of_fmap. exists (k0, v). split; [done|].
  apply list_elem_of_In, filter_In. split; [by apply list_elem_of_In|]. simpl. by rewrite Hk.
Qed.

Lemma assign_fold (upd : obj) keys : ∀ p k,
  obj_get k (fold_left (fun p key => obj_set key (obj_get key upd) p) keys p)
  = if bool_decide (k ∈ keys) then obj_get k upd else obj_get k p.
Proof.
  induction keys as [|key keys IH]; intros p k; simpl; [done|].
  rewrite IH. destruct (decide (k = key)) as [->|Hne].
  - rewrite (bool_decide_eq_true_2 (key ∈ key :: keys)) by apply list_elem_of_here.
    case_bool_decide; [done|]. apply obj_get_set_eq.
  - rewrite obj_get_set_ne by done.
    destruct (bool_decide (k ∈ keys)) eqn:Hk.
    + apply bool_decide_eq_true in Hk.
      by rewrite bool_decide_eq_true_2 by (by apply list_elem_of_further).
    + apply bool_decide_eq_false in Hk. rewrite bool_decide_eq_false_2; [done|].
      by intros [?|?]%elem_of_cons.
Qed.

Lemma assign_all_get upd p k :
  obj_get k (assign_all upd p) = if bool_decide (k ∈ obj_keys upd) then obj_get k upd else obj_get k p.
Proof. apply assign_fold. Qed.

Section OneProductFacts.
Context {ext : Externals}.

Lemma reference_checked k v msg (otherwise : M unit) st st' u :
  (if truthy v
   then let! e := findById k v in
        match e with
        | Some _ => ret tt
        | None => throw msg
        end
   else otherwise) st = (st', Ok u) →
  truthy v = true →
  st' = st ∧ ∃ e, e ∈ entities st k ∧ v = VId (ent_id e).
Proof.
  intros H Hv. rewrite Hv in H. unfold bind, findById, throw, ret in H.
  destruct v; try done.
  destruct (List.find _ _) as [e|] eqn:Hf; [|done]. injection H as <- _.
  apply find_some in Hf as [Hin <-%Nat.eqb_eq]. split; [done|].
  exists e. split; [by apply list_elem_of_In|done].
Qed.

Lemma reference_skipped k v msg st st' u :
  (if truthy v
   then let! e := findById k v in
        match e with
        | Some _ => ret tt
        | None => throw msg
        end
   else ret tt) st = (st', Ok u) →
  st' = st.
Proof.
  intros H. destruct (truthy v) eqn:Hv; [|by injection H as <- _].
  destruct (reference_checked k v msg (ret tt) st st' u) as [-> _]; [by rewrite Hv|done|done].
Qed.

(** X14. A document stored by the create route refers to what the store
    holds: its parent category is the identifier of a stored category,
    its category, when truthy, the identifier of a stored subcategory,
    and its creator is the requesting user whatever the body says. A
    truthy slug is the slug of no product stored before. The route
    appends the document and writes nothing else. *)
Theorem created_product_refers_to_the_store user body st st' doc :
  create_product user body st = (st', Ok doc) →
  products st' = (products st ++ [doc])%list
  ∧ entities st' = entities st
  ∧ (∃ e, e ∈ entities st Category ∧ obj_get "parentCategory" doc = VId (ent_id e))
  ∧ (truthy (obj_get "category" doc) = true →
     ∃ e, e ∈ entities st SubCategory ∧ obj_get "category" doc = VId (ent_id e))
  ∧ obj_get "createdBy" doc = user
  ∧ (truthy (obj_get "slug" doc) = true →
     ∀ p, p ∈ products st → mongo_eq (obj_get "slug" doc) (obj_get "slug" p) = false).
Proof.
  intros Hr. pose proof (create_product_inv _ _ _ _ _ Hr) as Hsave.
  unfold create_product in Hr.
  step_bind Hr as H1. step_bind Hr as H2. step_bind Hr as H3. clear Hr.
  assert (truthy (obj_get "parentCategory" body) = true) as Hpc.
  { destruct (truthy (obj_get "parentCategory" body)); [done|]. by unfold throw in H1. }
  destruct (reference_checked _ _ _ _ _ _ _ H1 Hpc) as [-> (e1 & He1 & Hv1)].
  pose proof (reference_skipped _ _ _ _ _ _ H2) as ->.
  unfold save_product in Hsave. destruct (product_rejects _ _); [done|].
  injection Hsave as <- <-. simpl products. simpl entities.
  assert (obj_get "parentCategory" (("_id", VId (next_id st)) :: create_fields user body)
          = obj_get "parentCategory" body) as Epc.
  { unfold create_fields. cbn [obj_get String.eqb Ascii.eqb Bool.eqb].
    rewrite !obj_get_set_ne by done. apply obj_get_set_eq. }
  assert (obj_get "slug" (("_id", VId (next_id st)) :: create_fields user body)
          = obj_get "slug" (obj_without ["parentCategory"; "category"] body)) as Eslug.
  { unfold create_fields. cbn [obj_get String.eqb Ascii.eqb Bool.eqb].
    by rewrite !obj_get_set_ne by done. }
  split_and!; try done.
  - exists e1. by rewrite Epc.
  - rewrite create_fields_category. intros Hc.
    destruct (reference_checked _ _ _ _ _ _ _ H2 Hc) as [_ (e2 & He2 & Hv2)]. eauto.
  - unfold create_fields. cbn [obj_get String.eqb Ascii.eqb Bool.eqb]. apply obj_get_set_eq.
  - rewrite Eslug. intros Hs p Hp. rewrite Hs in H3.
    unfold bind, findOne_slug, throw, ret in H3.
    destruct (List.find _ _) eqn:Hf; [done|].
    eapply find_none in Hf; [exact Hf|by apply list_elem_of_In].
Qed.

(** X15. A route on one product that answers with an error has written
    nothing: the create and update routes run all their checks before
    they save, and the delete route throws only when it finds no
    product. Reading a product never writes. *)
Theorem one_product_routes_fail_cleanly user id body st st' msg :
  (create_product user body st = (st', Thrown msg) → st' = st)
  ∧ (update_product id body st = (st', Thrown msg) → st' = st)
  ∧ (delete_product id st = (st', Thrown msg) → st' = st ∧ msg = "Product not found")
  ∧ (∀ r, get_product id st = (st', r) → st' = st).
Proof.
  split_and!.
  - unfold create_product, bind, findById, findOne_slug, save_product, throw, ret.
    intros H. repeat case_match; by simplify_eq.
  - unfold update_product, bind, findById_product, findById, findOne_other_slug,
      save_existing, throw, ret.
    intros H. repeat case_match; by simplify_eq.
  - unfold delete_product, bind, findById_product, deleteOne, throw, ret.
    intros H. repeat case_match; by simplify_eq.
  - unfold get_product, bind, findById_product, throw, ret.
    intros r H. repeat case_match; by simplify_eq.
Qed.

Lemma update_product_inv id body st st' doc :
  update_product id body st = (st', Ok doc) →
  ∃ old,
    List.find (has_id id) (products st) = Some old
    ∧ save_existing id (update_fields body old) st = (st', Ok doc)
    ∧ (truthy (obj_get "parentCategory" body) = true →
       ∃ e, e ∈ entities st Category ∧ obj_get "parentCategory" body = VId (ent_id e))
    ∧ (truthy (obj_get "category" body) = true →
       ∃ e, e ∈ entities st SubCategory ∧ obj_get "category" body = VId (ent_id e))
    ∧ (truthy (obj_get "slug" body) = true →
       strict_ne (obj_get "slug" body) (obj_get "slug" old) = true →
       ∀ p, p ∈ products st → has_id id p = false →
            mongo_eq (obj_get "slug" body) (obj_get "slug" p) = false).
Proof.
  unfold update_product. intros Hr.
  step_bind Hr as Hfind. injection Hfind as <- <-.
  destruct (List.find (has_id id) (products st)) as [old|] eqn:Hold; [|done].
  step_bind Hr as H1. step_bind Hr as H2. step_bind Hr as H3.
  pose proof (reference_skipped _ _ _ _ _ _ H1) as ->.
  pose proof (reference_skipped _ _ _ _ _ _ H2) as ->.
  assert (st2 = st) as ->.
  { unfold bind, findOne_other_slug, throw, ret in H3. repeat case_match; by simplify_eq. }
  exists old. split_and!; try done.
  - intros Hv. by destruct (reference_checked _ _ _ _ _ _ _ H1 Hv).
  - intros Hv. by destruct (reference_checked _ _ _ _ _ _ _ H2 Hv).
  - intros Hs Hne p Hp Hid. rewrite Hs, Hne in H3.
    unfold bind, findOne_other_slug, throw, ret in H3. simpl in H3.
    match type of H3 with
    | context [List.find ?f ?l] => destruct (List.find f l) eqn:Hf; [done|]
    end.
    eapply find_none in Hf; [|by apply list_elem_of_In]. simpl in Hf.
    rewrite Hid in Hf. simpl in Hf. by rewrite andb_true_r in Hf.
Qed.

(** X16. What a successful update does to the found document: a falsy
    slug, parent category or category in the body leaves that field as
    it was, so none of the three can be cleared; a truthy category is
    written to both category and subCategory, while a body that gives
    subCategory without a category sets subCategory alone. A truthy
    parent category or category is the identifier of a stored document,
    and a slug that differs from the old one is the slug of no other
    stored product. *)
Theorem update_assigns body id st st' doc :
  update_product id body st = (st', Ok doc) →
  ∃ old,
    List.find (has_id id) (products st) = Some old
    ∧ obj_get "slug" doc
      = (if truthy (obj_get "slug" body) then obj_get "slug" body
         else obj_get "slug" old)
    ∧ obj_get "parentCategory" doc
      = (if truthy (obj_get "parentCategory" body) then obj_get "parentCategory" body
         else obj_get "parentCategory" old)
    ∧ obj_get "category" doc
      = (if truthy (obj_get "category" body) then obj_get "category" body
         else obj_get "category" old)
    ∧ obj_get "subCategory" doc
      = (if truthy (obj_get "category" body) then obj_get "category" body
         else if bool_decide ("subCategory" ∈ obj_keys body)
              then obj_get "subCategory" body
              else obj_get "subCategory" old)
    ∧ (truthy (obj_get "parentCategory" body) = true →
       ∃ e, e ∈ entities st Category ∧ obj_get "parentCategory" doc = VId (ent_id e))
    ∧ (truthy (obj_get "category" body) = true →
       ∃ e, e ∈ entities st SubCategory ∧ obj_get "category" doc = VId (ent_id e))
    ∧ (truthy (obj_get "slug" body) = true →
       strict_ne (obj_get "slug" body) (obj_get "slug" old) = true →
       ∀ p, p ∈ products st → has_id id p = false →
            mongo_eq (obj_get "slug" doc) (obj_get "slug" p) = false).
Proof.
  intros (old & Hold & Hsave & Hpc & Hc & Hs)%update_product_inv.
  exists old. split; [done|].
  unfold save_existing in Hsave. destruct (product_rejects _ _); [done|].
  injection Hsave as _ <-.
  set (upd := obj_without ["parentCategory"; "category"; "slug"] body).
  assert (∀ k, existsb (String.eqb k) ["parentCategory"; "category"; "slug"] = true →
               obj_get k (assign_all upd old) = obj_get k old) as Hkept.
  { intros k Hk. rewrite assign_all_get. case_bool_decide as Hin; [|done].
    apply obj_without_keys in Hin as [_ Hout]. congruence. }
  assert (obj_get "subCategory" (assign_all upd old)
          = if bool_decide ("subCategory" ∈ obj_keys body)
            then obj_get "subCategory" body else obj_get "subCategory" old) as Hsub.
  { rewrite assign_all_get. unfold upd. case_bool_decide as Hin.
    - apply obj_without_keys in Hin as [Hin _]. rewrite bool_decide_eq_true_2 by done.
      by apply obj_get_without_ne.
    - rewrite bool_decide_eq_false_2; [done|]. intros Hin'. apply Hin.
      by apply obj_without_keeps. }
  assert (obj_get "slug" (update_fields body old)
          = if truthy (obj_get "slug" body) then obj_get "slug" body
            else obj_get "slug" old) as Eslug.
  { unfold update_fields. fold upd.
    destruct (truthy (obj_get "slug" body)); [apply obj_get_set_eq|].
    destruct (truthy (obj_get "category" body)), (truthy (obj_get "parentCategory" body));
      rewrite ?obj_get_set_ne by done; by apply Hkept. }
  assert (obj_get "parentCategory" (update_fields body old)
          = if truthy (obj_get "parentCategory" body) then obj_get "parentCategory" body
            else obj_get "parentCategory" old) as Epc.
  { unfold update_fields. fold upd.
    destruct (truthy (obj_get "slug" body)), (truthy (obj_get "category" body)),
      (truthy (obj_get "parentCategory" body));
      rewrite ?obj_get_set_ne by done; first [apply obj_get_set_eq|by apply Hkept]. }
  assert (obj_get "category" (update_fields body old)
          = if truthy (obj_get "category" body) then obj_get "category" body
            else obj_get "category" old) as Ecat.
  { unfold update_fields. fold upd.
    destruct (truthy (obj_get "slug" body)), (truthy (obj_get "category" body)),
      (truthy (obj_get "parentCategory" body));
      rewrite ?obj_get_set_ne by done; first [apply obj_get_set_eq|by apply Hkept]. }
  split_and!; try done.
  - unfold update_fields. fold upd.
    destruct (truthy (obj_get "slug" body)), (truthy (obj_get "category" body)),
      (truthy (obj_get "parentCategory" body));
      rewrite ?obj_get_set_ne by done; first [apply obj_get_set_eq|exact Hsub].
  - intros Hv. rewrite Epc, Hv. by apply Hpc.
  - intros Hv. rewrite Ecat, Hv. by apply Hc.
  - intros Hv Hne. rewrite Eslug, Hv. by apply Hs.
Qed.

Lemma delete_product_inv id st st' msg :
  delete_product id st = (st', Ok msg) →
  msg = "Product removed" ∧ entities st' = entities st
  ∧ ∃ old, swaps id old [] (products st) (products st').
Proof.
  unfold delete_product, bind, findById_product, deleteOne, throw, ret. intros Hr.
  destruct (List.find (has_id id) (products st)) as [old|] eqn:Hold; [|done].
  injection Hr as <- <-. split; [done|]. split; [done|]. exists old.
  destruct (first_split _ _ _ Hold) as (l1 & l2 & Hl & Hid & Hl1 & _ & Hrem).
  exists l1, l2. simpl. by rewrite Hrem.
Qed.

(** X17. A successful update puts the new document in the place of the
    first product of that identifier, and a successful delete takes that
    product out; the other products stay as they are and in order, and
    neither route touches the dimension collections. *)
Theorem update_and_delete_touch_one_product id body st st' :
  (∀ doc, update_product id body st = (st', Ok doc) →
          entities st' = entities st
          ∧ ∃ old, swaps id old [doc] (products st) (products st'))
  ∧ (∀ msg, delete_product id st = (st', Ok msg) →
            msg = "Product removed" ∧ entities st' = entities st
            ∧ ∃ old, swaps id old [] (products st) (products st')).
Proof.
  split.
  - intros doc (old & Hold & Hsave & _)%update_product_inv.
    unfold save_existing in Hsave. destruct (product_rejects _ _); [done|].
    injection Hsave as <- <-. split; [done|]. exists old.
    destruct (first_split _ _ _ Hold) as (l1 & l2 & Hl & Hid & Hl1 & Hrep & _).
    exists l1, l2. simpl. by rewrite Hrep.
  - intros msg. apply delete_product_inv.
Qed.

Lemma filter_all_false {A} (f : A → bool) l : (∀ p, p ∈ l → f p = false) → List.filter f l = [].
Proof.
  induction l as [|p l IH]; intros Hall; simpl; [done|].
  rewrite (Hall p) by apply list_elem_of_here.
  apply IH. intros q Hq. by apply Hall, list_elem_of_further.
Qed.

(** X18. Once a product is deleted it is gone: when its identifier named
    no other stored product, reading, updating and deleting under that
    identifier all answer "Product not found" afterwards. *)
Theorem deleted_product_is_not_found id st st' msg :
  names_one id st →
  delete_product id st = (st', Ok msg) →
  get_product id st' = (st', Thrown "Product not found")
  ∧ (∀ body, update_product id body st' = (st', Thrown "Product not found"))
  ∧ delete_product id st' = (st', Thrown "Product not found").
Proof.
  intros Hone Hdel.
  destruct (delete_product_inv _ _ _ _ Hdel) as (_ & _ & old & l1 & l2 & Hl & Hl' & Hid & Hl1).
  assert (List.find (has_id id) (products st') = None) as Hnone.
  { apply find_existsb. rewrite Hl'. simpl. rewrite existsb_app.
    unfold names_one in Hone. rewrite Hl, List.filter_app in Hone. simpl in Hone.
    rewrite Hid, (filter_all_false _ _ Hl1) in Hone. simpl in Hone.
    assert (List.filter (has_id id) l2 = []) as Hl2 by (destruct (List.filter _ l2); [done|simpl in Hone; lia]).
    apply orb_false_iff. split; apply not_true_iff_false; intros (p & Hp & Hpid)%existsb_exists.
    - rewrite Hl1 in Hpid by (by apply list_elem_of_In). done.
    - assert (In p (List.filter (has_id id) l2)) as Hin by (by apply filter_In).
      by rewrite Hl2 in Hin. }
  unfold get_product, update_product, delete_product, bind, findById_product.
  by rewrite Hnone.
Qed.

End OneProductFacts.

Lemma created_product_refers_to_the_store_witness :
  ∃ st' doc e,
    create_product (ext := integral) (VId 9)
      [("name", VStr "Gizmo"); ("parentCategory", VId 0); ("createdBy", VId 7)] small_store
    = (st', Ok doc)
    ∧ e ∈ entities small_store Category ∧ obj_get "parentCategory" doc = VId (ent_id e)
    ∧ obj_get "createdBy" doc = VId 9.
Proof.
  eexists _, _.
  assert (create_product (ext := integral) (VId 9)
            [("name", VStr "Gizmo"); ("parentCategory", VId 0); ("createdBy", VId 7)] small_store
          = (_, Ok _)) as Hr by (vm_compute; reflexivity).
  destruct (created_product_refers_to_the_store (ext := integral) _ _ _ _ _ Hr)
    as (_ & _ & (e & He & Hpc) & _ & Hby & _).
  exists e. split_and!; [exact Hr|exact He|exact Hpc|exact Hby].
Defined.

Lemma one_product_routes_fail_cleanly_witness :
  (create_product (ext := integral) VUndef [("name", VStr "Gizmo")] small_store).1 = small_store
  ∧ (update_product (ext := integral) 1 [("parentCategory", VId 5)] small_store).1 = small_store
  ∧ (delete_product 7 small_store).1 = small_store.
Proof.
  split_and!.
  - apply (proj1 (one_product_routes_fail_cleanly (ext := integral) VUndef 0
                    [("name", VStr "Gizmo")] small_store _ "Parent category is required")).
    vm_compute; reflexivity.
  - apply (proj1 (proj2 (one_product_routes_fail_cleanly (ext := integral) VUndef 1
                           [("parentCategory", VId 5)] small_store _ "Invalid parent category"))).
    vm_compute; reflexivity.
  - apply (proj1 (proj2 (proj2 (one_product_routes_fail_cleanly (ext := integral) VUndef 7
                                  [] small_store _ "Product not found")))).
    vm_compute; reflexivity.
Defined.

Lemma update_assigns_witness :
  ∃ st' doc,
    update_product (ext := integral) 1 [("slug", VStr ""); ("subCategory", VId 4); ("price", VNum 3)]
      small_store = (st', Ok doc)
    ∧ obj_get "slug" doc = VStr "widget"
    ∧ obj_get "subCategory" doc = VId 4
    ∧ obj_get "category" doc = VUndef.
Proof.
  eexists _, _.
  assert (update_product (ext := integral) 1
            [("slug", VStr ""); ("subCategory", VId 4); ("price", VNum 3)] small_store
          = (_, Ok _)) as Hr by (vm_compute; reflexivity).
  destruct (update_assigns (ext := integral) _ _ _ _ _ Hr)
    as (old & Hold & Hslug & _ & Hcat & Hsub & _).
  vm_compute in Hold. injection Hold as <-.
  split_and!; [exact Hr|exact Hslug|exact Hsub|exact Hcat].
Defined.

Lemma update_and_delete_touch_one_product_witness :
  (∃ st' doc old, update_product (ext := integral) 1 [("price", VNum 3)] small_store = (st', Ok doc)
                  ∧ swaps 1 old [doc] (products small_store) (products st'))
  ∧ (∃ st' old, delete_product 1 small_store = (st', Ok "Product removed")
                ∧ swaps 1 old [] (products small_store) (products st')).
Proof.
  split.
  - eexists _, _.
    assert (update_product (ext := integral) 1 [("price", VNum 3)] small_store = (_, Ok _)) as Hr
      by (vm_compute; reflexivity).
    destruct (proj1 (update_and_delete_touch_one_product (ext := integral) _ _ _ _) _ Hr)
      as (_ & old & Hswap).
    exists old. split; [exact Hr|exact Hswap].
  - eexists _.
    assert (delete_product 1 small_store = (_, Ok "Product removed")) as Hr
      by (vm_compute; reflexivity).
    destruct (proj2 (update_and_delete_touch_one_product (ext := integral) 1 [] _ _) _ Hr)
      as (_ & _ & old & Hswap).
    exists old. split; [exact Hr|exact Hswap].
Defined.

Lemma deleted_product_is_not_found_witness :
  ∃ st', delete_product 1 small_store = (st', Ok "Product removed")
         ∧ get_product 1 st' = (st', Thrown "Product not found").
Proof.
  eexists.
  assert (delete_product 1 small_store = (_, Ok "Product removed")) as Hr
    by (vm_compute; reflexivity).
  split; [exact Hr|].
  apply (deleted_product_is_not_found (ext := integral) 1 small_store _ "Product removed");
    [|exact Hr].
  unfold names_one. vm_compute. lia.
Defined.

(** ** The parent of a created subcategory *)

Lemma index_fold_values {ext : Externals} l : ∀ (m : gmap string nat) key id,
  fold_left (fun m e => <[toLowerCase (trim (ent_name e)) := ent_id e]> m) l m !! key = Some id →
  m !! key = Some id ∨ ∃ e, e ∈ l ∧ ent_id e = id.
Proof.
  induction l as [|e l IH]; intros m key id; simpl; [by left|].
  intros [Hm|(e' & He' & Hid)]%IH.
  - rewrite lookup_insert in Hm. case_decide; [|by left].
    injection Hm as <-. right. exists e. split; [apply list_elem_of_here|done].
  - right. exists e'. split; [by apply list_elem_of_further|done].
Qed.

Section Parents.
Context {ext : Externals}.

Lemma bind_untouched {A B} (ks : list kind) (c : M A) (k : A → M B) :
  (∀ st st' r, c st = (st', r) → ∀ x, x ∈ ks → entities st' x = entities st x) →
  (∀ a st st' r, k a st = (st', r) → ∀ x, x ∈ ks → entities st' x = entities st x) →
  ∀ st st' r, bind c k st = (st', r) → ∀ x, x ∈ ks → entities st' x = entities st x.
Proof.
  intros Hc Hk st st' r [(s & a & H1 & H2)|(msg & H1 & _)]%bind_inv x Hx.
  - rewrite (Hk _ _ _ _ H2 x Hx). by eapply Hc.
  - by eapply Hc.
Qed.

Lemma create_missing_untouched (ks : list kind) k mk names m :
  k ∉ ks →
  ∀ st st' r, create_missing k mk names m st = (st', r) →
              ∀ x, x ∈ ks → entities st' x = entities st x.
Proof.
  intros Hk st st' r Hc x Hx. eapply create_missing_other; [exact Hc|]. by intros ->.
Qed.

(** Every identifier of the category map names a stored category. *)
Lemma category_map_stored mk names st s1 cmap :
  (∀ name, ent_name (mkEntity 0 (mk name)) = trim name) →
  create_missing Category mk names (index_by_name (named_among names (entities st Category))) st
  = (s1, Ok cmap) →
  ∀ key id, cmap !! key = Some id → ∃ c, c ∈ entities s1 Category ∧ ent_id c = id.
Proof.
  intros Hname Hc key id Hid.
  destruct (create_missing_effect _ _ _ Hname _ _ _ _ Hc)
    as (created & (Hk & _ & _) & _ & _ & _ & _ & Hmap).
  destruct (Hmap cmap eq_refl) as (_ & Hfrom & _). rewrite Hk.
  destruct (Hfrom _ _ Hid) as [Hold|(e & He & _ & Hid')].
  - apply index_fold_values in Hold as [Hold|(e & [He _]%named_among_elem & Hid')]; [done|].
    exists e. split; [apply elem_of_app; by left|done].
  - exists e. split; [apply elem_of_app; by right|done].
Qed.

Lemma subcategories_step user sub par rows cmap names m s2 s3 r :
  create_missing SubCategory (fun name => sub_doc user (parent_of sub par rows cmap name) name)
    names m s2 = (s3, r) →
  (∀ key id, cmap !! key = Some id → ∃ c, c ∈ entities s2 Category ∧ ent_id c = id) →
  ∀ e, e ∈ entities s3 SubCategory → e ∈ entities s2 SubCategory ∨ parent_stored s3 e.
Proof.
  intros Hc Hcmap e He.
  destruct (create_missing_effect SubCategory
              (fun name => sub_doc user (parent_of sub par rows cmap name) name) names
              (λ _, eq_refl) _ _ _ _ Hc)
    as (created & (Hk & Hother & _) & _ & _ & Hdocs & _).
  rewrite Hk in He. apply elem_of_app in He as [He|He]; [by left|]. right.
  rewrite Forall_forall in Hdocs. destruct (Hdocs e He) as (name & _ & Hdoc & _).
  unfold parent_stored. rewrite Hdoc, (Hother Category) by done.
  change (obj_get "category" (sub_doc user (parent_of sub par rows cmap name) name))
    with (parent_of sub par rows cmap name).
  unfold parent_of. destruct (List.find _ _) as [row|]; [|by left].
  unfold map_get. destruct (cmap !! _) as [id|] eqn:Hid; [|by left].
  destruct (Hcmap _ _ Hid) as (c & Hcin & <-). right. by exists c.
Qed.

Ltac untouched_tail :=
  repeat (apply bind_untouched;
          [apply create_missing_untouched; kind_not_listed|intros ?; cbv beta]);
  by intros ? ? ? [= <- _].

Lemma resolve_excel_parents user rows st st' r :
  resolve_excel user rows st = (st', r) →
  ∀ e, e ∈ entities st' SubCategory → e ∈ entities st SubCategory ∨ parent_stored st' e.
Proof.
  unfold resolve_excel. intros Hr.
  do 9 rewrite (bind_run (find _ _) _ _ _ _ eq_refl) in Hr.
  apply bind_inv in Hr as [(s1 & cmap & Hc1 & Hr)|(msg & Hc1 & ->)].
  2: { intros e He. left. by rewrite (create_missing_other _ _ _ _ _ _ _ SubCategory Hc1) in He. }
  pose proof (category_map_stored (slugged_doc user) _ _ _ _ (λ _, eq_refl) Hc1) as Hstored.
  pose proof (create_missing_other _ _ _ _ _ _ _ SubCategory Hc1 ltac:(done)) as Hs1.
  apply bind_inv in Hr as [(s2 & bmap & Hc2 & Hr)|(msg & Hc2 & ->)].
  2: { intros e He. left.
       by rewrite (create_missing_other _ _ _ _ _ _ _ SubCategory Hc2), Hs1 in He. }
  pose proof (create_missing_other _ _ _ _ _ _ _ SubCategory Hc2 ltac:(done)) as Hs2.
  pose proof (create_missing_other _ _ _ _ _ _ _ Category Hc2 ltac:(done)) as Hk2.
  rewrite <- Hk2 in Hstored.
  apply bind_inv in Hr as [(s3 & smap & Hc3 & Hr)|(msg & Hc3 & ->)];
    pose proof (subcategories_step _ _ _ _ _ _ _ _ _ _ Hc3 Hstored) as Hstep;
    rewrite Hs2, Hs1 in Hstep; [|done].
  assert (∀ x, x ∈ [Category; SubCategory] → entities st' x = entities s3 x) as Htail.
  { revert Hr. generalize s3 st' r. untouched_tail. }
  intros e He. unfold parent_stored.
  rewrite (Htail SubCategory) in He by (rewrite list_elem_of_In; simpl; tauto).
  rewrite (Htail Category) by (rewrite list_elem_of_In; simpl; tauto).
  by apply Hstep.
Qed.

Lemma resolve_csv_parents user rows st st' r :
  resolve_csv user rows st = (st', r) →
  ∀ e, e ∈ entities st' SubCategory → e ∈ entities st SubCategory ∨ parent_stored st' e.
Proof.
  unfold resolve_csv. intros Hr.
  do 5 rewrite (bind_run (find _ _) _ _ _ _ eq_refl) in Hr.
  apply bind_inv in Hr as [(s1 & cmap & Hc1 & Hr)|(msg & Hc1 & ->)].
  2: { intros e He. left. by rewrite (create_missing_other _ _ _ _ _ _ _ SubCategory Hc1) in He. }
  pose proof (category_map_stored (slugged_doc user) _ _ _ _ (λ _, eq_refl) Hc1) as Hstored.
  pose proof (create_missing_other _ _ _ _ _ _ _ SubCategory Hc1 ltac:(done)) as Hs1.
  apply bind_inv in Hr as [(s3 & smap & Hc3 & Hr)|(msg & Hc3 & ->)];
    pose proof (subcategories_step _ _ _ _ _ _ _ _ _ _ Hc3 Hstored) as Hstep;
    rewrite Hs1 in Hstep; [|done].
  assert (∀ x, x ∈ [Category; SubCategory] → entities st' x = entities s3 x) as Htail.
  { revert Hr. generalize s3 st' r. untouched_tail. }
  intros e He. unfold parent_stored.
  rewrite (Htail SubCategory) in He by (rewrite list_elem_of_In; simpl; tauto).
  rewrite (Htail Category) by (rewrite list_elem_of_In; simpl; tauto).
  by apply Hstep.
Qed.

(** X19. A subcategory created by a preview has no parent or a stored
    category as its parent: whatever the route answers, every
    subcategory in the store afterwards was there before or has a
    [category] field that is undefined or the identifier of a category
    in the store. *)
Theorem created_subcategories_have_stored_parents user rows st st' r e :
  (bulk_preview user rows st = (st', r) → e ∈ entities st' SubCategory →
   e ∈ entities st SubCategory ∨ parent_stored st' e)
  ∧ (bulk_preview_csv user rows st = (st', r) → e ∈ entities st' SubCategory →
     e ∈ entities st SubCategory ∨ parent_stored st' e).
Proof.
  split.
  - intros [r' Hr]%bulk_preview_store. by eapply resolve_excel_parents.
  - intros [r' Hr]%bulk_preview_csv_store. by eapply resolve_csv_parents.
Qed.

End Parents.

Lemma created_subcategories_have_stored_parents_witness :
  length (entities (bulk_preview_csv (ext := integral) VUndef sample_csv small_store).1 SubCategory)
  = 1%nat
  ∧ Forall (λ e, e ∈ entities small_store SubCategory
                 ∨ parent_stored (bulk_preview_csv (ext := integral) VUndef sample_csv small_store).1 e)
           (entities (bulk_preview_csv (ext := integral) VUndef sample_csv small_store).1 SubCategory).
Proof.
  split; [vm_compute; reflexivity|]. apply Forall_forall. intros e.
  apply (proj2 (created_subcategories_have_stored_parents (ext := integral) VUndef sample_csv
                  small_store _ (bulk_preview_csv (ext := integral) VUndef sample_csv small_store).2 e)).
  vm_compute; reflexivity.
Defined.

(** ** What a sheet cannot set *)

Lemma obj_get_missing k o : k ∉ obj_keys o → obj_get k o = VUndef.
Proof.
  induction o as [|[k0 v] o IH]; simpl; [done|]. intros Hk.
  destruct (String.eqb_spec k k0) as [->|Hne].
  - exfalso. apply Hk, list_elem_of_here.
  - apply IH. intros Hin. by apply Hk, list_elem_of_further.
Qed.

Lemma no_header_for f header :
  f ∈ ["image"; "oldPrice"; "galleryImages"; "countInStock"; "color"; "isActive"; "featured"] →
  excelToBackendKey header ≠ Some f.
Proof.
  intros Hf Heq. unfold excelToBackendKey, inherited_member in Heq.
  repeat case_match; simplify_eq; rewrite list_elem_of_In in Hf; simpl in Hf; intuition discriminate.
Qed.

Lemma remapRow_unmapped f row :
  f ∈ ["image"; "oldPrice"; "galleryImages"; "countInStock"; "color"; "isActive"; "featured"] →
  obj_get f (remapRow row) = VUndef.
Proof.
  intros Hf. apply obj_get_missing. intros [header Hh]%remapRow_keys_spec.
  by apply (no_header_for f header).
Qed.

Lemma unique_names_keep field rows : ∀ acc,
  (∀ row, row ∈ rows → truthy (obj_get field row) = false) →
  fold_left (fun s row =>
               let v := obj_get field row in
               if truthy v then set_add (trim (js_String v)) s else s) rows acc = acc.
Proof.
  induction rows as [|row rows IH]; intros acc Hall; simpl; [done|].
  rewrite (Hall row) by apply list_elem_of_here.
  apply IH. intros r Hr. by apply Hall, list_elem_of_further.
Qed.

Lemma unique_names_none field rows :
  (∀ row, row ∈ rows → truthy (obj_get field row) = false) → unique_names field rows = [].
Proof. apply unique_names_keep. Qed.

Section Unmapped.
Context {ext : Externals}.

Lemma create_nothing_untouched (ks : list kind) k mk m :
  ∀ st st' r, create_missing k mk [] m st = (st', r) →
              ∀ x, x ∈ ks → entities st' x = entities st x.
Proof. simpl. by intros ? ? ? [= <- _]. Qed.

Lemma find_untouched (ks : list kind) k names :
  ∀ st st' r, find k names st = (st', r) → ∀ x, x ∈ ks → entities st' x = entities st x.
Proof. by intros ? ? ? [= <- _]. Qed.

Lemma resolve_excel_no_color user rows st st' r :
  (∀ row, row ∈ rows → truthy (obj_get "color" row) = false) →
  resolve_excel user rows st = (st', r) → entities st' Color = entities st Color.
Proof.
  intros Hall. unfold resolve_excel. cbv zeta.
  rewrite (unique_names_none "color" rows Hall).
  intros Hr.
  assert (∀ x, x ∈ [Color] → entities st' x = entities st x) as Hsame.
  { revert Hr. generalize st st' r.
    repeat (apply bind_untouched;
            [first [apply find_untouched
                   |apply create_missing_untouched; kind_not_listed
                   |apply create_nothing_untouched]
            |intros ?; cbv beta]).
    by intros ? ? ? [= <- _]. }
  apply Hsame, list_elem_of_here.
Qed.

(** X21. The column table maps no header to image, oldPrice,
    galleryImages, countInStock, color, isActive or featured, so a sheet
    cannot set them: every product of a spreadsheet preview has them at
    their defaults, and the route, whatever it answers, creates no
    colour. *)
Theorem sheet_cannot_set_unmapped_fields user rows st st' :
  (∀ resp p, bulk_preview user rows st = (st', Ok resp) → p ∈ pv_previewProducts resp →
     obj_get "image" p = VStr "" ∧ obj_get "oldPrice" p = VNum 0
     ∧ obj_get "galleryImages" p = VArr [] ∧ obj_get "countInStock" p = VNum 0
     ∧ obj_get "color" p = VUndef
     ∧ obj_get "isActive" p = VBool true ∧ obj_get "featured" p = VBool false)
  ∧ (∀ r, bulk_preview user rows st = (st', r) → entities st' Color = entities st Color).
Proof.
  split.
  - intros resp p Hr Hp.
    destruct (excel_product_origin _ _ _ _ _ _ Hr Hp)
      as (maps & row & (raw & -> & _)%list_elem_of_fmap & Hshown).
    rewrite !Hshown by not_listed.
    change (obj_get "image" (excel_candidate maps (remapRow raw)))
      with (js_or (obj_get "image" (remapRow raw)) (VStr "")).
    change (obj_get "oldPrice" (excel_candidate maps (remapRow raw)))
      with (js_or (obj_get "oldPrice" (remapRow raw)) (VNum 0)).
    change (obj_get "galleryImages" (excel_candidate maps (remapRow raw)))
      with (comma_list (obj_get "galleryImages" (remapRow raw))).
    change (obj_get "countInStock" (excel_candidate maps (remapRow raw)))
      with (js_or (obj_get "countInStock" (remapRow raw)) (VNum 0)).
    change (obj_get "color" (excel_candidate maps (remapRow raw)))
      with (dim_get (x_colorMap maps) (obj_get "color" (remapRow raw))).
    change (obj_get "isActive" (excel_candidate maps (remapRow raw)))
      with (bool_default true (obj_get "isActive" (remapRow raw))).
    change (obj_get "featured" (excel_candidate maps (remapRow raw)))
      with (bool_default false (obj_get "featured" (remapRow raw))).
    rewrite !remapRow_unmapped by (rewrite list_elem_of_In; simpl; tauto).
    by split_and!.
  - intros r [r' Hr]%bulk_preview_store.
    eapply resolve_excel_no_color; [|exact Hr].
    intros row (raw & -> & _)%list_elem_of_fmap.
    by rewrite remapRow_unmapped by (rewrite list_elem_of_In; simpl; tauto).
Qed.

End Unmapped.

Lemma sheet_cannot_set_unmapped_fields_witness :
  ∃ st' resp,
    bulk_preview (ext := integral) VUndef
      [[("name", VStr "Lamp"); ("color", VStr "red"); ("image", VStr "lamp.png");
        ("isActive", VBool false)]] small_store = (st', Ok resp)
    ∧ length (pv_previewProducts resp) = 1%nat
    ∧ (∀ p, p ∈ pv_previewProducts resp →
            obj_get "image" p = VStr "" ∧ obj_get "color" p = VUndef
            ∧ obj_get "isActive" p = VBool true)
    ∧ entities st' Color = entities small_store Color.
Proof.
  eexists _, _.
  assert (bulk_preview (ext := integral) VUndef
            [[("name", VStr "Lamp"); ("color", VStr "red"); ("image", VStr "lamp.png");
              ("isActive", VBool false)]] small_store = (_, Ok _)) as Hr
    by (vm_compute; reflexivity).
  split; [exact Hr|]. split; [vm_compute; reflexivity|]. split.
  - intros p Hp.
    destruct (proj1 (sheet_cannot_set_unmapped_fields (ext := integral) _ _ _ _) _ _ Hr Hp)
      as (Hi & _ & _ & _ & Hc & Ha & _).
    by split_and!.
  - exact (proj2 (sheet_cannot_set_unmapped_fields (ext := integral) _ _ _ _) _ Hr).
Defined.

(** ** Saving the same products again *)

Section SaveAgain.
Context {ext : Externals}.

(** X22. What was saved is a duplicate the next time: when a save has
    stored the product at some index, whose name is a string, a second
    save of the same list, from the store the first one left, refuses
    the product at that index as a duplicate. *)
Theorem saving_again_finds_duplicates user prods st st1 total success failed results k r prod n :
  bulk_save user prods st = (st1, Ok (SaveReport total success failed results)) →
  results !! k = Some r → is_success r = true →
  prods !! k = Some prod → obj_get "name" prod = VStr n →
  ∃ st2 success2 failed2 results2 shown,
    bulk_save user prods st1 = (st2, Ok (SaveReport total success2 failed2 results2))
    ∧ results2 !! k = Some shown
    ∧ shown = failed_result k "Duplicate product name or slug" prod.
Proof.
  intros Hrun Hk Hs Hprod Hn.
  assert (prods ≠ []) as Hne by (intros ->; done).
  assert (total = length prods) as ->.
  { destruct (bulk_save_run user prods st Hne) as (? & ? & ? & ? & _ & _ & _ & Hrun').
    rewrite Hrun in Hrun'. by injection Hrun'. }
  destruct (bulk_save_turn _ _ _ _ _ _ _ _ _ _ Hrun Hprod)
    as (st0 & acc' & sa & acc1 & sb & acc2 & r0 & shown0 & Hl & _ & Ht & Hr & Hres0 & _ & Hsh
        & (_ & Hst & _) & _).
  rewrite Hk in Hsh. injection Hsh as <-.
  assert (st0 = st1) as ->.
  { destruct (bulk_save_run user prods st Hne) as (? & ? & ? & ? & Hl' & _ & _ & Hrun').
    rewrite Hrun in Hrun'. injection Hrun' as -> _ _ _. rewrite Hl in Hl'. by injection Hl'. }
  destruct (save_turn_outcome _ _ _ _ _ _ _ Ht) as [[-> [reason ->]]|(slug & -> & -> & Htn & _)];
    simpl in Hr; apply app_inv_head in Hr; injection Hr as <-.
  { unfold is_success in Hs. by rewrite Hst in Hs. }
  set (d := ("_id", VId (next_id sa)) :: save_fields user prod slug) in *.
  assert (d ∈ products st1) as Hd.
  { destruct (save_loop_docs _ _ _ _ _ _ _ Hl) as (new & Hnew & Hprods & _).
    simpl in Hnew. rewrite Hprods. apply elem_of_app. right.
    apply (list_elem_of_fmap_2 sr_product _ (mkResult k "success" None d)).
    apply list_elem_of_In, filter_In. split; [|done].
    apply list_elem_of_In, list_elem_of_lookup. exists k. by rewrite <- Hnew. }
  assert (obj_get "name" d = VStr n) as Hdn.
  { change (obj_get "name" d) with (js_or (obj_get "name" prod) (VStr "")).
    unfold js_or. by rewrite Htn. }
  assert (n ≠ "") as Hnn.
  { intros ->. rewrite Hn in Htn. done. }
  destruct (bulk_save_run user prods st1 Hne) as (st2 & acc2' & new2 & results2 & Hl2 & Hnew2 & Hshown2 & Hrun2).
  pose proof (save_loop_found _ _ _ _ _ _ _ _ _ _ _ Hl2 Hd Hdn Hnn Hprod Hn) as Hfound.
  simpl in Hfound. rewrite Hnew2 in Hfound.
  destruct (Forall2_lookup_l _ _ _ _ _ Hshown2 Hfound) as (shown & Hshown & (Hi & Hst2 & Hre & _ & Hp)).
  exists st2, (acc_success acc2'), (acc_failed acc2'), results2, shown.
  split_and!; [done|done|].
  specialize (Hp eq_refl). destruct shown as [i s re p]. simpl in *. by subst.
Qed.

End SaveAgain.

Lemma saving_again_finds_duplicates_witness :
  ∃ st1 st2 success2 failed2 results2,
    (bulk_save (ext := integral) VUndef sample_products small_store).1 = st1
    ∧ bulk_save (ext := integral) VUndef sample_products st1
      = (st2, Ok (SaveReport 4 success2 failed2 results2))
    ∧ results2 !! 0%nat
      = Some (failed_result 0 "Duplicate product name or slug"
                [("name", VStr "Widget Pro"); ("parentCategory", VId 0)]).
Proof.
  eexists _.
  assert (bulk_save (ext := integral) VUndef sample_products small_store
          = (_, Ok (SaveReport _ _ _ _))) as Hr by (vm_compute; reflexivity).
  destruct (saving_again_finds_duplicates (ext := integral) _ _ _ _ _ _ _ _ 0%nat _
              [("name", VStr "Widget Pro"); ("parentCategory", VId 0)] "Widget Pro"
              Hr eq_refl eq_refl eq_refl eq_refl)
    as (st2 & s2 & f2 & res2 & shown & Hrun & Hk & ->).
  exists st2, s2, f2, res2. split_and!; [vm_compute; reflexivity|exact Hrun|exact Hk].
Defined.
